(** * A lossy packet channel with an adaptive error rate

    Shallow embedding of [packet.py] and [simulation.py]: the packet codec
    (a JSON envelope around the payload), the single-byte corruption model,
    the outcome recorder, the adaptive error-rate controller and the
    transmission orchestrator, followed by the properties proved about
    them.

    Python floats are IEEE 754 binary64 numbers and are modelled by Rocq's
    primitive floats, which are binary64 as well; Python integers are [Z];
    [bytes] and [str] are lists of integers (byte values, code points). *)

From Stdlib Require Import Ascii String.
From Stdlib Require Import ZArith List Bool Lia Floats QArith.
From Stdlib Require Import DecimalFacts DecimalPos DecimalN DecimalZ.
Import ListNotations.

Set Warnings "-inexact-float,-register-all".
Open Scope Z_scope.

(** ** Exceptions

    Every exception below is a subclass of Python's [Exception], so an
    [except Exception] clause catches each of them. *)

Inductive exn : Type :=
| ValueError
| TypeError
| KeyError
| ZeroDivisionError
| OverflowError
| UnicodeDecodeError
| UnicodeEncodeError
| JSONDecodeError
| RecursionError
| IndexError
| OSError.

Inductive result (A : Type) : Type :=
| Ok (a : A)
| Raise (e : exn).

Arguments Ok {A} a.
Arguments Raise {A} e.

Definition bind {A B : Type} (c : result A) (k : A -> result B) : result B :=
  match c with
  | Ok a => k a
  | Raise e => Raise e
  end.

Declare Scope py_scope.
Delimit Scope py_scope with py.
Notation "x <- c ;; k" := (bind c (fun x => k))
  (at level 61, c at next level, right associativity) : py_scope.
Notation "' p <- c ;; k" := (bind c (fun p => k))
  (at level 61, p pattern, c at next level, right associativity) : py_scope.
Open Scope py_scope.

(** ** Python numbers *)

Module PyNum.

(** An integer as an unrounded binary number, [z * 2^0]. *)
Definition raw_of_Z (z : Z) : spec_float :=
  match z with
  | Z0 => S754_zero false
  | Zpos p => S754_finite false p 0
  | Zneg p => S754_finite true p 0
  end.

(** [a / b] on two Python ints: the correctly rounded quotient. *)
Definition int_truediv (a b : Z) : result float :=
  if b =? 0 then Raise ZeroDivisionError
  else
    match SFdiv prec emax (raw_of_Z a) (raw_of_Z b) with
    | S754_infinity _ => Raise OverflowError
    | q => Ok (SF2Prim q)
    end.

(** [float(z)], as done implicitly by [x / n] for a float [x] and an int
    [n]: round to nearest, ties to even. *)
Definition float_of_Z (z : Z) : result float :=
  match binary_normalize prec emax z 0 false with
  | S754_infinity _ => Raise OverflowError
  | q => Ok (SF2Prim q)
  end.

(** [max(a, b)] keeps its first argument unless the second is greater;
    [min(a, b)] keeps its first argument unless the second is smaller. *)
Definition py_max (a b : float) : float :=
  if PrimFloat.ltb a b then b else a.

Definition py_min (a b : float) : float :=
  if PrimFloat.ltb b a then b else a.

(** [sum(l)] for a list of bools: Python starts from the int [0]. *)
Definition sum_bools (l : list bool) : Z :=
  fold_left (fun acc (b : bool) => acc + Z.b2z b) l 0.

(** [sum(l)] for a non-empty list of floats: [0 + x] converts the int [0]
    to [0.0]. *)
Definition sum_floats (l : list float) : float :=
  fold_left PrimFloat.add l PrimFloat.zero.

(** [l[start:]]: a negative start counts from the end, and both ends are
    clamped to the list. *)
Definition slice_from {A : Type} (start : Z) (l : list A) : list A :=
  let n := Z.of_nat (length l) in
  let i := if start <? 0 then Z.max (start + n) 0 else Z.min start n in
  skipn (Z.to_nat i) l.

End PyNum.
Import PyNum.

(** ** The simulator's state ([NetworkSimulator.__init__]) *)

Record NetworkSimulator : Type := mkSim {
  error_rate : float;
  latency_data : list float;
  packet_loss : list bool;
  successful_transmissions : Z;
  total_transmissions : Z;
  adaptive_window : Z;
  min_error_rate : float;
  max_error_rate : float
}.

Definition set_error_rate (self : NetworkSimulator) (r : float) : NetworkSimulator :=
  mkSim r (latency_data self) (packet_loss self)
        (successful_transmissions self) (total_transmissions self)
        (adaptive_window self) (min_error_rate self) (max_error_rate self).

Definition __init__ (rate : float) : NetworkSimulator :=
  mkSim rate [] [] 0 0 10 0.05%float 0.5%float.

(** ** The adaptive controller ([NetworkSimulator.adjust_error_rate]) *)

Definition adjust_error_rate (self : NetworkSimulator) : result NetworkSimulator :=
  if Z.of_nat (length (packet_loss self)) >=? adaptive_window self then
    recent_loss_rate <-
      int_truediv
        (sum_bools (slice_from (- adaptive_window self) (packet_loss self)))
        (adaptive_window self) ;;
    if PrimFloat.ltb 0.3 recent_loss_rate then
      Ok (set_error_rate self
            (py_max (min_error_rate self) (error_rate self * 0.8)%float))
    else if PrimFloat.ltb recent_loss_rate 0.1 then
      Ok (set_error_rate self
            (py_min (max_error_rate self) (error_rate self * 1.2)%float))
    else Ok self
  else Ok self.

(** The controller as the specification words it: a pure function of the
    loss history and the current rate, with the loss fraction of the last
    [window_size] entries an exact rational compared with [3/10] and
    [1/10]. *)

Module Spec.

Definition window_size : nat := 10.

Definition last_entries (n : nat) (h : list bool) : list bool :=
  rev (firstn n (rev h)).

Definition recent_loss_rate (h : list bool) : Q :=
  Z.of_nat (count_occ bool_dec (last_entries window_size h) true)
    # Pos.of_nat window_size.

Definition adjust (loss_history : list bool) (current_rate : float) : float :=
  if (length loss_history <? window_size)%nat then current_rate
  else if Qlt_le_dec (3 # 10) (recent_loss_rate loss_history) then
    py_max 0.05%float (current_rate * 0.8)%float
  else if Qlt_le_dec (recent_loss_rate loss_history) (1 # 10) then
    py_min 0.5%float (current_rate * 1.2)%float
  else current_rate.

End Spec.

(** ** Text and bytes

    A Python [str] is a list of code points and a [bytes] object a list of
    byte values.  [codes] spells an ASCII literal. *)

Definition text : Type := list Z.
Definition bytes : Type := list Z.

Definition codes (s : String.string) : text :=
  map (fun a => Z.of_N (Ascii.N_of_ascii a)) (String.list_ascii_of_string s).

Arguments codes s%_string.

(** An ASCII literal between double quotes. *)
Definition quoted (s : String.string) : text := 34 :: codes s ++ [34].

Arguments quoted s%_string.

Fixpoint text_eqb (a b : text) : bool :=
  match a, b with
  | [], [] => true
  | x :: a', y :: b' => (x =? y) && text_eqb a' b'
  | _, _ => false
  end.

Fixpoint strip_prefix (p s : text) : option text :=
  match p, s with
  | [], _ => Some s
  | x :: p', y :: s' => if x =? y then strip_prefix p' s' else None
  | _ :: _, [] => None
  end.

(** ** UTF-8 ([str.encode()] and [bytes.decode()], both strict) *)

Module Utf8.

Definition is_surrogate (c : Z) : bool := (0xD800 <=? c) && (c <=? 0xDFFF).

Definition is_cont (b : Z) : bool := (0x80 <=? b) && (b <=? 0xBF).

Definition cont (c : Z) (k : Z) : Z :=
  Z.lor 0x80 (Z.land (Z.shiftr c k) 0x3F).

Definition encode_char (c : Z) : result bytes :=
  if (c <? 0) || (0x10FFFF <? c) then Raise ValueError
  else if c <? 0x80 then Ok [c]
  else if c <? 0x800 then Ok [Z.lor 0xC0 (Z.shiftr c 6); cont c 0]
  else if is_surrogate c then Raise UnicodeEncodeError
  else if c <? 0x10000 then
    Ok [Z.lor 0xE0 (Z.shiftr c 12); cont c 6; cont c 0]
  else Ok [Z.lor 0xF0 (Z.shiftr c 18); cont c 12; cont c 6; cont c 0].

Fixpoint encode (s : text) : result bytes :=
  match s with
  | [] => Ok []
  | c :: s' =>
      b <- encode_char c ;;
      r <- encode s' ;;
      Ok (b ++ r)
  end.

Definition payload (b : Z) : Z := Z.land b 0x3F.

Definition push (c : Z) (r : result text) : result text :=
  s <- r ;; Ok (c :: s).

Fixpoint decode (b : bytes) : result text :=
  match b with
  | [] => Ok []
  | b0 :: r0 =>
      if (0 <=? b0) && (b0 <? 0x80) then push b0 (decode r0)
      else if (0xC2 <=? b0) && (b0 <=? 0xDF) then
        match r0 with
        | b1 :: r1 =>
            if is_cont b1 then
              push (Z.lor (Z.shiftl (Z.land b0 0x1F) 6) (payload b1)) (decode r1)
            else Raise UnicodeDecodeError
        | _ => Raise UnicodeDecodeError
        end
      else if (0xE0 <=? b0) && (b0 <=? 0xEF) then
        match r0 with
        | b1 :: b2 :: r2 =>
            let c := Z.lor (Z.shiftl (Z.land b0 0x0F) 12)
                       (Z.lor (Z.shiftl (payload b1) 6) (payload b2)) in
            if is_cont b1 && is_cont b2 && (0x800 <=? c) && negb (is_surrogate c)
            then push c (decode r2)
            else Raise UnicodeDecodeError
        | _ => Raise UnicodeDecodeError
        end
      else if (0xF0 <=? b0) && (b0 <=? 0xF4) then
        match r0 with
        | b1 :: b2 :: b3 :: r3 =>
            let c := Z.lor (Z.shiftl (Z.land b0 0x07) 18)
                       (Z.lor (Z.shiftl (payload b1) 12)
                          (Z.lor (Z.shiftl (payload b2) 6) (payload b3))) in
            if is_cont b1 && is_cont b2 && is_cont b3
               && (0x10000 <=? c) && (c <=? 0x10FFFF)
            then push c (decode r3)
            else Raise UnicodeDecodeError
        | _ => Raise UnicodeDecodeError
        end
      else Raise UnicodeDecodeError
  end.

End Utf8.

(** ** Python objects

    [pyval] are the objects a caller hands to [Packet]: [None], bools, ints,
    strings, bytes, lists, tuples and dicts with string keys (in insertion
    order).  Floats are left out of the payloads because [repr] of a float
    is not modelled.  [jsonval] are the objects [json.loads] builds. *)

Inductive pyval : Type :=
| PNone
| PBool (b : bool)
| PInt (z : Z)
| PStr (s : text)
| PBytes (b : bytes)
| PList (l : list pyval)
| PTuple (l : list pyval)
| PDict (d : list (text * pyval)).

Inductive jsonval : Type :=
| JNone
| JBool (b : bool)
| JInt (z : Z)
| JFloat (f : float)
| JStr (s : text)
| JList (l : list jsonval)
| JDict (d : list (text * jsonval)).

(** ** The [json] module, with the default settings of [dumps] and [loads] *)

Module Json.

(** *** [json.dumps]: [ensure_ascii=True], separators [", "] and [": "] *)

Definition hex_digit (n : Z) : Z := if n <? 10 then 48 + n else 87 + n.

(** ['\\u{0:04x}'.format(n)] *)
Definition u_escape (n : Z) : text :=
  [92; 117; hex_digit (Z.land (Z.shiftr n 12) 15);
   hex_digit (Z.land (Z.shiftr n 8) 15);
   hex_digit (Z.land (Z.shiftr n 4) 15);
   hex_digit (Z.land n 15)].

Definition escape_char (c : Z) : text :=
  if c =? 34 then [92; 34]
  else if c =? 92 then [92; 92]
  else if c =? 10 then [92; 110]
  else if c =? 13 then [92; 114]
  else if c =? 9 then [92; 116]
  else if c =? 8 then [92; 98]
  else if c =? 12 then [92; 102]
  else if (32 <=? c) && (c <=? 126) then [c]
  else if c <? 0x10000 then u_escape c
  else
    let n := c - 0x10000 in
    u_escape (Z.lor 0xd800 (Z.land (Z.shiftr n 10) 0x3ff))
      ++ u_escape (Z.lor 0xdc00 (Z.land n 0x3ff)).

Definition encode_basestring_ascii (s : text) : text :=
  34 :: flat_map escape_char s ++ [34].

Fixpoint uint_chars (u : Decimal.uint) : text :=
  match u with
  | Decimal.Nil => []
  | Decimal.D0 u => 48 :: uint_chars u
  | Decimal.D1 u => 49 :: uint_chars u
  | Decimal.D2 u => 50 :: uint_chars u
  | Decimal.D3 u => 51 :: uint_chars u
  | Decimal.D4 u => 52 :: uint_chars u
  | Decimal.D5 u => 53 :: uint_chars u
  | Decimal.D6 u => 54 :: uint_chars u
  | Decimal.D7 u => 55 :: uint_chars u
  | Decimal.D8 u => 56 :: uint_chars u
  | Decimal.D9 u => 57 :: uint_chars u
  end.

(** [int.__repr__] *)
Definition int_repr (z : Z) : text :=
  match Z.to_int z with
  | Decimal.Pos u => uint_chars u
  | Decimal.Neg u => 45 :: uint_chars u
  end.

Definition int_digits (z : Z) : text :=
  match Z.to_int z with
  | Decimal.Pos u | Decimal.Neg u => uint_chars u
  end.

(** The default of [sys.get_int_max_str_digits()]: a conversion between
    [int] and [str] of more digits raises [ValueError]. *)
Definition max_str_digits : Z := 4300.

Definition int_str (z : Z) : result text :=
  if max_str_digits <? Z.of_nat (length (int_digits z)) then Raise ValueError
  else Ok (int_repr z).

Definition join_item (more : bool) (a b : text) : text :=
  if more then a ++ [44; 32] ++ b else a.

Definition nonempty {A : Type} (l : list A) : bool :=
  match l with [] => false | _ => true end.

Fixpoint dumps (o : pyval) : result text :=
  match o with
  | PNone => Ok (codes "null")
  | PBool true => Ok (codes "true")
  | PBool false => Ok (codes "false")
  | PInt z => int_str z
  | PStr s => Ok (encode_basestring_ascii s)
  | PBytes _ => Raise TypeError
  | PList l | PTuple l =>
      body <- (fix items (l : list pyval) : result text :=
                 match l with
                 | [] => Ok []
                 | x :: l' =>
                     a <- dumps x ;;
                     b <- items l' ;;
                     Ok (join_item (nonempty l') a b)
                 end) l ;;
      Ok (91 :: body ++ [93])
  | PDict d =>
      body <- (fix items (d : list (text * pyval)) : result text :=
                 match d with
                 | [] => Ok []
                 | (k, v) :: d' =>
                     a <- dumps v ;;
                     b <- items d' ;;
                     Ok (join_item (nonempty d')
                           (encode_basestring_ascii k ++ [58; 32] ++ a) b)
                 end) d ;;
      Ok (123 :: body ++ [125])
  end.

(** *** [json.loads] (the scanner of [json.decoder] and [json.scanner]) *)

Definition is_ws (c : Z) : bool :=
  (c =? 32) || (c =? 9) || (c =? 10) || (c =? 13).

Fixpoint skip_ws (s : text) : text :=
  match s with
  | c :: s' => if is_ws c then skip_ws s' else s
  | [] => []
  end.

Definition hex_value (c : Z) : option Z :=
  if (48 <=? c) && (c <=? 57) then Some (c - 48)
  else if (97 <=? c) && (c <=? 102) then Some (c - 87)
  else if (65 <=? c) && (c <=? 70) then Some (c - 55)
  else None.

Definition hex4 (a b c d : Z) : option Z :=
  match hex_value a, hex_value b, hex_value c, hex_value d with
  | Some x3, Some x2, Some x1, Some x0 =>
      Some (Z.lor (Z.shiftl x3 12) (Z.lor (Z.shiftl x2 8) (Z.lor (Z.shiftl x1 4) x0)))
  | _, _, _, _ => None
  end.

Definition is_high (c : Z) : bool := (0xd800 <=? c) && (c <=? 0xdbff).
Definition is_low (c : Z) : bool := (0xdc00 <=? c) && (c <=? 0xdfff).

Definition join_surrogates (uni uni2 : Z) : Z :=
  0x10000 + Z.lor (Z.shiftl (uni - 0xd800) 10) (uni2 - 0xdc00).

Definition simple_escape (c : Z) : option Z :=
  if c =? 34 then Some 34
  else if c =? 92 then Some 92
  else if c =? 47 then Some 47
  else if c =? 98 then Some 8
  else if c =? 102 then Some 12
  else if c =? 110 then Some 10
  else if c =? 114 then Some 13
  else if c =? 116 then Some 9
  else None.

Definition push (c : Z) (r : result (text * text)) : result (text * text) :=
  '(cs, rest) <- r ;; Ok (c :: cs, rest).

(** [scanstring] in strict mode, called just after the opening quote:
    the characters of the string and the input after the closing quote. *)
Fixpoint scanstring (s : text) : result (text * text) :=
  match s with
  | [] => Raise JSONDecodeError
  | c :: s' =>
      if c =? 34 then Ok ([], s')
      else if c =? 92 then
        match s' with
        | [] => Raise JSONDecodeError
        | esc :: s'' =>
            if esc =? 117 then
              match s'' with
              | h1 :: h2 :: h3 :: h4 :: r =>
                  match hex4 h1 h2 h3 h4 with
                  | None => Raise JSONDecodeError
                  | Some uni =>
                      if is_high uni then
                        match r with
                        | b :: u :: g1 :: g2 :: g3 :: g4 :: r2 =>
                            if (b =? 92) && (u =? 117) then
                              match hex4 g1 g2 g3 g4 with
                              | None => Raise JSONDecodeError
                              | Some uni2 =>
                                  if is_low uni2
                                  then push (join_surrogates uni uni2) (scanstring r2)
                                  else push uni (scanstring r)
                              end
                            else push uni (scanstring r)
                        | _ => push uni (scanstring r)
                        end
                      else push uni (scanstring r)
                  end
              | _ => Raise JSONDecodeError
              end
            else
              match simple_escape esc with
              | Some ch => push ch (scanstring s'')
              | None => Raise JSONDecodeError
              end
        end
      else if (0 <=? c) && (c <? 32) then Raise JSONDecodeError
      else push c (scanstring s')
  end.

(** *** Numbers ([NUMBER_RE])

    An optional minus sign, then either a single zero or a non-zero digit
    followed by digits; then, optionally, a dot and at least one digit;
    then, optionally, [e] or [E], an optional sign and at least one
    digit.  Each optional group is taken whenever it matches. *)

Definition is_digit (c : Z) : bool := (48 <=? c) && (c <=? 57).

Fixpoint span_digits (s : text) : text * text :=
  match s with
  | c :: s' =>
      if is_digit c then let (d, r) := span_digits s' in (c :: d, r)
      else ([], s)
  | [] => ([], [])
  end.

Record number_match : Type := mkNumber {
  nm_neg : bool;
  nm_int : text;
  nm_frac : option text;
  nm_exp : option (bool * text);
  nm_rest : text
}.

Definition match_frac (s : text) : option text * text :=
  match s with
  | c :: t =>
      if c =? 46 then
        match span_digits t with
        | ([], _) => (None, s)
        | (ds, r) => (Some ds, r)
        end
      else (None, s)
  | [] => (None, s)
  end.

Definition match_exp (s : text) : option (bool * text) * text :=
  match s with
  | c :: t =>
      if (c =? 101) || (c =? 69) then
        let (neg, t') :=
          match t with
          | c2 :: t2 =>
              if c2 =? 45 then (true, t2)
              else if c2 =? 43 then (false, t2)
              else (false, t)
          | [] => (false, t)
          end in
        match span_digits t' with
        | ([], _) => (None, s)
        | (ds, r) => (Some (neg, ds), r)
        end
      else (None, s)
  | [] => (None, s)
  end.

Definition match_tail (neg : bool) (int : text) (s : text) : number_match :=
  let (frac, s1) := match_frac s in
  let (exp, s2) := match_exp s1 in
  mkNumber neg int frac exp s2.

Definition match_number (s : text) : option number_match :=
  let (neg, s1) :=
    match s with
    | c :: s' => if c =? 45 then (true, s') else (false, s)
    | [] => (false, s)
    end in
  match s1 with
  | [] => None
  | c :: s2 =>
      if c =? 48 then Some (match_tail neg [48] s2)
      else if is_digit c then
        let (ds, s3) := span_digits s2 in
        Some (match_tail neg (c :: ds) s3)
      else None
  end.

Fixpoint uint_of_chars (ds : text) : Decimal.uint :=
  match ds with
  | [] => Decimal.Nil
  | c :: ds' =>
      let u := uint_of_chars ds' in
      if c =? 48 then Decimal.D0 u
      else if c =? 49 then Decimal.D1 u
      else if c =? 50 then Decimal.D2 u
      else if c =? 51 then Decimal.D3 u
      else if c =? 52 then Decimal.D4 u
      else if c =? 53 then Decimal.D5 u
      else if c =? 54 then Decimal.D6 u
      else if c =? 55 then Decimal.D7 u
      else if c =? 56 then Decimal.D8 u
      else Decimal.D9 u
  end.

Definition digits_value (ds : text) : Z := Z.of_uint (uint_of_chars ds).

Definition signed (neg : bool) (z : Z) : Z := if neg then - z else z.

(** [int(integer)] *)
Definition parse_int (neg : bool) (ds : text) : result Z :=
  if max_str_digits <? Z.of_nat (length ds) then Raise ValueError
  else Ok (signed neg (digits_value ds)).

(** [float(integer + frac + exp)]: the binary64 number nearest to the
    decimal [m * 10^e], ties to even. *)
Definition parse_float (neg : bool) (int frac : text)
    (exp : option (bool * text)) : float :=
  let m := digits_value (int ++ frac) in
  let x := match exp with
           | Some (eneg, ds) => signed eneg (digits_value ds)
           | None => 0
           end in
  let e := x - Z.of_nat (length frac) in
  let sm := if neg then - m else m in
  SF2Prim
    (if m =? 0 then S754_zero neg
     else if 0 <=? e then binary_normalize prec emax (sm * 10 ^ e) 0 false
     else SFdiv prec emax (raw_of_Z sm) (raw_of_Z (10 ^ (- e)))).

Definition number_value (n : number_match) : result jsonval :=
  match nm_frac n, nm_exp n with
  | None, None =>
      z <- parse_int (nm_neg n) (nm_int n) ;; Ok (JInt z)
  | frac, exp =>
      Ok (JFloat (parse_float (nm_neg n) (nm_int n)
                    (match frac with Some ds => ds | None => [] end) exp))
  end.

(** [dict(pairs)]: a repeated key keeps its first position and takes the
    last value. *)
Fixpoint dict_set {V : Type} (d : list (text * V)) (k : text) (v : V)
    : list (text * V) :=
  match d with
  | [] => [(k, v)]
  | (k', v') :: d' =>
      if text_eqb k' k then (k', v) :: d' else (k', v') :: dict_set d' k v
  end.

Definition py_dict {V : Type} (pairs : list (text * V)) : list (text * V) :=
  fold_left (fun d kv => dict_set d (fst kv) (snd kv)) pairs [].

Definition literal (s : text) : option (jsonval * text) :=
  match strip_prefix (codes "null") s with
  | Some r => Some (JNone, r)
  | None =>
  match strip_prefix (codes "true") s with
  | Some r => Some (JBool true, r)
  | None =>
  match strip_prefix (codes "false") s with
  | Some r => Some (JBool false, r)
  | None => None
  end end end.

Definition constant (s : text) : option (jsonval * text) :=
  match strip_prefix (codes "NaN") s with
  | Some r => Some (JFloat PrimFloat.nan, r)
  | None =>
  match strip_prefix (codes "Infinity") s with
  | Some r => Some (JFloat PrimFloat.infinity, r)
  | None =>
  match strip_prefix (codes "-Infinity") s with
  | Some r => Some (JFloat PrimFloat.neg_infinity, r)
  | None => None
  end end end.

(** [scan_once], [JSONObject] and [JSONArray].  The recursion is on a
    bound [fuel] on the calls still to be made; [loads] starts it with a
    bound that the length of the input never exhausts
    ([loads_within_bound]).  The recursion limit of the interpreter is
    not modelled. *)
Fixpoint scan_once (fuel : nat) (s : text) {struct fuel}
    : result (jsonval * text) :=
  match fuel with
  | O => Raise RecursionError
  | S fuel =>
      match s with
      | [] => Raise JSONDecodeError
      | c :: s' =>
          if c =? 34 then
            '(str, r) <- scanstring s' ;; Ok (JStr str, r)
          else if c =? 123 then
            match skip_ws s' with
            | q :: r =>
                if q =? 125 then Ok (JDict [], r)
                else if q =? 34 then
                  '(pairs, r') <- object_pairs fuel r ;;
                  Ok (JDict (py_dict pairs), r')
                else Raise JSONDecodeError
            | [] => Raise JSONDecodeError
            end
          else if c =? 91 then
            match skip_ws s' with
            | q :: r =>
                if q =? 93 then Ok (JList [], r)
                else
                  '(values, r') <- array_values fuel (q :: r) ;;
                  Ok (JList values, r')
            | [] => Raise JSONDecodeError
            end
          else
            match literal s with
            | Some vr => Ok vr
            | None =>
            match match_number s with
            | Some n => v <- number_value n ;; Ok (v, nm_rest n)
            | None =>
            match constant s with
            | Some vr => Ok vr
            | None => Raise JSONDecodeError
            end end end
      end
  end

(** The loop of [JSONObject], entered just after the opening quote of a
    key. *)
with object_pairs (fuel : nat) (s : text) {struct fuel}
    : result (list (text * jsonval) * text) :=
  match fuel with
  | O => Raise RecursionError
  | S fuel =>
      '(key, s1) <- scanstring s ;;
      match skip_ws s1 with
      | c :: s2 =>
          if c =? 58 then
            '(value, s3) <- scan_once fuel (skip_ws s2) ;;
            match skip_ws s3 with
            | d :: s4 =>
                if d =? 125 then Ok ([(key, value)], s4)
                else if d =? 44 then
                  match skip_ws s4 with
                  | q :: s5 =>
                      if q =? 34 then
                        '(pairs, r) <- object_pairs fuel s5 ;;
                        Ok ((key, value) :: pairs, r)
                      else Raise JSONDecodeError
                  | [] => Raise JSONDecodeError
                  end
                else Raise JSONDecodeError
            | [] => Raise JSONDecodeError
            end
          else Raise JSONDecodeError
      | [] => Raise JSONDecodeError
      end
  end

(** The loop of [JSONArray], entered at the first character of a value. *)
with array_values (fuel : nat) (s : text) {struct fuel}
    : result (list jsonval * text) :=
  match fuel with
  | O => Raise RecursionError
  | S fuel =>
      '(value, s1) <- scan_once fuel s ;;
      match skip_ws s1 with
      | d :: s2 =>
          if d =? 93 then Ok ([value], s2)
          else if d =? 44 then
            '(values, r) <- array_values fuel (skip_ws s2) ;;
            Ok (value :: values, r)
          else Raise JSONDecodeError
      | [] => Raise JSONDecodeError
      end
  end.

Definition loads_fuel (s : text) : nat := 2 * length s + 2.

(** [json.loads(s)] for a [str]: no byte order mark, one value between
    optional white space, and nothing after it. *)
Definition loads (s : text) : result jsonval :=
  match s with
  | 0xfeff :: _ => Raise JSONDecodeError
  | _ =>
      '(obj, r) <- scan_once (loads_fuel s) (skip_ws s) ;;
      match skip_ws r with
      | [] => Ok obj
      | _ :: _ => Raise JSONDecodeError
      end
  end.

End Json.

(** ** The packet codec ([packet.py]) *)

Module Packet.

Record t : Type := Packet { data : pyval }.

(** [json.dumps({"data": self.data}).encode()] *)
Definition encode (self : t) : result bytes :=
  s <- Json.dumps (PDict [(codes "data", data self)]) ;;
  Utf8.encode s.

Fixpoint dict_get (d : list (text * jsonval)) (k : text) : option jsonval :=
  match d with
  | [] => None
  | (k', v) :: d' => if text_eqb k' k then Some v else dict_get d' k
  end.

(** [o[key]] for a string [key]: only a dict can be indexed by a string. *)
Definition getitem (o : jsonval) (key : text) : result jsonval :=
  match o with
  | JDict d =>
      match dict_get d key with
      | Some v => Ok v
      | None => Raise KeyError
      end
  | _ => Raise TypeError
  end.

(** The body of the [try] block of [decode]. *)
Definition decode_try (encoded_data : bytes) : result jsonval :=
  s <- Utf8.decode encoded_data ;;
  data <- Json.loads s ;;
  getitem data (codes "data").

(** [except Exception: return None] *)
Definition decode (encoded_data : bytes) : result jsonval :=
  match decode_try encoded_data with
  | Ok v => Ok v
  | Raise _ => Ok JNone
  end.

End Packet.

(** ** The simulator ([simulation.py]) *)

(** The scheduler's clock.  A process runs from one [yield] to the next
    without the scheduler stepping in, so every read of [env.now] made
    after the only [yield] of [transmit] sees the same environment. *)
Record Environment : Type := { now : float }.

(** The values that the calls to [random] return during one attempt:
    [random.random()], [random.randint(0, len(data) - 1)] and
    [random.randint(1, 255)]. *)
Record Draws : Type := {
  random_random : float;
  randint_pos : Z;
  randint_mask : Z
}.

Definition is_none (v : jsonval) : bool :=
  match v with JNone => true | _ => false end.

(** [corrupted = bytearray(data); corrupted[pos] ^= x; bytes(corrupted)] *)
Definition xor_at (data : bytes) (pos x : Z) : result bytes :=
  let n := Z.of_nat (length data) in
  let i := if pos <? 0 then pos + n else pos in
  if (i <? 0) || (n <=? i) then Raise IndexError
  else
    let v := Z.lxor (nth (Z.to_nat i) data 0) x in
    if (v <? 0) || (255 <? v) then Raise ValueError
    else Ok (firstn (Z.to_nat i) data ++ v :: skipn (S (Z.to_nat i)) data).

Definition corrupt_data (self : NetworkSimulator) (rnd : Draws) (data : bytes)
    : bytes :=
  match data with
  | [] => data
  | _ :: _ =>
      if PrimFloat.ltb (random_random rnd) (error_rate self) then
        match xor_at data (randint_pos rnd) (randint_mask rnd) with
        | Ok corrupted => corrupted
        | Raise _ => data
        end
      else data
  end.

(** The dict that [get_statistics] returns: the error notice, or the five
    statistics. *)
Inductive statistics : Type :=
| NoData
| Stats (total successful : Z) (average_latency loss_rate current_error_rate : float).

Definition get_statistics (self : NetworkSimulator) : result statistics :=
  match latency_data self with
  | [] => Ok NoData
  | _ :: _ =>
      n <- float_of_Z (Z.of_nat (length (latency_data self))) ;;
      loss_rate <- int_truediv (sum_bools (packet_loss self))
                     (Z.of_nat (length (packet_loss self))) ;;
      Ok (Stats (total_transmissions self) (successful_transmissions self)
            (sum_floats (latency_data self) / n)%float loss_rate
            (error_rate self))
  end.

(** [save_statistics] takes the snapshot and writes it to two files.  The
    files are outside the model; [disk_ok] says whether opening and writing
    them succeeds. *)
Definition save_statistics (self : NetworkSimulator) (disk_ok : bool)
    : result unit :=
  stats <- get_statistics self ;;
  if disk_ok then Ok tt else Raise OSError.

(** The [except] clause of [transmit]. *)
Definition record_failure (self : NetworkSimulator) : NetworkSimulator :=
  mkSim (error_rate self) (latency_data self) (packet_loss self ++ [true])
        (successful_transmissions self) (total_transmissions self + 1)
        (adaptive_window self) (min_error_rate self) (max_error_rate self).

(** The statements of [transmit] from the append to [latency_data] to the
    update of the two counters. *)
Definition record_outcome (self : NetworkSimulator) (latency : float)
    (decoded_data : jsonval) : NetworkSimulator :=
  mkSim (error_rate self) (latency_data self ++ [latency])
        (packet_loss self ++ [is_none decoded_data])
        (if is_none decoded_data then successful_transmissions self
         else successful_transmissions self + 1)
        (total_transmissions self + 1)
        (adaptive_window self) (min_error_rate self) (max_error_rate self).

(** [transmit], from the point where the scheduler resumes it after the
    delay.  An exception raised in the [try] block is handled on the state
    as it is at that point. *)
Definition transmit (self : NetworkSimulator) (env : Environment)
    (rnd : Draws) (disk_ok : bool) (packet : Packet.t) : NetworkSimulator :=
  let start_time := now env in
  match Packet.encode packet with
  | Raise _ => record_failure self
  | Ok encoded_data =>
      match encoded_data with
      | [] => record_failure self
      | _ :: _ =>
          let corrupted_data := corrupt_data self rnd encoded_data in
          match Packet.decode corrupted_data with
          | Raise _ => record_failure self
          | Ok decoded_data =>
              let latency := (now env - start_time)%float in
              let recorded := record_outcome self latency decoded_data in
              match adjust_error_rate recorded with
              | Raise _ => record_failure recorded
              | Ok adjusted =>
                  match save_statistics adjusted disk_ok with
                  | Raise _ => record_failure adjusted
                  | Ok _ => adjusted
                  end
              end
          end
      end
  end.

(** ** Runs of the simulator *)

(** What one attempt meets when the scheduler resumes it. *)
Record Attempt : Type := {
  at_env : Environment;
  at_draws : Draws;
  at_disk_ok : bool;
  at_packet : Packet.t
}.

Definition attempt (self : NetworkSimulator) (a : Attempt) : NetworkSimulator :=
  transmit self (at_env a) (at_draws a) (at_disk_ok a) (at_packet a).

(** The attempts in the order in which the scheduler resumes them. *)
Definition run (self : NetworkSimulator) (l : list Attempt) : NetworkSimulator :=
  fold_left attempt l self.

(** One outcome recorded and the controller called, as [transmit] does. *)
Definition observe (self : NetworkSimulator) (lost : bool)
    : result NetworkSimulator :=
  adjust_error_rate
    (record_outcome self PrimFloat.zero (if lost then JNone else JStr [])).

Fixpoint observe_all (self : NetworkSimulator) (outcomes : list bool)
    : result NetworkSimulator :=
  match outcomes with
  | [] => Ok self
  | lost :: rest => s <- observe self lost ;; observe_all s rest
  end.

(** The steps that change the controller's inputs or its rate. *)
Inductive step : NetworkSimulator -> NetworkSimulator -> Prop :=
| step_record s latency decoded : step s (record_outcome s latency decoded)
| step_failure s : step s (record_failure s)
| step_adjust s s' : adjust_error_rate s = Ok s' -> step s s'.

Inductive reachable (s : NetworkSimulator) : NetworkSimulator -> Prop :=
| reach_refl : reachable s s
| reach_step s1 s2 : reachable s s1 -> step s1 s2 -> reachable s s2.

Definition in_bounds (s : NetworkSimulator) : Prop :=
  PrimFloat.leb (min_error_rate s) (error_rate s) = true /\
  PrimFloat.leb (error_rate s) (max_error_rate s) = true.

(** ** The window-fill scenario, decided by enumeration *)

(** All lists of [n] bools. *)
Fixpoint outcomes_of_length (n : nat) : list (list bool) :=
  match n with
  | O => [[]]
  | S n' =>
      map (cons true) (outcomes_of_length n')
        ++ map (cons false) (outcomes_of_length n')
  end.

Definition rate_is (s : result NetworkSimulator) (r : float) : bool :=
  match s with
  | Ok s => PrimFloat.Leibniz.eqb (error_rate s) r
  | Raise _ => false
  end.

Definition then_quiet (s : result NetworkSimulator) : result NetworkSimulator :=
  s1 <- s ;; observe_all s1 (repeat false 10).

Definition ends_framed (l : list bool) : bool :=
  nth 0 l false && nth 9 l false.

(** The scenario, decided for one placement of the losses. *)
Definition scenario_check (first : list bool) : bool :=
  negb (count_occ bool_dec first true =? 4)%nat
  || (let s1 := observe_all (__init__ 0.5) first in
      rate_is s1 0.4
      && match then_quiet s1 with
         | Ok s2 =>
             Bool.eqb (PrimFloat.Leibniz.eqb (error_rate s2) 0.48)
                      (ends_framed first)
         | Raise _ => false
         end).

(** ** Equality of Python objects

    [py_eq j p] is Python's [j == p] for a decoded object [j] and a payload
    [p]: numbers (bools, ints, floats) compare by value, strings by their
    code points, lists element by element, dicts key by key; objects of
    different kinds (a list and a tuple, a string and a bytes object) are
    unequal. *)

Definition float_eq_Z (f : float) (z : Z) : bool :=
  match Prim2SF f with
  | S754_zero _ => z =? 0
  | S754_finite s m e =>
      let v := if s then Zneg m else Zpos m in
      if 0 <=? e then v * 2 ^ e =? z else v =? z * 2 ^ (- e)
  | _ => false
  end.

Fixpoint pdict_get (d : list (text * pyval)) (k : text) : option pyval :=
  match d with
  | [] => None
  | (k', v) :: d' => if text_eqb k' k then Some v else pdict_get d' k
  end.

Fixpoint py_eq (j : jsonval) (p : pyval) {struct j} : bool :=
  match j, p with
  | JNone, PNone => true
  | JBool a, PBool b => Bool.eqb a b
  | JBool a, PInt z => Z.b2z a =? z
  | JInt z, PBool b => z =? Z.b2z b
  | JInt a, PInt b => a =? b
  | JFloat f, PBool b => float_eq_Z f (Z.b2z b)
  | JFloat f, PInt z => float_eq_Z f z
  | JStr a, PStr b => text_eqb a b
  | JList a, PList b =>
      (fix all2 (a : list jsonval) (b : list pyval) {struct a} : bool :=
         match a, b with
         | [], [] => true
         | x :: a', y :: b' => py_eq x y && all2 a' b'
         | _, _ => false
         end) a b
  | JDict a, PDict b =>
      (length a =? length b)%nat
      && (fix all_in (a : list (text * jsonval)) {struct a} : bool :=
            match a with
            | [] => true
            | (k, v) :: a' =>
                match pdict_get b k with
                | Some w => py_eq v w && all_in a'
                | None => false
                end
            end) a
  | _, _ => false
  end.

(** ** Byte strings that differ in one place *)

Definition is_bytes (data : bytes) : Prop :=
  Forall (fun b => 0 <= b < 256) data.

Definition differs_in_one_byte (a b : bytes) : Prop :=
  length a = length b /\
  exists i : nat,
    (i < length a)%nat /\
    nth i a 0 <> nth i b 0 /\
    forall j : nat, j <> i -> nth j a 0 = nth j b 0.

(** What [transmit] does once the packet is encoded and the corrupted
    bytes are decoded. *)
Definition after_decode (self : NetworkSimulator) (env : Environment)
    (disk_ok : bool) (decoded : jsonval) : NetworkSimulator :=
  let recorded := record_outcome self (now env - now env)%float decoded in
  match adjust_error_rate recorded with
  | Raise _ => record_failure recorded
  | Ok adjusted =>
      match save_statistics adjusted disk_ok with
      | Raise _ => record_failure adjusted
      | Ok _ => adjusted
      end
  end.

(** The bookkeeping that every run keeps. *)
Definition counted (s : NetworkSimulator) : Prop :=
  Z.of_nat (length (packet_loss s)) = total_transmissions s /\
  (length (latency_data s) <= length (packet_loss s))%nat.

(** ** The constants of the controller as binary numbers

    The mantissas of [0.05], [0.8] and [1.2]: [0.05 = m005 * 2^-57],
    [0.8 = m08 * 2^-53] and [1.2 = m12 * 2^-52]. *)

Definition m005 : positive := 7205759403792794.
Definition m08 : positive := 7205759403792794.
Definition m12 : positive := 5404319552844595.

(** The invariants of the controller and of the latency history. *)
Definition bounded_state (s : NetworkSimulator) : Prop :=
  min_error_rate s = 0.05%float /\ max_error_rate s = 0.5%float /\ in_bounds s.

Definition zero_latencies (s : NetworkSimulator) : Prop :=
  Forall (fun x => x = 0%float) (latency_data s).

(** ** Payloads that survive the codec

    [to_json p] is the object that the text of [p] is read back as: a
    tuple comes back as a list.  [json_native p] holds of the payloads
    built from [None], bools, ints, strings, lists and dicts whose ints
    have at most [max_str_digits] decimal digits (the conversion of a
    longer one to or from text raises), whose strings are sequences of
    code points in which no high surrogate is directly followed by a low
    surrogate (the scanner reads such a pair of escapes as one character)
    and whose dicts, as in Python, have distinct keys. *)

Fixpoint to_json (p : pyval) : jsonval :=
  match p with
  | PNone => JNone
  | PBool b => JBool b
  | PInt z => JInt z
  | PStr s => JStr s
  | PBytes _ => JNone
  | PList l | PTuple l => JList (map to_json l)
  | PDict d => JDict (map (fun kv => (fst kv, to_json (snd kv))) d)
  end.

Fixpoint plain_text (s : text) : bool :=
  match s with
  | [] => true
  | c :: s' =>
      (0 <=? c) && (c <=? 0x10FFFF)
      && negb (Json.is_high c
               && match s' with c2 :: _ => Json.is_low c2 | [] => false end)
      && plain_text s'
  end.

Fixpoint distinct_keys {V : Type} (d : list (text * V)) : bool :=
  match d with
  | [] => true
  | (k, _) :: d' =>
      negb (existsb (fun kv => text_eqb (fst kv) k) d') && distinct_keys d'
  end.

Fixpoint json_native (p : pyval) : bool :=
  match p with
  | PNone | PBool _ => true
  | PInt z => Z.of_nat (length (Json.int_digits z)) <=? Json.max_str_digits
  | PStr s => plain_text s
  | PBytes _ | PTuple _ => false
  | PList l => forallb json_native l
  | PDict d =>
      distinct_keys d
      && forallb (fun kv => plain_text (fst kv) && json_native (snd kv)) d
  end.

(** The number of calls that the scanner makes to read the text of a
    payload back. *)
Fixpoint scan_calls (p : pyval) : nat :=
  match p with
  | PList l | PTuple l =>
      S (fold_right (fun x n => S (scan_calls x + n)) O l)
  | PDict d =>
      S (fold_right (fun kv n => S (scan_calls (snd kv) + n)) O d)
  | _ => 1
  end.

(** The text that [json.dumps] returns for a payload it accepts. *)
Fixpoint join_items (ts : list text) : text :=
  match ts with
  | [] => []
  | a :: r => Json.join_item (Json.nonempty r) a (join_items r)
  end.

Definition pair_text (k : text) (t : text) : text :=
  Json.encode_basestring_ascii k ++ [58; 32] ++ t.

Fixpoint text_of (p : pyval) : text :=
  match p with
  | PNone => codes "null"
  | PBool true => codes "true"
  | PBool false => codes "false"
  | PInt z => Json.int_repr z
  | PStr s => Json.encode_basestring_ascii s
  | PBytes _ => []
  | PList l | PTuple l => 91 :: join_items (map text_of l) ++ [93]
  | PDict d =>
      123 :: join_items (map (fun kv => pair_text (fst kv) (text_of (snd kv))) d)
        ++ [125]
  end.

(** What follows a value in the text of a payload: nothing, a comma or a
    closing bracket or brace. *)
Definition delimited (rest : text) : Prop :=
  match rest with
  | [] => True
  | c :: _ => c = 44 \/ c = 93 \/ c = 125
  end.

(** What follows a character is not the escape of a low surrogate. *)
Definition no_low_escape_ahead (tl : text) : Prop :=
  forall g1 g2 g3 g4 r,
    tl = 92 :: 117 :: g1 :: g2 :: g3 :: g4 :: r ->
    exists n, Json.hex4 g1 g2 g3 g4 = Some n /\ Json.is_low n = false.

(** ** Devices of the round-trip proof *)

Import Json.

(** Induction on payloads, with the hypothesis for every item of a list,
    tuple or dict. *)
Fixpoint pyval_rect' (P : pyval -> Prop)
    (HNone : P PNone) (HBool : forall b, P (PBool b))
    (HInt : forall z, P (PInt z)) (HStr : forall s, P (PStr s))
    (HBytes : forall b, P (PBytes b))
    (HList : forall l, Forall P l -> P (PList l))
    (HTuple : forall l, Forall P l -> P (PTuple l))
    (HDict : forall d, Forall (fun kv => P (snd kv)) d -> P (PDict d))
    (p : pyval) {struct p} : P p :=
  let rec := pyval_rect' P HNone HBool HInt HStr HBytes HList HTuple HDict in
  match p with
  | PNone => HNone
  | PBool b => HBool b
  | PInt z => HInt z
  | PStr s => HStr s
  | PBytes b => HBytes b
  | PList l =>
      HList l ((fix all (l : list pyval) : Forall P l :=
                  match l with
                  | [] => Forall_nil P
                  | x :: l' => Forall_cons x (rec x) (all l')
                  end) l)
  | PTuple l =>
      HTuple l ((fix all (l : list pyval) : Forall P l :=
                   match l with
                   | [] => Forall_nil P
                   | x :: l' => Forall_cons x (rec x) (all l')
                   end) l)
  | PDict d =>
      HDict d ((fix all (d : list (text * pyval))
                  : Forall (fun kv => P (snd kv)) d :=
                  match d with
                  | [] => Forall_nil _
                  | kv :: d' => Forall_cons kv (rec (snd kv)) (all d')
                  end) d)
  end.

Definition is_ascii (t : text) : Prop := Forall (fun c => 0 <= c < 128) t.

(** The text of a native payload opens with a character that is neither
    white space nor a closing bracket or brace. *)
Definition opens_value (t : text) : Prop :=
  exists c t', t = c :: t' /\ is_ws c = false /\ c <> 93 /\ c <> 125.

(** The scanner reads the text of a payload back, whatever follows it. *)
Definition reads_back (p : pyval) : Prop :=
  json_native p = true ->
  forall (fuel : nat) (rest : text),
    (scan_calls p <= fuel)%nat -> delimited rest ->
    scan_once fuel (text_of p ++ rest) = Ok (to_json p, rest).

(** ** Payloads that the codec accepts

    [serializable p]: no [bytes] object occurs in [p] and no int of [p] is
    too long to be written in decimal.  [envelope_of p] is the dict that
    [Packet.encode] serialises, and [listify p] is [p] with every tuple
    replaced by the list of its items. *)

Fixpoint serializable (p : pyval) : bool :=
  match p with
  | PNone | PBool _ | PStr _ => true
  | PInt z => Z.of_nat (length (int_digits z)) <=? max_str_digits
  | PBytes _ => false
  | PList l | PTuple l => forallb serializable l
  | PDict d => forallb (fun kv => serializable (snd kv)) d
  end.

Definition envelope_of (p : pyval) : pyval := PDict [(codes "data", p)].

Fixpoint listify (p : pyval) : pyval :=
  match p with
  | PList l | PTuple l => PList (map listify l)
  | PDict d => PDict (map (fun kv => (fst kv, listify (snd kv))) d)
  | _ => p
  end.

(** ** The bookkeeping of a run

    [balanced s]: the counters agree with the loss history.  [encodable a]:
    the payload of the attempt can be encoded.  [undisturbed a]: nothing
    disturbs the attempt, that is, the draw is one that [random.random()]
    returns, the payload is native once its tuples are lists and is not
    [None], and the statistics files can be written. *)

Definition balanced (s : NetworkSimulator) : Prop :=
  successful_transmissions s + sum_bools (packet_loss s) = total_transmissions s /\
  0 <= successful_transmissions s <= Z.of_nat (length (latency_data s)).

Definition encodable (a : Attempt) : bool :=
  serializable (Packet.data (at_packet a)).


(** ** The test driver ([test.py])

    [stats[key]] on the dict that [get_statistics] returns: the error
    notice has none of the keys of the statistics. *)
Definition stats_total (stats : statistics) : result Z :=
  match stats with
  | Stats total _ _ _ _ => Ok total
  | NoData => Raise KeyError
  end.

Definition stats_loss_rate (stats : statistics) : result float :=
  match stats with
  | Stats _ _ _ loss_rate _ => Ok loss_rate
  | NoData => Raise KeyError
  end.

Definition stats_average_latency (stats : statistics) : result float :=
  match stats with
  | Stats _ _ average_latency _ _ => Ok average_latency
  | NoData => Raise KeyError
  end.

(** [test_basic_transmission]: the three numbers that it prints, before
    they are formatted.  [env] is the environment when the scheduler
    resumes the only process. *)
Definition test_basic_transmission (env : Environment) (rnd : Draws)
    (disk_ok : bool) : result (Z * float * float) :=
  let simulator := __init__ 0.2 in
  let test_data :=
    PDict [(codes "message", PStr (codes "Hello, World!"));
           (codes "test_id", PInt 1)] in
  let packet := Packet.Packet test_data in
  let simulator := transmit simulator env rnd disk_ok packet in
  stats <- get_statistics simulator ;;
  total <- stats_total stats ;;
  loss_rate <- stats_loss_rate stats ;;
  average_latency <- stats_average_latency stats ;;
  Ok (total, (1 - loss_rate)%float, average_latency).

(** ** The figure of [plot_metrics]

    The calls to [matplotlib] are outside the model: [plot_metrics]
    returns the numbers that it hands to them, before they are formatted,
    or nothing when it prints that there is no data to plot. *)
Record figure : Type := {
  fig_latencies : list float;
  fig_avg_latency : float;
  fig_success_rate : float;
  fig_loss_rate : float;
  fig_total : Z
}.

Definition plot_metrics (self : NetworkSimulator) : result (option figure) :=
  match latency_data self with
  | [] => Ok None
  | _ :: _ =>
      n <- float_of_Z (Z.of_nat (length (latency_data self))) ;;
      let avg_latency := (sum_floats (latency_data self) / n)%float in
      loss_rate <- int_truediv (sum_bools (packet_loss self))
                     (Z.of_nat (length (packet_loss self))) ;;
      let success_rate := (1 - loss_rate)%float in
      Ok (Some {| fig_latencies := latency_data self;
                  fig_avg_latency := avg_latency;
                  fig_success_rate := success_rate;
                  fig_loss_rate := loss_rate;
                  fig_total := total_transmissions self |})
  end.

(** ** Characters that are written as they are

    [printable c]: [json.dumps] writes the character [c] of a string as
    itself, without an escape. *)
Definition printable (c : Z) : bool :=
  (32 <=? c) && (c <=? 126) && negb (c =? 34) && negb (c =? 92).

(** * Properties *)

(** ** The controller against its specification *)

Section Controller.

Lemma sum_bools_from (l : list bool) (a : Z) :
  fold_left (fun acc (b : bool) => acc + Z.b2z b) l a
  = a + Z.of_nat (count_occ bool_dec l true).
Proof.
  revert a; induction l as [|b l IH]; intros a; simpl.
  - lia.
  - rewrite IH. destruct (bool_dec b true) as [-> | Hb].
    + cbn [Z.b2z]. lia.
    + destruct b; [contradiction | cbn [Z.b2z]; lia].
Qed.

Lemma sum_bools_count (l : list bool) :
  sum_bools l = Z.of_nat (count_occ bool_dec l true).
Proof. unfold sum_bools. rewrite sum_bools_from. lia. Qed.

Lemma count_occ_le_length (l : list bool) :
  (count_occ bool_dec l true <= length l)%nat.
Proof.
  induction l as [|b l IH]; simpl; [lia|].
  destruct (bool_dec b true); lia.
Qed.

Lemma slice_last (n : nat) (l : list bool) :
  (0 < n <= length l)%nat ->
  slice_from (- Z.of_nat n) l = Spec.last_entries n l.
Proof.
  intros H. unfold slice_from, Spec.last_entries.
  replace (- Z.of_nat n <? 0) with true by (symmetry; apply Z.ltb_lt; lia).
  rewrite firstn_rev, rev_involutive. f_equal. lia.
Qed.

Lemma last_entries_length (n : nat) (l : list bool) :
  (n <= length l)%nat -> length (Spec.last_entries n l) = n.
Proof.
  intros H. unfold Spec.last_entries.
  rewrite length_rev, length_firstn, length_rev. lia.
Qed.

(** The quotient [c / 10], as a float, against the literals [0.3] and
    [0.1]: the comparisons are those of the exact fractions. *)
Lemma tenth_thresholds (c : Z) :
  0 <= c <= 10 ->
  exists f, int_truediv c 10 = Ok f /\
            PrimFloat.ltb 0.3 f = (3 <? c) /\
            PrimFloat.ltb f 0.1 = (c <? 1).
Proof.
  intros H.
  assert (c = 0 \/ c = 1 \/ c = 2 \/ c = 3 \/ c = 4 \/ c = 5 \/ c = 6
          \/ c = 7 \/ c = 8 \/ c = 9 \/ c = 10) as Hc by lia.
  repeat (destruct Hc as [-> | Hc]); try subst c;
    (eexists; split; [vm_compute; reflexivity | split; vm_compute; reflexivity]).
Qed.

End Controller.

(** C1.  For every loss history and every current rate, the controller of
    the code computes the rate of the specification: unchanged below ten
    recorded outcomes; otherwise, with the loss fraction of the last ten
    outcomes, [max(0.05, rate * 0.8)] above [0.3], [min(0.5, rate * 1.2)]
    below [0.1], and unchanged in between, both bounds included.  Nothing
    else in the state changes. *)
Theorem adjust_error_rate_refines_spec :
  forall (rate : float) (latencies : list float) (history : list bool)
         (successes total : Z),
    adjust_error_rate
      (mkSim rate latencies history successes total 10 0.05%float 0.5%float)
    = Ok (mkSim (Spec.adjust history rate) latencies history successes total
            10 0.05%float 0.5%float).
Proof.
  intros rate lat h su tot.
  unfold adjust_error_rate, Spec.adjust; cbn [packet_loss adaptive_window
    error_rate min_error_rate max_error_rate].
  destruct (Nat.ltb_spec (length h) Spec.window_size) as [Hlt | Hge];
    unfold Spec.window_size in *.
  - replace (Z.of_nat (length h) >=? 10) with false
      by (symmetry; rewrite Z.geb_leb; apply Z.leb_gt; lia).
    reflexivity.
  - replace (Z.of_nat (length h) >=? 10) with true
      by (symmetry; rewrite Z.geb_leb; apply Z.leb_le; lia).
    replace (slice_from _ h) with (Spec.last_entries 10 h)
      by (symmetry; apply (slice_last 10 h); lia).
    rewrite sum_bools_count.
    unfold Spec.recent_loss_rate, Spec.window_size.
    pose proof (count_occ_le_length (Spec.last_entries 10 h)) as Hc.
    rewrite last_entries_length in Hc by lia.
    set (c := count_occ bool_dec (Spec.last_entries 10 h) true) in *.
    destruct (tenth_thresholds (Z.of_nat c)) as (f & Hf & Hhi & Hlo); [lia|].
    rewrite Hf; cbn [bind]. rewrite Hhi, Hlo.
    change (Pos.of_nat 10) with 10%positive.
    destruct (Qlt_le_dec (3 # 10) (Z.of_nat c # 10)) as [Q1 | Q1];
      unfold Qlt, Qle in Q1; cbn [Qnum Qden] in Q1.
    + replace (3 <? Z.of_nat c) with true by (symmetry; apply Z.ltb_lt; lia).
      reflexivity.
    + replace (3 <? Z.of_nat c) with false by (symmetry; apply Z.ltb_ge; lia).
      destruct (Qlt_le_dec (Z.of_nat c # 10) (1 # 10)) as [Q2 | Q2];
        unfold Qlt, Qle in Q2; cbn [Qnum Qden] in Q2.
      * replace (Z.of_nat c <? 1) with true by (symmetry; apply Z.ltb_lt; lia).
        reflexivity.
      * replace (Z.of_nat c <? 1) with false by (symmetry; apply Z.ltb_ge; lia).
        reflexivity.
Qed.

(** ** The window-fill scenario *)

Section Scenario.

Lemma outcomes_of_length_complete (l : list bool) :
  In l (outcomes_of_length (length l)).
Proof.
  induction l as [|b l IH]; simpl; [now left|].
  apply in_or_app. destruct b; [left | right]; now apply in_map.
Qed.

Lemma scenario_checked :
  forallb scenario_check (outcomes_of_length 10) = true.
Proof. vm_compute. reflexivity. Qed.

Lemma float_neq (a b : float) : Prim2SF a <> Prim2SF b -> a <> b.
Proof. intros H E. apply H. now rewrite E. Qed.

End Scenario.

(** C3, as the code has it.  From the rate [0.5], with the controller
    called after every recorded outcome: after ten outcomes of which four
    are losses the rate is [0.4], wherever the losses are; after ten more
    outcomes without a loss the rate is [0.48] exactly when the first and
    the tenth of the first ten outcomes were losses.  (The window slides:
    the controller acts again on each of the ten further outcomes.) *)
Theorem window_fill_scenario :
  forall first : list bool,
    length first = 10%nat ->
    count_occ bool_dec first true = 4%nat ->
    exists s1 s2,
      observe_all (__init__ 0.5) first = Ok s1 /\
      error_rate s1 = 0.4%float /\
      observe_all s1 (repeat false 10) = Ok s2 /\
      (error_rate s2 = 0.48%float <->
       nth 0 first false = true /\ nth 9 first false = true).
Proof.
  intros first Hlen Hcount.
  pose proof scenario_checked as H.
  rewrite forallb_forall in H.
  specialize (H first). rewrite <- Hlen in H.
  specialize (H (outcomes_of_length_complete first)).
  unfold scenario_check in H. rewrite Hcount in H. cbn [Nat.eqb negb orb] in H.
  apply andb_true_iff in H as [H1 H2].
  destruct (observe_all (__init__ 0.5) first) as [s1 | e] eqn:R1; [|discriminate].
  cbn [rate_is] in H1. apply FloatAxioms.Leibniz.eqb_spec in H1.
  cbn [then_quiet bind] in H2.
  destruct (observe_all s1 (repeat false 10)) as [s2 | e] eqn:R2; [|discriminate].
  exists s1, s2.
  split; [reflexivity|]. split; [assumption|]. split; [assumption|].
  apply eqb_prop in H2. unfold ends_framed in H2. split.
  - intros E. apply FloatAxioms.Leibniz.eqb_spec in E. rewrite E in H2.
    symmetry in H2. now apply andb_true_iff in H2.
  - intros [E1 E2]. rewrite E1, E2 in H2.
    now apply FloatAxioms.Leibniz.eqb_spec.
Qed.

Lemma window_fill_scenario_witness :
  exists s1 s2,
    observe_all (__init__ 0.5)
      [true; false; true; false; false; true; false; false; false; true] = Ok s1 /\
    error_rate s1 = 0.4%float /\
    observe_all s1 (repeat false 10) = Ok s2 /\
    (error_rate s2 = 0.48%float <->
     nth 0 [true; false; true; false; false; true; false; false; false; true] false = true /\
     nth 9 [true; false; true; false; false; true; false; false; false; true] false = true).
Proof.
  apply (window_fill_scenario
           [true; false; true; false; false; true; false; false; false; true]);
    reflexivity.
Defined.

(** C3, as the specification states it, fails: with the four losses last
    among the first ten outcomes, the rate after ten further outcomes
    without a loss is not [0.48]. *)
Lemma window_fill_counterexample :
  ~ (forall first : list bool,
       length first = 10%nat ->
       count_occ bool_dec first true = 4%nat ->
       exists s1 s2,
         observe_all (__init__ 0.5) first = Ok s1 /\
         error_rate s1 = 0.4%float /\
         observe_all s1 (repeat false 10) = Ok s2 /\
         error_rate s2 = 0.48%float).
Proof.
  intros H.
  destruct (H [false; false; false; false; false; false; true; true; true; true]
              eq_refl eq_refl) as (s1 & s2 & H1 & _ & H2 & H3).
  vm_compute in H1. injection H1 as <-.
  vm_compute in H2. injection H2 as <-.
  cbn [error_rate] in H3.
  revert H3. apply float_neq. vm_compute. discriminate.
Qed.

(** ** The corruption model *)

Section Corruption.

Lemma lxor_byte (b x : Z) :
  0 <= b < 256 -> 0 <= x < 256 -> 0 <= Z.lxor b x < 256.
Proof.
  intros Hb Hx. split; [apply Z.lxor_nonneg; lia|].
  destruct (Z.eq_dec (Z.lxor b x) 0) as [-> | Hz]; [lia|].
  assert (0 < Z.lxor b x) by (pose proof (proj2 (Z.lxor_nonneg b x)); lia).
  apply (Z.log2_lt_pow2 _ 8); [lia|].
  eapply Z.le_lt_trans; [apply Z.log2_lxor; lia|].
  apply Z.max_lub_lt.
  - destruct (Z.eq_dec b 0) as [-> | ?]; [cbn; lia|].
    apply Z.log2_lt_pow2; lia.
  - destruct (Z.eq_dec x 0) as [-> | ?]; [cbn; lia|].
    apply Z.log2_lt_pow2; lia.
Qed.

Lemma lxor_changes (b x : Z) : x <> 0 -> Z.lxor b x <> b.
Proof.
  intros Hx E. apply Hx.
  assert (H : x = Z.lxor b (Z.lxor b x))
    by (now rewrite <- Z.lxor_assoc, Z.lxor_nilpotent, Z.lxor_0_l).
  rewrite E, Z.lxor_nilpotent in H. exact H.
Qed.

Lemma nth_splice (l : bytes) (i j : nat) (v : Z) :
  (i < length l)%nat ->
  nth j (firstn i l ++ v :: skipn (S i) l) 0
  = if (j =? i)%nat then v else nth j l 0.
Proof.
  revert i j; induction l as [|a l IH]; intros i j Hi; simpl in Hi; [lia|].
  destruct i as [|i]; destruct j as [|j]; cbn; try reflexivity.
  apply IH. lia.
Qed.

Lemma length_splice (l : bytes) (i : nat) (v : Z) :
  (i < length l)%nat ->
  length (firstn i l ++ v :: skipn (S i) l) = length l.
Proof.
  intros Hi. rewrite length_app, length_firstn. cbn [length].
  rewrite length_skipn. lia.
Qed.

Lemma Forall_firstn_keeps (P : Z -> Prop) (n : nat) (l : bytes) :
  Forall P l -> Forall P (firstn n l).
Proof.
  intros H; revert n; induction H as [|a l Ha Hl IH]; intros [|n]; cbn;
    constructor; auto.
Qed.

Lemma Forall_skipn_keeps (P : Z -> Prop) (n : nat) (l : bytes) :
  Forall P l -> Forall P (skipn n l).
Proof.
  intros H; revert n; induction H as [|a l Ha Hl IH]; intros [|n]; cbn;
    auto.
Qed.

Lemma xor_at_in_range (data : bytes) (pos x : Z) :
  is_bytes data ->
  0 <= pos < Z.of_nat (length data) ->
  1 <= x <= 255 ->
  exists out,
    xor_at data pos x = Ok out /\ is_bytes out /\ differs_in_one_byte out data.
Proof.
  intros Hd Hp Hx. unfold xor_at.
  replace (pos <? 0) with false by (symmetry; apply Z.ltb_ge; lia).
  replace ((pos <? 0) || (Z.of_nat (length data) <=? pos)) with false
    by (symmetry; apply orb_false_iff; split;
        [apply Z.ltb_ge | apply Z.leb_gt]; lia).
  set (i := Z.to_nat pos).
  assert (Hi : (i < length data)%nat) by (subst i; lia).
  assert (Hb : 0 <= nth i data 0 < 256).
  { unfold is_bytes in Hd. rewrite Forall_forall in Hd.
    apply Hd. now apply nth_In. }
  pose proof (lxor_byte _ x Hb ltac:(lia)) as Hv.
  replace ((Z.lxor (nth i data 0) x <? 0) || (255 <? Z.lxor (nth i data 0) x))
    with false
    by (symmetry; apply orb_false_iff; split;
        [apply Z.ltb_ge | apply Z.ltb_ge]; lia).
  eexists; split; [reflexivity|]. split.
  - unfold is_bytes in *. apply Forall_app; split.
    + now apply Forall_firstn_keeps.
    + constructor; [exact Hv|]. now apply Forall_skipn_keeps.
  - split; [now apply length_splice|].
    exists i. rewrite length_splice by assumption. split; [assumption|]. split.
    + rewrite nth_splice by assumption. rewrite Nat.eqb_refl.
      apply lxor_changes. lia.
    + intros j Hj. rewrite nth_splice by assumption.
      now replace (j =? i)%nat with false by (symmetry; now apply Nat.eqb_neq).
Qed.

End Corruption.

(** C7.  [corrupt_data] returns an empty input as it is.  On a non-empty
    input, when the draw of [random.random()] is below the error rate
    (always so at the rate [1.0], the draw being below [1.0]) it returns a
    byte string of the same length that differs from the input in exactly
    one byte; otherwise it returns the input.  The input is a value of the
    model and is the same before and after the call. *)
Theorem corrupt_data_spec :
  forall (self : NetworkSimulator) (rnd : Draws) (data : bytes),
    is_bytes data ->
    PrimFloat.ltb (random_random rnd) 1 = true ->
    (data <> [] -> 0 <= randint_pos rnd < Z.of_nat (length data)) ->
    1 <= randint_mask rnd <= 255 ->
    corrupt_data self rnd [] = [] /\
    (PrimFloat.ltb (random_random rnd) (error_rate self) = false ->
     corrupt_data self rnd data = data) /\
    (data <> [] ->
     PrimFloat.ltb (random_random rnd) (error_rate self) = true ->
     is_bytes (corrupt_data self rnd data) /\
     differs_in_one_byte (corrupt_data self rnd data) data) /\
    (data <> [] ->
     error_rate self = 1%float ->
     differs_in_one_byte (corrupt_data self rnd data) data).
Proof.
  intros self rnd data Hd Hu Hp Hx.
  assert (fires :
    data <> [] ->
    PrimFloat.ltb (random_random rnd) (error_rate self) = true ->
    is_bytes (corrupt_data self rnd data) /\
    differs_in_one_byte (corrupt_data self rnd data) data).
  { intros Hne Hf.
    destruct (xor_at_in_range data _ _ Hd (Hp Hne) Hx) as (out & Ho & Hb & Hdiff).
    unfold corrupt_data. destruct data as [|b data]; [congruence|].
    now rewrite Hf, Ho. }
  split; [reflexivity|]. split; [|split].
  - intros Hf. unfold corrupt_data. destruct data; [reflexivity|].
    now rewrite Hf.
  - exact fires.
  - intros Hne Hr. apply fires; [assumption|]. now rewrite Hr.
Qed.

Lemma corrupt_data_spec_witness :
  corrupt_data (__init__ 1) (Build_Draws 0.25 1 3) [] = [] /\
  (PrimFloat.ltb 0.25 1 = false ->
   corrupt_data (__init__ 1) (Build_Draws 0.25 1 3) [123; 97; 125]
   = [123; 97; 125]) /\
  ([123; 97; 125] <> [] ->
   PrimFloat.ltb 0.25 1 = true ->
   is_bytes (corrupt_data (__init__ 1) (Build_Draws 0.25 1 3) [123; 97; 125]) /\
   differs_in_one_byte
     (corrupt_data (__init__ 1) (Build_Draws 0.25 1 3) [123; 97; 125])
     [123; 97; 125]) /\
  ([123; 97; 125] <> [] ->
   1%float = 1%float ->
   differs_in_one_byte
     (corrupt_data (__init__ 1) (Build_Draws 0.25 1 3) [123; 97; 125])
     [123; 97; 125]).
Proof.
  apply (corrupt_data_spec (__init__ 1) (Build_Draws 0.25 1 3) [123; 97; 125]).
  - repeat constructor; cbn; lia.
  - reflexivity.
  - intros _. cbn. lia.
  - cbn. lia.
Defined.

(** ** The decoder's failure sentinel *)

(** C8.  [Packet.decode] returns for every byte string, and never raises:
    it returns [None] on the empty input, on an input that is not the
    UTF-8 text of a JSON object, and on a JSON object without the key
    ["data"]. *)
Theorem decode_never_raises :
  forall encoded_data : bytes,
    (exists v, Packet.decode encoded_data = Ok v) /\
    Packet.decode [] = Ok JNone /\
    ((forall s d, Utf8.decode encoded_data = Ok s ->
                  Json.loads s <> Ok (JDict d)) ->
     Packet.decode encoded_data = Ok JNone) /\
    (forall s d,
       Utf8.decode encoded_data = Ok s ->
       Json.loads s = Ok (JDict d) ->
       Packet.dict_get d (codes "data") = None ->
       Packet.decode encoded_data = Ok JNone).
Proof.
  intros bs. unfold Packet.decode, Packet.decode_try.
  split; [|split; [reflexivity | split]].
  - destruct (_ <- Utf8.decode bs ;; _) as [v | e]; eauto.
  - intros H. destruct (Utf8.decode bs) as [s | e]; [|reflexivity].
    cbn [bind]. destruct (Json.loads s) as [o | e] eqn:E; [|reflexivity].
    cbn [bind]. destruct o; try reflexivity.
    exfalso. now apply (H s d).
  - intros s d Hs Hl Hd. rewrite Hs; cbn [bind]. rewrite Hl; cbn [bind].
    unfold Packet.getitem. now rewrite Hd.
Qed.

Example decode_envelope :
  Packet.decode (codes "{" ++ quoted "data" ++ codes ": [1, 2]}")
  = Ok (JList [JInt 1; JInt 2]).
Proof. vm_compute. reflexivity. Qed.

Example decode_other_key :
  Packet.decode (codes "{" ++ quoted "payload" ++ codes ": 1}") = Ok JNone.
Proof. vm_compute. reflexivity. Qed.

Example decode_not_an_object :
  Packet.decode (codes "[1, 2]") = Ok JNone.
Proof. vm_compute. reflexivity. Qed.

Example decode_not_utf8 :
  Packet.decode [123; 255; 125] = Ok JNone.
Proof. vm_compute. reflexivity. Qed.

(** ** The orchestrator *)

Section Orchestrator.

(** The controller changes the rate and nothing else. *)
Lemma adjust_keeps (s s' : NetworkSimulator) :
  adjust_error_rate s = Ok s' ->
  latency_data s' = latency_data s /\
  packet_loss s' = packet_loss s /\
  successful_transmissions s' = successful_transmissions s /\
  total_transmissions s' = total_transmissions s /\
  adaptive_window s' = adaptive_window s /\
  min_error_rate s' = min_error_rate s /\
  max_error_rate s' = max_error_rate s.
Proof.
  unfold adjust_error_rate.
  destruct (_ >=? _); [|intros [= <-]; tauto].
  destruct (int_truediv _ _) as [f | e]; [cbn [bind] | discriminate].
  destruct (PrimFloat.ltb 0.3 f); [intros [= <-]; cbn; tauto|].
  destruct (PrimFloat.ltb f 0.1); intros [= <-]; cbn; tauto.
Qed.

(** The encoding opens with a brace, so it is never empty. *)
Lemma encode_nonempty (p : Packet.t) (bs : bytes) :
  Packet.encode p = Ok bs -> exists b bs', bs = b :: bs'.
Proof.
  unfold Packet.encode. cbn [Json.dumps].
  destruct (Json.dumps (Packet.data p)) as [a | e]; [|discriminate].
  cbn -[Utf8.encode_char codes].
  change (Utf8.encode_char 123) with (@Ok bytes [123]). cbn [bind].
  destruct (Utf8.encode _) as [r | e]; [|discriminate].
  cbn. intros [= <-]. eauto.
Qed.

Lemma transmit_after_decode self env rnd disk_ok packet encoded decoded :
  Packet.encode packet = Ok encoded ->
  Packet.decode (corrupt_data self rnd encoded) = Ok decoded ->
  transmit self env rnd disk_ok packet = after_decode self env disk_ok decoded.
Proof.
  intros He Hd. unfold transmit, after_decode. rewrite He.
  destruct (encode_nonempty _ _ He) as (b & bs' & ->).
  now rewrite Hd.
Qed.

Lemma decode_returns (bs : bytes) : exists v, Packet.decode bs = Ok v.
Proof.
  unfold Packet.decode. destruct (Packet.decode_try bs); eauto.
Qed.

Lemma transmit_encode_raises self env rnd disk_ok packet e :
  Packet.encode packet = Raise e ->
  transmit self env rnd disk_ok packet = record_failure self.
Proof. intros He. unfold transmit. now rewrite He. Qed.

Lemma after_decode_histories self env disk_ok decoded :
  let s := after_decode self env disk_ok decoded in
  latency_data s = latency_data self ++ [(now env - now env)%float] /\
  (packet_loss s = packet_loss self ++ [is_none decoded] /\
   total_transmissions s = total_transmissions self + 1
   \/
   packet_loss s = (packet_loss self ++ [is_none decoded]) ++ [true] /\
   total_transmissions s = total_transmissions self + 1 + 1).
Proof.
  unfold after_decode.
  destruct (adjust_error_rate _) as [adjusted | e] eqn:Ha.
  - apply adjust_keeps in Ha as (Hl & Hp & _ & Ht & _). cbn in Hl, Hp, Ht.
    destruct (save_statistics adjusted disk_ok); cbn;
      rewrite ?Hl, ?Hp, ?Ht; auto.
  - cbn. auto.
Qed.

Lemma transmit_counted self env rnd disk_ok packet :
  counted self -> counted (transmit self env rnd disk_ok packet).
Proof.
  intros [H1 H2]. destruct (Packet.encode packet) as [encoded | e] eqn:He.
  - destruct (decode_returns (corrupt_data self rnd encoded)) as [v Hv].
    rewrite (transmit_after_decode _ _ _ _ _ _ _ He Hv).
    destruct (after_decode_histories self env disk_ok v) as (Hl & [[Hp Ht] | [Hp Ht]]);
      unfold counted; rewrite Hl, Hp, Ht; rewrite !length_app; cbn [length]; lia.
  - rewrite (transmit_encode_raises _ _ _ _ _ _ He).
    unfold counted; cbn. rewrite length_app; cbn [length]. lia.
Qed.

Lemma run_counted (l : list Attempt) (s : NetworkSimulator) :
  counted s -> counted (run s l).
Proof.
  revert s; induction l as [|a l IH]; intros s Hs; cbn; [assumption|].
  apply IH. now apply transmit_counted.
Qed.

End Orchestrator.

(** C4, as the code has it.  After every run of attempts the loss history
    is as long as [total_transmissions] says and the latency history is no
    longer than the loss history.  An attempt whose encoding raises adds a
    loss entry and no latency entry; an attempt whose encoding succeeds
    adds exactly one latency entry. *)
Theorem history_lengths :
  forall (rate : float) (attempts : list Attempt),
    (Z.of_nat (length (packet_loss (run (__init__ rate) attempts)))
     = total_transmissions (run (__init__ rate) attempts) /\
     (length (latency_data (run (__init__ rate) attempts))
      <= length (packet_loss (run (__init__ rate) attempts)))%nat) /\
    (forall self a e,
       Packet.encode (at_packet a) = Raise e ->
       latency_data (attempt self a) = latency_data self /\
       packet_loss (attempt self a) = packet_loss self ++ [true]) /\
    (forall self a encoded,
       Packet.encode (at_packet a) = Ok encoded ->
       exists latency,
         latency_data (attempt self a) = latency_data self ++ [latency]).
Proof.
  intros rate attempts. split; [|split].
  - apply run_counted. unfold counted; cbn. lia.
  - intros self a e He. unfold attempt.
    rewrite (transmit_encode_raises _ _ _ _ _ _ He). cbn. auto.
  - intros self a encoded He. unfold attempt.
    destruct (decode_returns (corrupt_data self (at_draws a) encoded)) as [v Hv].
    rewrite (transmit_after_decode _ _ _ _ _ _ _ He Hv).
    eexists. apply after_decode_histories.
Qed.

(** C4, as the specification states it, fails: a payload that cannot be
    serialised leaves one loss entry and no latency entry. *)
Lemma history_lengths_counterexample :
  ~ (forall (rate : float) (attempts : list Attempt),
       length (latency_data (run (__init__ rate) attempts))
       = length (packet_loss (run (__init__ rate) attempts)) /\
       Z.of_nat (length (packet_loss (run (__init__ rate) attempts)))
       = total_transmissions (run (__init__ rate) attempts)).
Proof.
  intros H.
  destruct (H 0.1%float
              [Build_Attempt (Build_Environment 0.25) (Build_Draws 0.75 0 1)
                 true (Packet.Packet (PBytes [104; 105]))]) as [H1 _].
  vm_compute in H1. discriminate.
Qed.

(** C5 at a failing input.  One attempt on a fresh simulator, with a
    payload that survives the channel and a disk that cannot be written:
    the outcome is recorded, and then the failure of [save_statistics] is
    recorded as a second, lost, transmission. *)
Theorem persistence_failure_counted_twice :
  let s := transmit (__init__ 0.1) (Build_Environment 0.25)
             (Build_Draws 0.75 0 1) false (Packet.Packet (PStr (codes "a"))) in
  packet_loss s = [false; true] /\
  total_transmissions s = 2 /\
  successful_transmissions s = 1 /\
  length (latency_data s) = 1%nat /\
  transmit (__init__ 0.1) (Build_Environment 0.25)
    (Build_Draws 0.75 0 1) true (Packet.Packet (PStr (codes "a")))
  = mkSim 0.1 [0%float] [false] 1 1 10 0.05 0.5.
Proof. vm_compute. repeat split. Qed.

(** C9, as the code has it.  For every attempt that reaches the decode
    step, the flag that the attempt appends to the loss history is true
    exactly when the decoded object is [None]: [transmit] tests
    [decoded_data is None] and never compares with the payload. *)
Theorem lost_flag_is_decode_failure :
  forall self env rnd disk_ok packet encoded decoded,
    Packet.encode packet = Ok encoded ->
    Packet.decode (corrupt_data self rnd encoded) = Ok decoded ->
    nth_error (packet_loss (transmit self env rnd disk_ok packet))
              (length (packet_loss self))
    = Some (is_none decoded).
Proof.
  intros self env rnd disk_ok packet encoded decoded He Hd.
  rewrite (transmit_after_decode _ _ _ _ _ _ _ He Hd).
  destruct (after_decode_histories self env disk_ok decoded)
    as (_ & [[Hp _] | [Hp _]]); rewrite Hp.
  - rewrite nth_error_app2 by lia. now rewrite Nat.sub_diag.
  - rewrite <- app_assoc. rewrite nth_error_app2 by lia.
    now rewrite Nat.sub_diag.
Qed.

Lemma lost_flag_is_decode_failure_witness :
  nth_error
    (packet_loss
       (transmit (__init__ 0.5) (Build_Environment 0.25)
          (Build_Draws 0.25 1 64) true (Packet.Packet (PStr (codes "a")))))
    (length (packet_loss (__init__ 0.5)))
  = Some (is_none JNone).
Proof.
  apply (lost_flag_is_decode_failure (__init__ 0.5) (Build_Environment 0.25)
           (Build_Draws 0.25 1 64) true (Packet.Packet (PStr (codes "a")))
           (codes "{" ++ quoted "data" ++ codes ": " ++ quoted "a" ++ codes "}")).
  - vm_compute. reflexivity.
  - vm_compute. reflexivity.
Defined.

(** C9, as the specification's glossary states it, fails: the payload
    ["a"] with the byte of [a] turned into [b] decodes to ["b"], which is
    not the payload, and the attempt is recorded as not lost. *)
Lemma lost_flag_counterexample :
  ~ (forall self env rnd disk_ok packet encoded decoded,
       Packet.encode packet = Ok encoded ->
       Packet.decode (corrupt_data self rnd encoded) = Ok decoded ->
       nth_error (packet_loss (transmit self env rnd disk_ok packet))
                 (length (packet_loss self))
       = Some (negb (py_eq decoded (Packet.data packet)))).
Proof.
  intros H.
  specialize (H (__init__ 0.5) (Build_Environment 0.25)
                (Build_Draws 0.25 10 3) true (Packet.Packet (PStr (codes "a")))
                (codes "{" ++ quoted "data" ++ codes ": " ++ quoted "a" ++ codes "}")
                (JStr (codes "b")) eq_refl eq_refl).
  vm_compute in H. discriminate.
Qed.

(** ** Binary64 arithmetic

    Rounding as [SpecFloat] defines it, for positive numbers in the normal
    range: enough to bound the products of the controller and to show that
    the recorder's differences and quotients are the expected numbers. *)

Section Binary64.

Lemma digits2_pos_size (p : positive) : digits2_pos p = Pos.size p.
Proof. induction p; cbn; congruence. Qed.

Lemma digits2_bounds (p : positive) :
  2 ^ (Z.pos (digits2_pos p) - 1) <= Z.pos p < 2 ^ Z.pos (digits2_pos p).
Proof.
  rewrite digits2_pos_size.
  pose proof (Pos.size_gt p) as Hgt. pose proof (Pos.size_le p) as Hle.
  apply Pos2Z.pos_lt_pos in Hgt. apply Pos2Z.pos_le_pos in Hle.
  rewrite Pos2Z.inj_pow in Hgt, Hle.
  rewrite Pos2Z.inj_xO in Hle.
  split; [|exact Hgt].
  assert (2 ^ Z.pos (Pos.size p) = 2 * 2 ^ (Z.pos (Pos.size p) - 1)) as E.
  { rewrite <- Z.pow_succ_r by lia. f_equal. lia. }
  change ((2 * 1) ^ Z.pos (Pos.size p)) with (2 ^ Z.pos (Pos.size p)) in Hle.
  lia.
Qed.

Lemma digits2_unique (p : positive) (k : Z) :
  2 ^ (k - 1) <= Z.pos p < 2 ^ k -> Z.pos (digits2_pos p) = k.
Proof.
  intros [Hlo Hhi]. pose proof (digits2_bounds p) as [Dlo Dhi].
  set (d := Z.pos (digits2_pos p)) in *.
  assert (0 < k).
  { destruct (Z.ltb_spec 0 k) as [?|Hk]; [assumption|]. exfalso.
    destruct (Z.eq_dec k 0) as [-> | Hk0]; [cbn in Hhi; lia|].
    rewrite Z.pow_neg_r in Hhi by lia. lia. }
  assert (k - 1 < d) by (apply (Z.pow_lt_mono_r_iff 2); lia).
  assert (d - 1 < k) by (apply (Z.pow_lt_mono_r_iff 2); lia).
  lia.
Qed.

Lemma iter_pos_nat {A : Type} (f : A -> A) (p : positive) (x : A) :
  SpecFloat.iter_pos f p x = Nat.iter (Pos.to_nat p) f x.
Proof.
  revert x; induction p as [p IH | p IH |]; intros x; cbn [SpecFloat.iter_pos].
  - rewrite !IH, Pos2Nat.inj_xI.
    replace (S (2 * Pos.to_nat p)) with (S (Pos.to_nat p + Pos.to_nat p)) by lia.
    now rewrite Nat.iter_succ_r, Nat.iter_add.
  - rewrite !IH, Pos2Nat.inj_xO.
    replace (2 * Pos.to_nat p)%nat with (Pos.to_nat p + Pos.to_nat p)%nat by lia.
    now rewrite Nat.iter_add.
  - reflexivity.
Qed.

Lemma shr_1_m (r : shr_record) :
  0 <= shr_m r -> shr_m (shr_1 r) = shr_m r / 2.
Proof.
  destruct r as [m rb sb]; cbn [shr_m]. intros Hm.
  destruct m as [|p|p]; [reflexivity | | lia].
  destruct p as [p|p|]; cbn [shr_1 shr_m].
  - rewrite Pos2Z.inj_xI. apply Z.div_unique with 1; lia.
  - rewrite Pos2Z.inj_xO. apply Z.div_unique with 0; lia.
  - reflexivity.
Qed.

Lemma shr_iter_m (n : nat) (r : shr_record) :
  0 <= shr_m r -> shr_m (Nat.iter n shr_1 r) = shr_m r / 2 ^ Z.of_nat n.
Proof.
  intros Hm. induction n as [|n IH].
  - cbn. now rewrite Z.div_1_r.
  - change (Nat.iter (S n) shr_1 r) with (shr_1 (Nat.iter n shr_1 r)).
    rewrite shr_1_m.
    + rewrite IH, Nat2Z.inj_succ, Z.pow_succ_r by lia.
      rewrite Z.div_div by lia. f_equal. lia.
    + rewrite IH. apply Z.div_pos; lia.
Qed.

Lemma shr_m_of_loc (m : Z) (l : location) : shr_m (shr_record_of_loc m l) = m.
Proof. destruct l as [|[]]; reflexivity. Qed.

Lemma shr_m_shift (r : shr_record) (e n : Z) :
  0 <= shr_m r -> 0 <= n ->
  shr_m (fst (shr r e n)) = shr_m r / 2 ^ n /\ snd (shr r e n) = e + n.
Proof.
  intros Hm Hn. destruct n as [|p|p]; cbn [shr fst snd]; [| |lia].
  - rewrite Z.div_1_r. lia.
  - rewrite iter_pos_nat, shr_iter_m by assumption.
    now rewrite positive_nat_Z.
Qed.

Lemma round_nearest_even_bounds (m : Z) (l : location) :
  m <= round_nearest_even m l <= m + 1.
Proof.
  destruct l as [|[]]; cbn; try lia. destruct (Z.even m); lia.
Qed.

(** Rounding a positive number whose leading bit is at least the 53rd,
    away from the subnormal range and from overflow. *)
Lemma binary_round_aux_normal (s : bool) (P : positive) (e : Z) (l : location) :
  let d := Z.pos (digits2_pos P) in
  let q := Z.pos P / 2 ^ (d - 53) in
  53 <= d -> -1074 <= d + e - 53 -> d + e - 52 <= 971 ->
  exists m' e',
    binary_round_aux prec emax s (Z.pos P) e l = S754_finite s m' e' /\
    2 ^ 52 <= Z.pos m' < 2 ^ 53 /\
    ((e' = e + d - 53 /\ q <= Z.pos m' <= q + 1) \/
     (e' = e + d - 52 /\ Z.pos m' = 2 ^ 52 /\ q + 1 = 2 ^ 53)).
Proof.
  intros d q Hd Hlo Hhi.
  pose proof (digits2_bounds P) as [Plo Phi]. fold d in Plo, Phi.
  assert (Hq : 2 ^ 52 <= q < 2 ^ 53).
  { unfold q. split.
    - apply Z.div_le_lower_bound; [lia|].
      rewrite <- Z.pow_add_r by lia. replace (d - 53 + 52) with (d - 1) by lia. lia.
    - apply Z.div_lt_upper_bound; [lia|].
      rewrite <- Z.pow_add_r by lia. replace (d - 53 + 53) with d by lia. lia. }
  unfold binary_round_aux.
  assert (E1 : shr_fexp prec emax (Z.pos P) e l
               = (fst (shr (shr_record_of_loc (Z.pos P) l) e (d - 53)),
                  snd (shr (shr_record_of_loc (Z.pos P) l) e (d - 53)))).
  { unfold shr_fexp. cbn [Zdigits2]. fold d.
    unfold fexp, SpecFloat.emin, prec, emax.
    replace (Z.max (d + e - 53) (3 - 1024 - 53) - e) with (d - 53) by lia.
    now destruct (shr _ _ _). }
  rewrite E1.
  destruct (shr_m_shift (shr_record_of_loc (Z.pos P) l) e (d - 53)) as [Em Ee];
    [rewrite shr_m_of_loc; lia | lia |].
  rewrite shr_m_of_loc in Em. fold q in Em.
  set (r1 := fst (shr (shr_record_of_loc (Z.pos P) l) e (d - 53))) in *.
  rewrite Ee. rewrite Em.
  pose proof (round_nearest_even_bounds q (loc_of_shr_record r1)) as Hr.
  set (m1 := round_nearest_even q (loc_of_shr_record r1)) in *.
  destruct (Z.eq_dec m1 (2 ^ 53)) as [Emax | Hne].
  - (* the mantissa carried into the 54th bit *)
    rewrite Emax. unfold shr_fexp.
    change (Zdigits2 (2 ^ 53)) with 54.
    unfold fexp, SpecFloat.emin, prec, emax.
    replace (Z.max (54 + (e + (d - 53)) - 53) (3 - 1024 - 53) - (e + (d - 53)))
      with 1 by lia.
    cbn [shr shr_record_of_loc SpecFloat.iter_pos shr_1 shr_m].
    change (2 ^ 53) with (Z.pos (4503599627370496~0)). cbn [shr_1 shr_m].
    replace (e + (d - 53) + 1 <=? 1024 - 53) with true
      by (symmetry; apply Z.leb_le; lia).
    eexists _, _. split; [reflexivity|]. split; [cbn; lia|].
    right. repeat split; try lia. 
  - destruct m1 as [|pm|pm] eqn:Epm; try lia.
    assert (Hdm : Z.pos (digits2_pos pm) = 53) by (apply digits2_unique; lia).
    unfold shr_fexp. cbn [Zdigits2]. rewrite Hdm.
    unfold fexp, SpecFloat.emin, prec, emax.
    replace (Z.max (53 + (e + (d - 53)) - 53) (3 - 1024 - 53) - (e + (d - 53)))
      with 0 by lia.
    cbn [shr shr_record_of_loc shr_m].
    replace (e + (d - 53) <=? 1024 - 53) with true
      by (symmetry; apply Z.leb_le; lia).
    eexists _, _. split; [reflexivity|]. split; [lia|].
    left. split; lia.
Qed.

Lemma valid_normal (s : bool) (m : positive) (e : Z) :
  2 ^ 52 <= Z.pos m < 2 ^ 53 -> -1074 <= e <= 971 ->
  valid_binary (S754_finite s m e) = true.
Proof.
  intros Hm He. cbn [SpecFloat.valid_binary]. unfold bounded, canonical_mantissa.
  rewrite (digits2_unique m 53) by lia.
  unfold fexp, SpecFloat.emin, prec, emax.
  apply andb_true_iff; split; [apply Z.eqb_eq | apply Z.leb_le]; lia.
Qed.

(** A valid float above the subnormal range has a 53-bit mantissa. *)
Lemma valid_mantissa (x : float) (s : bool) (m : positive) (e : Z) :
  Prim2SF x = S754_finite s m e -> -1074 < e ->
  2 ^ 52 <= Z.pos m < 2 ^ 53.
Proof.
  intros Hx He. pose proof (FloatAxioms.Prim2SF_valid x) as Hv. rewrite Hx in Hv.
  cbn [SpecFloat.valid_binary] in Hv. unfold bounded, canonical_mantissa in Hv.
  apply andb_true_iff in Hv as [Hc _]. apply Z.eqb_eq in Hc.
  unfold fexp, SpecFloat.emin, prec, emax in Hc.
  pose proof (digits2_bounds m) as Hb.
  replace (Z.pos (digits2_pos m)) with 53 in Hb by lia. exact Hb.
Qed.


Lemma repr_005 : Prim2SF 0.05 = S754_finite false m005 (-57).
Proof. vm_compute. reflexivity. Qed.
Lemma repr_05 : Prim2SF 0.5 = S754_finite false 4503599627370496 (-53).
Proof. vm_compute. reflexivity. Qed.
Lemma repr_08 : Prim2SF 0.8 = S754_finite false m08 (-53).
Proof. vm_compute. reflexivity. Qed.
Lemma repr_12 : Prim2SF 1.2 = S754_finite false m12 (-52).
Proof. vm_compute. reflexivity. Qed.

Lemma compare_cont_Eq (a b : positive) :
  Pos.compare_cont Eq a b = (Z.pos a ?= Z.pos b).
Proof. reflexivity. Qed.

(** A rate between [0.05] and [0.5], as a binary number. *)
Lemma rate_in_range (r : float) :
  PrimFloat.leb 0.05 r = true -> PrimFloat.leb r 0.5 = true ->
  exists m e,
    Prim2SF r = S754_finite false m e /\
    2 ^ 52 <= Z.pos m < 2 ^ 53 /\ -57 <= e <= -53 /\
    (e = -57 -> Z.pos m005 <= Z.pos m) /\
    (e = -53 -> Z.pos m = 2 ^ 52).
Proof.
  rewrite !FloatAxioms.leb_spec, repr_005, repr_05. unfold SFleb.
  destruct (Prim2SF r) as [s | s | | s m e] eqn:Hr; cbn [SFcompare];
    try discriminate; try (destruct s; discriminate).
  destruct s; [discriminate|].
  rewrite !compare_cont_Eq.
  destruct (Z.compare_spec (-57) e) as [E1 | E1 | E1]; try discriminate;
    destruct (Z.compare_spec e (-53)) as [E2 | E2 | E2]; try discriminate;
    intros H1 H2; exists m, e; (split; [reflexivity|]);
    (split; [apply (valid_mantissa r false m e Hr); lia|]);
    (split; [lia|]); split; intros E; try lia.
  - destruct (Z.compare_spec (Z.pos m005) (Z.pos m)); try discriminate; lia.
  - destruct (Z.compare_spec (Z.pos m) (Z.pos 4503599627370496));
      try discriminate; try lia.
    pose proof (valid_mantissa r false m e Hr ltac:(lia)). lia.
Qed.

(** The product of an in-range rate with a constant whose mantissa has 53
    bits, rounded. *)
Lemma mul_in_range (r c : float) (m mc : positive) (e ec : Z) :
  Prim2SF r = S754_finite false m e ->
  Prim2SF c = S754_finite false mc ec ->
  2 ^ 52 <= Z.pos m < 2 ^ 53 -> 2 ^ 52 <= Z.pos mc < 2 ^ 53 ->
  -100 <= e <= 100 -> -100 <= ec <= 100 ->
  exists d m' e',
    (d = 105 \/ d = 106) /\
    2 ^ (d - 1) <= Z.pos m * Z.pos mc < 2 ^ d /\
    Prim2SF (r * c) = S754_finite false m' e' /\
    2 ^ 52 <= Z.pos m' < 2 ^ 53 /\
    let q := Z.pos m * Z.pos mc / 2 ^ (d - 53) in
    ((e' = e + ec + d - 53 /\ q <= Z.pos m' <= q + 1) \/
     (e' = e + ec + d - 52 /\ Z.pos m' = 2 ^ 52 /\ q + 1 = 2 ^ 53)).
Proof.
  intros Hr Hc Hm Hmc He Hec.
  rewrite FloatAxioms.mul_spec, Hr, Hc. unfold SF64mul, SFmul. cbn [xorb].
  pose proof (digits2_bounds (m * mc)) as Hd.
  rewrite Pos2Z.inj_mul in Hd.
  set (d := Z.pos (digits2_pos (m * mc))) in *.
  assert (L : 2 ^ 104 <= Z.pos m * Z.pos mc) by nia.
  assert (U : Z.pos m * Z.pos mc < 2 ^ 106) by nia.
  assert (D : d = 105 \/ d = 106).
  { assert (d - 1 < 106) by (apply (Z.pow_lt_mono_r_iff 2); lia).
    assert (104 < d) by (apply (Z.pow_lt_mono_r_iff 2); lia).
    lia. }
  destruct (binary_round_aux_normal false (m * mc) (e + ec) loc_Exact)
    as (m' & e' & R & Hm' & Hcase); fold d; try lia.
  fold d in Hcase. rewrite Pos2Z.inj_mul in Hcase.
  exists d, m', e'. split; [exact D|]. split; [exact Hd|].
  split; [exact R|]. split; [exact Hm'|].
  cbv zeta. destruct Hcase as [[E Q] | [E Q]]; [left | right];
    (split; [lia | exact Q]).
Qed.

Lemma leb_of_ltb (a b : float) :
  PrimFloat.ltb a b = true -> PrimFloat.leb a b = true.
Proof.
  rewrite FloatAxioms.ltb_spec, FloatAxioms.leb_spec. unfold SFltb, SFleb.
  destruct (SFcompare _ _) as [[]|]; congruence.
Qed.

(** Decreasing an in-range rate keeps it below the upper bound. *)
Lemma decrease_below_max (r : float) :
  PrimFloat.leb 0.05 r = true -> PrimFloat.leb r 0.5 = true ->
  PrimFloat.leb (r * 0.8) 0.5 = true.
Proof.
  intros H1 H2.
  destruct (rate_in_range r H1 H2) as (m & e & Hr & Hm & He & Hlo & Hhi).
  destruct (mul_in_range r 0.8 m m08 e (-53) Hr repr_08 Hm ltac:(unfold m08; lia)
              ltac:(lia) ltac:(lia))
    as (d & m' & e' & D & Hd & R & Hm' & Hcase).
  rewrite FloatAxioms.leb_spec, R, repr_05. unfold SFleb; cbn [SFcompare].
  assert (E : e' <= -54).
  { cbv zeta in Hcase. unfold m08 in *.
    destruct D as [-> | ->]; cbn [Z.sub Z.add Z.pos_sub Z.opp Pos.pred_double] in *;
      [change (2 ^ (105 - 53)) with 4503599627370496 in Hcase
      |change (2 ^ (106 - 53)) with 9007199254740992 in Hcase];
      (destruct Hcase as [[E Q] | [E [Q1 Q2]]];
       [| revert Q2]; Z.div_mod_to_equations; lia). }
  destruct (Z.compare_spec e' (-53)); (reflexivity || lia).
Qed.

(** Increasing an in-range rate keeps it above the lower bound. *)
Lemma increase_above_min (r : float) :
  PrimFloat.leb 0.05 r = true -> PrimFloat.leb r 0.5 = true ->
  PrimFloat.leb 0.05 (r * 1.2) = true.
Proof.
  intros H1 H2.
  destruct (rate_in_range r H1 H2) as (m & e & Hr & Hm & He & Hlo & Hhi).
  destruct (mul_in_range r 1.2 m m12 e (-52) Hr repr_12 Hm ltac:(unfold m12; lia)
              ltac:(lia) ltac:(lia))
    as (d & m' & e' & D & Hd & R & Hm' & Hcase).
  rewrite FloatAxioms.leb_spec, R, repr_005. unfold SFleb; cbn [SFcompare].
  rewrite compare_cont_Eq.
  assert (E : -57 < e' \/ (e' = -57 /\ Z.pos m005 <= Z.pos m')).
  { cbv zeta in Hcase. unfold m12, m005 in *.
    destruct D as [-> | ->];
      [change (2 ^ (105 - 53)) with 4503599627370496 in Hcase
      |change (2 ^ (106 - 53)) with 9007199254740992 in Hcase];
      (destruct Hcase as [[E Q] | [E [Q1 Q2]]];
       [| revert Q2]; Z.div_mod_to_equations; lia). }
  destruct (Z.compare_spec (-57) e'); try (reflexivity || lia).
  destruct (Z.compare_spec (Z.pos m005) (Z.pos m')); (reflexivity || lia).
Qed.

(** *** Differences, sums and quotients of the recorder *)

Lemma finite_cases (x : float) :
  is_finite x = true ->
  (exists s, Prim2SF x = S754_zero s) \/
  (exists s m e, Prim2SF x = S754_finite s m e).
Proof.
  unfold is_finite, is_nan, is_infinity.
  rewrite !FloatAxioms.eqb_spec, FloatAxioms.abs_spec.
  change (Prim2SF infinity) with (S754_infinity false).
  destruct (Prim2SF x) as [s | s | | s m e].
  - intros _. left. now exists s.
  - destruct s; cbn; discriminate.
  - cbn; discriminate.
  - intros _. right. now exists s, m, e.
Qed.

Lemma shl_align_same (m : positive) (e : Z) : shl_align m e e = (m, e).
Proof. unfold shl_align. now rewrite Z.sub_diag. Qed.

(** [x - x] is [0.0] for every finite [x]. *)
Lemma sub_self (x : float) : is_finite x = true -> (x - x)%float = 0%float.
Proof.
  intros Hx. apply FloatAxioms.Prim2SF_inj. rewrite FloatAxioms.sub_spec.
  change (Prim2SF 0) with (S754_zero false). unfold SF64sub.
  destruct (finite_cases x Hx) as [[s ->] | (s & m & e & ->)].
  - now destruct s.
  - cbn [SFsub]. rewrite Z.min_id, shl_align_same. cbn [fst].
    now rewrite Z.sub_diag.
Qed.

Lemma sum_zeros (l : list float) :
  Forall (fun x => x = 0%float) l -> fold_left PrimFloat.add l 0%float = 0%float.
Proof.
  induction 1 as [|x l -> _ IH]; [reflexivity|]. cbn [fold_left].
  change (0 + 0)%float with 0%float. exact IH.
Qed.

Lemma iter_xO (k m : positive) : Z.pos (Pos.iter xO m k) = Z.pos m * 2 ^ Z.pos k.
Proof.
  induction k as [|k IH] using Pos.peano_ind.
  - cbn [Pos.iter]. lia.
  - rewrite Pos.iter_succ, Pos2Z.inj_xO, IH, Pos2Z.inj_succ, Z.pow_succ_r by lia.
    lia.
Qed.

(** The float nearest to a positive integer below [2^1000] is a positive
    normal number. *)
Lemma normalize_pos (p : positive) :
  Z.pos p < 2 ^ 1000 ->
  exists m e,
    binary_normalize prec emax (Z.pos p) 0 false = S754_finite false m e /\
    valid_binary (S754_finite false m e) = true.
Proof.
  intros Hp. cbn [binary_normalize]. unfold binary_round.
  pose proof (digits2_bounds p) as Hd.
  set (d := Z.pos (digits2_pos p)) in *.
  assert (0 < d) by (subst d; lia).
  assert (d <= 1000).
  { assert (d - 1 < 1000) by (apply (Z.pow_lt_mono_r_iff 2); lia). lia. }
  rewrite Z.add_0_r. unfold fexp at 1, SpecFloat.emin, prec, emax.
  replace (Z.max (d - 53) (3 - 1024 - 53)) with (d - 53) by lia.
  unfold shl_align. rewrite Z.sub_0_r.
  destruct (d - 53) as [|k|k] eqn:Ek.
  - destruct (binary_round_aux_normal false p 0 loc_Exact)
      as (m' & e' & R & Hm' & Hc); fold d; try lia.
    exists m', e'. split; [exact R|]. apply valid_normal; [lia|].
    fold d in Hc. lia.
  - destruct (binary_round_aux_normal false p 0 loc_Exact)
      as (m' & e' & R & Hm' & Hc); fold d; try lia.
    exists m', e'. split; [exact R|]. apply valid_normal; [lia|].
    fold d in Hc. lia.
  - pose proof (iter_xO k p) as Hs.
    assert (Hk : Z.pos k = 53 - d) by lia.
    assert (Hb : 2 ^ 52 <= Z.pos (Pos.iter xO p k) < 2 ^ 53).
    { rewrite Hs, Hk. split.
      - replace 52 with ((d - 1) + (53 - d)) by lia.
        rewrite Z.pow_add_r by lia. nia.
      - replace 53 with (d + (53 - d)) at 2 by lia.
        rewrite Z.pow_add_r by lia. nia. }
    pose proof (digits2_unique _ 53 Hb) as Hd'.
    destruct (binary_round_aux_normal false (Pos.iter xO p k) (Z.neg k) loc_Exact)
      as (m' & e' & R & Hm' & Hc); rewrite ?Hd'; try lia.
    exists m', e'. split; [exact R|]. apply valid_normal; [lia|].
    rewrite Hd' in Hc. lia.
Qed.

Lemma div_eucl_div (a b : Z) : Z.div_eucl a b = (a / b, a mod b).
Proof. unfold Z.div, Z.modulo. now destruct (Z.div_eucl a b). Qed.

(** The quotient of two positive integers below [2^500] is a positive
    normal number. *)
Lemma div_pos_normal (a b : positive) :
  Z.pos a < 2 ^ 500 -> Z.pos b < 2 ^ 500 ->
  exists m e,
    SFdiv prec emax (S754_finite false a 0) (S754_finite false b 0)
    = S754_finite false m e /\
    valid_binary (S754_finite false m e) = true.
Proof.
  intros Ha Hb. cbn [SFdiv xorb]. unfold SFdiv_core_binary.
  cbn [Zdigits2].
  pose proof (digits2_bounds a) as Da. pose proof (digits2_bounds b) as Db.
  set (d1 := Z.pos (digits2_pos a)) in *. set (d2 := Z.pos (digits2_pos b)) in *.
  assert (0 < d1 <= 500).
  { split; [subst d1; lia|].
    assert (d1 - 1 < 500) by (apply (Z.pow_lt_mono_r_iff 2); lia). lia. }
  assert (0 < d2 <= 500).
  { split; [subst d2; lia|].
    assert (d2 - 1 < 500) by (apply (Z.pow_lt_mono_r_iff 2); lia). lia. }
  rewrite !Z.add_0_r, Z.sub_0_r.
  unfold fexp, SpecFloat.emin, prec, emax.
  set (e' := Z.min (Z.max (d1 - d2 - 53) (3 - 1024 - 53)) 0).
  assert (He' : e' = Z.min (d1 - d2 - 53) 0) by (subst e'; lia).
  set (sh := 0 - e').
  assert (Hsh : 0 <= sh /\ 53 + d2 - d1 <= sh /\ sh <= 600) by (subst sh; lia).
  assert (Em : match sh with
               | 0 => Z.pos a
               | Z.pos _ => Z.shiftl (Z.pos a) sh
               | Z.neg _ => 0
               end = Z.pos a * 2 ^ sh).
  { destruct sh as [|k|k] eqn:Ek; [lia | | lia].
    now rewrite Z.shiftl_mul_pow2 by lia. }
  rewrite Em, div_eucl_div.
  set (q := Z.pos a * 2 ^ sh / Z.pos b).
  assert (P1 : 2 ^ (52 + d2) <= Z.pos a * 2 ^ sh).
  { apply Z.le_trans with (2 ^ (d1 - 1) * 2 ^ sh).
    - rewrite <- Z.pow_add_r by lia. apply Z.pow_le_mono_r; lia.
    - apply Z.mul_le_mono_nonneg_r; lia. }
  assert (P2 : Z.pos a * 2 ^ sh < 2 ^ (d1 + sh)).
  { rewrite Z.pow_add_r by lia. apply Z.mul_lt_mono_pos_r; lia. }
  assert (Q1 : 2 ^ 52 <= q).
  { unfold q. apply Z.div_le_lower_bound; [lia|].
    eapply Z.le_trans; [|exact P1].
    rewrite Z.pow_add_r by lia. rewrite Z.mul_comm.
    apply Z.mul_le_mono_nonneg_l; lia. }
  assert (Q2 : q < 2 ^ (d1 + sh)).
  { unfold q. apply Z.div_lt_upper_bound; [lia|].
    eapply Z.lt_le_trans; [exact P2|].
    rewrite <- (Z.mul_1_l (2 ^ (d1 + sh))) at 1.
    apply Z.mul_le_mono_nonneg_r; lia. }
  destruct q as [|pq|pq] eqn:Eq; try lia.
  pose proof (digits2_bounds pq) as Dq.
  set (dq := Z.pos (digits2_pos pq)) in *.
  assert (53 <= dq <= d1 + sh).
  { assert (dq - 1 < d1 + sh) by (apply (Z.pow_lt_mono_r_iff 2); lia).
    assert (52 < dq) by (apply (Z.pow_lt_mono_r_iff 2); lia). lia. }
  destruct (binary_round_aux_normal false pq e'
              (new_location (Z.pos b) (Z.pos a * 2 ^ sh mod Z.pos b)))
    as (m' & e'' & R & Hm' & Hc); fold dq; try lia.
  exists m', e''. split; [exact R|]. apply valid_normal; [lia|].
  fold dq in Hc. lia.
Qed.

End Binary64.

(** ** The bounds of the rate *)

Section Bounds.

Lemma adjust_bounded (s s' : NetworkSimulator) :
  bounded_state s -> adjust_error_rate s = Ok s' -> bounded_state s'.
Proof.
  intros Hs. pose proof Hs as (Hmin & Hmax & Hlo & Hhi).
  rewrite Hmin in Hlo. rewrite Hmax in Hhi.
  unfold adjust_error_rate.
  destruct (_ >=? _); [|now intros [= <-]].
  destruct (int_truediv _ _) as [f | e]; [cbn [bind] | discriminate].
  destruct (PrimFloat.ltb 0.3 f).
  - intros [= <-]. unfold bounded_state, in_bounds; cbn. rewrite Hmin, Hmax.
    split; [reflexivity|]. split; [reflexivity|].
    unfold py_max. destruct (PrimFloat.ltb 0.05 (error_rate s * 0.8)) eqn:E.
    + split; [now apply leb_of_ltb | now apply decrease_below_max].
    + split; reflexivity.
  - destruct (PrimFloat.ltb f 0.1).
    + intros [= <-]. unfold bounded_state, in_bounds; cbn. rewrite Hmin, Hmax.
      split; [reflexivity|]. split; [reflexivity|].
      unfold py_min. destruct (PrimFloat.ltb (error_rate s * 1.2) 0.5) eqn:E.
      * split; [now apply increase_above_min | now apply leb_of_ltb].
      * split; reflexivity.
    + now intros [= <-].
Qed.

Lemma step_bounded (s s' : NetworkSimulator) :
  bounded_state s -> step s s' -> bounded_state s'.
Proof.
  intros Hs Hstep. destruct Hstep as [s1 latency decoded | s1 | s1 s2 Ha].
  - exact Hs.
  - exact Hs.
  - now apply (adjust_bounded s1).
Qed.

Lemma reachable_bounded (s s' : NetworkSimulator) :
  bounded_state s -> reachable s s' -> bounded_state s'.
Proof.
  intros Hs H; induction H as [|s1 s2 _ IH Hstep]; [assumption|].
  now apply (step_bounded s1).
Qed.

Lemma reachable_trans (a b c : NetworkSimulator) :
  reachable a b -> reachable b c -> reachable a c.
Proof.
  intros Hab Hbc; induction Hbc as [|s1 s2 _ IH Hstep]; [assumption|].
  now apply (reach_step a s1).
Qed.

(** Every attempt is a sequence of steps. *)
Lemma transmit_reachable self env rnd disk_ok packet :
  reachable self (transmit self env rnd disk_ok packet).
Proof.
  assert (fail : forall s, reachable self s -> reachable self (record_failure s))
    by (intros s Hs; apply (reach_step self s); [assumption | constructor]).
  destruct (Packet.encode packet) as [encoded | e] eqn:He.
  - destruct (decode_returns (corrupt_data self rnd encoded)) as [v Hv].
    rewrite (transmit_after_decode _ _ _ _ _ _ _ He Hv). unfold after_decode.
    set (recorded := record_outcome self _ v).
    assert (Hr : reachable self recorded)
      by (apply (reach_step self self); constructor).
    destruct (adjust_error_rate recorded) as [adjusted | e] eqn:Ha.
    + assert (Hadj : reachable self adjusted)
        by (apply (reach_step self recorded); [assumption | now constructor]).
      destruct (save_statistics adjusted disk_ok); auto.
    + auto.
  - rewrite (transmit_encode_raises _ _ _ _ _ _ He). apply fail. constructor.
Qed.

Lemma run_reachable (l : list Attempt) (s : NetworkSimulator) :
  reachable s (run s l).
Proof.
  revert s; induction l as [|a l IH]; intros s; cbn; [constructor|].
  eapply reachable_trans; [|apply IH]. apply transmit_reachable.
Qed.

End Bounds.

(** C2, as the code has it.  When the rate given to the constructor lies
    between [min_error_rate = 0.05] and [max_error_rate = 0.5], the rate
    lies between them after every sequence of recorded outcomes and calls
    of the controller, and so after every run of attempts; the
    constructor stores the rate it is given. *)
Theorem rate_stays_in_bounds :
  forall rate : float,
    PrimFloat.leb 0.05 rate = true ->
    PrimFloat.leb rate 0.5 = true ->
    in_bounds (__init__ rate) /\
    (forall s, reachable (__init__ rate) s -> in_bounds s) /\
    (forall attempts, in_bounds (run (__init__ rate) attempts)).
Proof.
  intros rate Hlo Hhi.
  assert (H0 : bounded_state (__init__ rate))
    by (unfold bounded_state, in_bounds; cbn; auto).
  split; [apply H0|]. split.
  - intros s Hs. now apply (reachable_bounded _ s H0).
  - intros attempts. apply (reachable_bounded _ _ H0). apply run_reachable.
Qed.

Lemma rate_stays_in_bounds_witness :
  in_bounds (__init__ 0.2) /\
  (forall s, reachable (__init__ 0.2) s -> in_bounds s) /\
  (forall attempts, in_bounds (run (__init__ 0.2) attempts)).
Proof.
  apply (rate_stays_in_bounds 0.2); reflexivity.
Defined.

(** C2, as the specification states it, fails: the constructor does not
    clamp its argument, so the rate [0.9] is out of bounds right after
    construction. *)
Lemma rate_bounds_counterexample :
  ~ (forall (rate : float) (s : NetworkSimulator),
       reachable (__init__ rate) s -> in_bounds s).
Proof.
  intros H. destruct (H 0.9%float (__init__ 0.9) (reach_refl _)) as [_ Hhi].
  vm_compute in Hhi. discriminate.
Qed.

(** ** Latencies *)

Section Latency.

Lemma transmit_zero_latencies self env rnd disk_ok packet :
  is_finite (now env) = true ->
  zero_latencies self ->
  zero_latencies (transmit self env rnd disk_ok packet) /\
  (length (packet_loss (transmit self env rnd disk_ok packet))
   <= length (packet_loss self) + 2)%nat.
Proof.
  intros Hfin Hz. destruct (Packet.encode packet) as [encoded | e] eqn:He.
  - destruct (decode_returns (corrupt_data self rnd encoded)) as [v Hv].
    rewrite (transmit_after_decode _ _ _ _ _ _ _ He Hv).
    destruct (after_decode_histories self env disk_ok v) as (Hl & Hp).
    unfold zero_latencies. rewrite Hl. split.
    + apply Forall_app. split; [exact Hz|].
      constructor; [now apply sub_self | constructor].
    + destruct Hp as [[-> _] | [-> _]]; rewrite !length_app; cbn; lia.
  - rewrite (transmit_encode_raises _ _ _ _ _ _ He). split; [exact Hz|].
    cbn. rewrite length_app; cbn; lia.
Qed.

Lemma run_zero_latencies (l : list Attempt) (s : NetworkSimulator) :
  Forall (fun a => is_finite (now (at_env a)) = true) l ->
  zero_latencies s ->
  zero_latencies (run s l) /\
  (length (packet_loss (run s l)) <= length (packet_loss s) + 2 * length l)%nat.
Proof.
  intros Hl; revert s; induction Hl as [|a l Ha _ IH]; intros s Hs; cbn [run fold_left].
  - split; [exact Hs | cbn; lia].
  - destruct (transmit_zero_latencies s (at_env a) (at_draws a) (at_disk_ok a)
                (at_packet a) Ha Hs) as [Hz Hn].
    destruct (IH _ Hz) as [Hz' Hn']. fold (attempt s a) in *.
    split; [exact Hz'|]. cbn [length]. unfold run in *. lia.
Qed.

Lemma sum_bools_bounds (l : list bool) : 0 <= sum_bools l <= Z.of_nat (length l).
Proof.
  rewrite sum_bools_count. pose proof (count_occ_le_length l). lia.
Qed.

Lemma float_of_Z_pos (n : Z) :
  0 < n < 2 ^ 1000 ->
  exists f m e, float_of_Z n = Ok f /\ Prim2SF f = S754_finite false m e.
Proof.
  intros Hn. destruct n as [|p|p]; try lia.
  destruct (normalize_pos p) as (m & e & R & V); [lia|].
  unfold float_of_Z. rewrite R.
  exists (SF2Prim (S754_finite false m e)), m, e.
  split; [reflexivity|]. now apply FloatAxioms.Prim2SF_SF2Prim.
Qed.

Lemma int_truediv_returns (a b : Z) :
  0 <= a < 2 ^ 500 -> 0 < b < 2 ^ 500 -> exists f, int_truediv a b = Ok f.
Proof.
  intros Ha Hb. unfold int_truediv.
  replace (b =? 0) with false by (symmetry; apply Z.eqb_neq; lia).
  destruct b as [|pb|pb]; try lia. destruct a as [|pa|pa]; try lia.
  - cbn. eauto.
  - cbn [raw_of_Z].
    destruct (div_pos_normal pa pb) as (m & e & R & _); [lia | lia |].
    rewrite R. eauto.
Qed.

Lemma zero_over_positive (f : float) (m : positive) (e : Z) :
  Prim2SF f = S754_finite false m e -> (0 / f)%float = 0%float.
Proof.
  intros Hf. apply FloatAxioms.Prim2SF_inj.
  rewrite FloatAxioms.div_spec, Hf. reflexivity.
Qed.

End Latency.

(** C10.  With a clock that shows a finite time at every attempt, every
    latency appended to the latency history is [0.0]: [transmit] reads
    [env.now] twice without yielding in between.  So every snapshot taken
    when there is data is returned with [average_latency] equal to
    [0.0].  (The bound on the number of attempts is that of a Python
    list.) *)
Theorem latency_is_zero :
  forall (rate : float) (attempts : list Attempt),
    Forall (fun a => is_finite (now (at_env a)) = true) attempts ->
    Z.of_nat (length attempts) < 2 ^ 63 ->
    Forall (fun latency => latency = 0%float)
           (latency_data (run (__init__ rate) attempts)) /\
    (latency_data (run (__init__ rate) attempts) <> [] ->
     exists total successful loss_rate current,
       get_statistics (run (__init__ rate) attempts)
       = Ok (Stats total successful 0 loss_rate current)).
Proof.
  intros rate attempts Hfin Hlen.
  destruct (run_zero_latencies attempts (__init__ rate) Hfin) as [Hz Hn];
    [constructor|].
  destruct (run_counted attempts (__init__ rate)) as [Hc1 Hc2];
    [unfold counted; cbn; lia|].
  set (s := run (__init__ rate) attempts) in *. cbn [__init__ packet_loss length] in Hn.
  unfold zero_latencies in Hz.
  split; [exact Hz|]. intros Hne.
  unfold get_statistics.
  destruct (latency_data s) as [|x lat] eqn:El; [congruence|].
  assert (Hl : 0 < Z.of_nat (length (x :: lat)) < 2 ^ 1000).
  { split; [cbn [length]; lia|].
    apply Z.le_lt_trans with (2 ^ 64); [lia | reflexivity]. }
  destruct (float_of_Z_pos _ Hl) as (f & m & e & Hf & Hm). rewrite Hf; cbn [bind].
  assert (Hp : 0 < Z.of_nat (length (packet_loss s))) by (cbn [length] in Hc2; lia).
  pose proof (sum_bools_bounds (packet_loss s)) as Hs.
  destruct (int_truediv_returns (sum_bools (packet_loss s))
              (Z.of_nat (length (packet_loss s)))) as [lr Hlr].
  { split; [lia|]. apply Z.le_lt_trans with (2 ^ 64); [lia | reflexivity]. }
  { split; [lia|]. apply Z.le_lt_trans with (2 ^ 64); [lia | reflexivity]. }
  rewrite Hlr; cbn [bind]. unfold sum_floats.
  rewrite sum_zeros by exact Hz. rewrite (zero_over_positive f m e Hm).
  eauto.
Qed.

Lemma latency_is_zero_witness :
  Forall (fun latency => latency = 0%float)
    (latency_data
       (run (__init__ 0.2)
          [Build_Attempt (Build_Environment 0.25) (Build_Draws 0.75 0 1) true
             (Packet.Packet (PStr (codes "a")))])) /\
  (latency_data
     (run (__init__ 0.2)
        [Build_Attempt (Build_Environment 0.25) (Build_Draws 0.75 0 1) true
           (Packet.Packet (PStr (codes "a")))]) <> [] ->
   exists total successful loss_rate current,
     get_statistics
       (run (__init__ 0.2)
          [Build_Attempt (Build_Environment 0.25) (Build_Draws 0.75 0 1) true
             (Packet.Packet (PStr (codes "a")))])
     = Ok (Stats total successful 0 loss_rate current)).
Proof.
  apply (latency_is_zero 0.2
           [Build_Attempt (Build_Environment 0.25) (Build_Draws 0.75 0 1) true
              (Packet.Packet (PStr (codes "a")))]).
  - repeat constructor.
  - reflexivity.
Defined.

(** ** The round trip of the codec *)

Section Strings.

Lemma land_disjoint (a b k : Z) :
  0 <= k -> 0 <= b < 2 ^ k -> Z.land (Z.shiftl a k) b = 0.
Proof.
  intros Hk Hb. apply Z.bits_inj'. intros n Hn.
  rewrite Z.land_spec, Z.bits_0.
  destruct (Z.ltb_spec n k) as [Hlt | Hge].
  - now rewrite Z.shiftl_spec_low.
  - destruct (Z.eq_dec b 0) as [-> | Hb0]; [now rewrite Z.bits_0, andb_false_r|].
    rewrite (Z.bits_above_log2 b n), andb_false_r; [reflexivity | lia |].
    apply Z.log2_lt_pow2; [lia|].
    apply Z.lt_le_trans with (2 ^ k); [lia|]. apply Z.pow_le_mono_r; lia.
Qed.

(** Bits put side by side add up. *)
Lemma lor_shiftl (a b k : Z) :
  0 <= k -> 0 <= b < 2 ^ k -> Z.lor (Z.shiftl a k) b = a * 2 ^ k + b.
Proof.
  intros Hk Hb. rewrite <- Z.lxor_lor by now apply land_disjoint.
  rewrite <- Z.add_nocarry_lxor by now apply land_disjoint.
  now rewrite Z.shiftl_mul_pow2.
Qed.

Lemma lor_high (h b k : Z) :
  0 <= k -> 0 <= b < 2 ^ k -> Z.lor (h * 2 ^ k) b = h * 2 ^ k + b.
Proof.
  intros Hk Hb. rewrite <- (lor_shiftl h b k) by assumption.
  now rewrite Z.shiftl_mul_pow2.
Qed.

Lemma land_low (n k : Z) : 0 <= k -> Z.land n (2 ^ k - 1) = n mod 2 ^ k.
Proof.
  intros Hk. rewrite <- Z.land_ones by lia. f_equal.
  rewrite Z.ones_equiv. lia.
Qed.

Lemma nibble (n k : Z) :
  0 <= k -> Z.land (Z.shiftr n k) 15 = (n / 2 ^ k) mod 16.
Proof.
  intros Hk. rewrite Z.shiftr_div_pow2 by lia. apply (land_low _ 4). lia.
Qed.

Lemma hex_value_digit (d : Z) :
  0 <= d < 16 -> hex_value (hex_digit d) = Some d.
Proof.
  intros H.
  assert (d = 0 \/ d = 1 \/ d = 2 \/ d = 3 \/ d = 4 \/ d = 5 \/ d = 6 \/ d = 7
          \/ d = 8 \/ d = 9 \/ d = 10 \/ d = 11 \/ d = 12 \/ d = 13 \/ d = 14
          \/ d = 15) as Hd by lia.
  repeat (destruct Hd as [-> | Hd]; [reflexivity|]). now subst d.
Qed.

Lemma hex_digit_ascii (d : Z) : 0 <= d < 16 -> 48 <= hex_digit d <= 102.
Proof. intros H. unfold hex_digit. destruct (d <? 10) eqn:E; lia. Qed.

(** The four digits of an escape spell the number escaped. *)
Lemma u_escape_value (n : Z) :
  0 <= n < 65536 ->
  exists h1 h2 h3 h4,
    u_escape n = [92; 117; h1; h2; h3; h4] /\ hex4 h1 h2 h3 h4 = Some n.
Proof.
  intros Hn. unfold u_escape. do 4 eexists. split; [reflexivity|].
  unfold hex4. rewrite !nibble by lia.
  replace (Z.land n 15) with (n mod 16) by (symmetry; apply (land_low n 4); lia).
  rewrite !hex_value_digit by (apply Z.mod_pos_bound; lia).
  f_equal.
  rewrite (lor_shiftl _ _ 4); [|lia | apply Z.mod_pos_bound; lia].
  rewrite (lor_shiftl _ _ 8);
    [|lia | change (2 ^ 4) with 16; change (2 ^ 8) with 256;
            Z.div_mod_to_equations; lia].
  rewrite (lor_shiftl _ _ 12);
    [|lia | change (2 ^ 4) with 16; change (2 ^ 8) with 256;
            change (2 ^ 12) with 4096; Z.div_mod_to_equations; lia].
  change (2 ^ 4) with 16; change (2 ^ 8) with 256; change (2 ^ 12) with 4096.
  Z.div_mod_to_equations; lia.
Qed.

(** A character beyond the basic plane and its two surrogates. *)
Lemma surrogate_pair (c : Z) :
  0x10000 <= c <= 0x10FFFF ->
  let n := c - 0x10000 in
  let hi := Z.lor 0xd800 (Z.land (Z.shiftr n 10) 0x3ff) in
  let lo := Z.lor 0xdc00 (Z.land n 0x3ff) in
  0xd800 <= hi <= 0xdbff /\ 0xdc00 <= lo <= 0xdfff /\
  join_surrogates hi lo = c.
Proof.
  intros Hc n hi lo.
  assert (Ea : Z.land (Z.shiftr n 10) 0x3ff = n / 1024).
  { rewrite Z.shiftr_div_pow2 by lia. rewrite (land_low _ 10) by lia.
    change (2 ^ 10) with 1024. apply Z.mod_small. subst n.
    Z.div_mod_to_equations; lia. }
  assert (Eb : Z.land n 0x3ff = n mod 1024) by (apply (land_low n 10); lia).
  assert (Ehi : hi = 0xd800 + n / 1024).
  { subst hi. rewrite Ea. change 0xd800 with (54 * 2 ^ 10).
    apply lor_high; [lia|]. subst n. change (2 ^ 10) with 1024.
    Z.div_mod_to_equations; lia. }
  assert (Elo : lo = 0xdc00 + n mod 1024).
  { subst lo. rewrite Eb. change 0xdc00 with (55 * 2 ^ 10).
    apply lor_high; [lia|]. change (2 ^ 10) with 1024.
    apply Z.mod_pos_bound; lia. }
  split; [|split].
  - rewrite Ehi. subst n. Z.div_mod_to_equations; lia.
  - rewrite Elo. Z.div_mod_to_equations; lia.
  - unfold join_surrogates. rewrite Ehi, Elo.
    replace (0xd800 + n / 1024 - 0xd800) with (n / 1024) by lia.
    replace (0xdc00 + n mod 1024 - 0xdc00) with (n mod 1024) by lia.
    rewrite (lor_shiftl _ _ 10); [|lia | apply Z.mod_pos_bound; lia].
    change (2 ^ 10) with 1024. subst n. Z.div_mod_to_equations; lia.
Qed.

Lemma scan_u_escape (n : Z) (tl : text) :
  0 <= n < 65536 ->
  (is_high n = true -> no_low_escape_ahead tl) ->
  scanstring (u_escape n ++ tl) = push n (scanstring tl).
Proof.
  intros Hn Hahead.
  destruct (u_escape_value n Hn) as (h1 & h2 & h3 & h4 & -> & Hhex).
  cbn [app scanstring]. change (92 =? 34) with false. change (92 =? 92) with true.
  change (117 =? 117) with true. cbv iota. rewrite Hhex.
  destruct (is_high n) eqn:Eh; [|reflexivity].
  destruct tl as [|b [|u [|g1 [|g2 [|g3 [|g4 r]]]]]]; try reflexivity.
  destruct ((b =? 92) && (u =? 117)) eqn:Ebu; [|reflexivity].
  apply andb_true_iff in Ebu as [Eb Eu].
  apply Z.eqb_eq in Eb, Eu. subst b u.
  destruct (Hahead eq_refl g1 g2 g3 g4 r eq_refl) as (n2 & -> & ->).
  reflexivity.
Qed.

Lemma scan_pair (hi lo : Z) (tl : text) :
  0xd800 <= hi <= 0xdbff -> 0xdc00 <= lo <= 0xdfff ->
  scanstring (u_escape hi ++ u_escape lo ++ tl)
  = push (join_surrogates hi lo) (scanstring tl).
Proof.
  intros Hhi Hlo.
  destruct (u_escape_value hi ltac:(lia)) as (h1 & h2 & h3 & h4 & -> & Hh).
  destruct (u_escape_value lo ltac:(lia)) as (l1 & l2 & l3 & l4 & -> & Hl).
  cbn [app scanstring]. change (92 =? 34) with false. change (92 =? 92) with true.
  change (117 =? 117) with true. cbv iota. rewrite Hh.
  replace (is_high hi) with true
    by (symmetry; unfold is_high; apply andb_true_iff; split; apply Z.leb_le; lia).
  cbn [andb]. rewrite Hl.
  replace (is_low lo) with true
    by (symmetry; unfold is_low; apply andb_true_iff; split; apply Z.leb_le; lia).
  reflexivity.
Qed.

Lemma scan_plain (c : Z) (tl : text) :
  32 <= c -> c <> 34 -> c <> 92 ->
  scanstring (c :: tl) = push c (scanstring tl).
Proof.
  intros H1 H2 H3. cbn [scanstring].
  replace (c =? 34) with false by (symmetry; now apply Z.eqb_neq).
  replace (c =? 92) with false by (symmetry; now apply Z.eqb_neq).
  replace (c <? 32) with false by (symmetry; apply Z.ltb_ge; lia).
  now rewrite andb_false_r.
Qed.

(** The scanner reads the escape of a character back as the character. *)
Lemma scan_escape_char (c : Z) (tl : text) :
  0 <= c <= 0x10FFFF ->
  (is_high c = true -> no_low_escape_ahead tl) ->
  scanstring (escape_char c ++ tl) = push c (scanstring tl).
Proof.
  intros Hc Hahead. unfold escape_char.
  destruct (Z.eqb_spec c 34) as [-> | N1]; [reflexivity|].
  destruct (Z.eqb_spec c 92) as [-> | N2]; [reflexivity|].
  destruct (Z.eqb_spec c 10) as [-> | N3]; [reflexivity|].
  destruct (Z.eqb_spec c 13) as [-> | N4]; [reflexivity|].
  destruct (Z.eqb_spec c 9) as [-> | N5]; [reflexivity|].
  destruct (Z.eqb_spec c 8) as [-> | N6]; [reflexivity|].
  destruct (Z.eqb_spec c 12) as [-> | N7]; [reflexivity|].
  destruct ((32 <=? c) && (c <=? 126)) eqn:Ep.
  - apply andb_true_iff in Ep as [Ep _]. apply Z.leb_le in Ep.
    now apply scan_plain.
  - destruct (Z.ltb_spec c 0x10000) as [Hlt | Hge].
    + apply scan_u_escape; [lia | assumption].
    + destruct (surrogate_pair c ltac:(lia)) as (Hhi & Hlo & Hj).
      cbv zeta in Hhi, Hlo, Hj. cbv zeta. rewrite <- app_assoc.
      rewrite scan_pair by assumption. now rewrite Hj.
Qed.

Lemma escape_char_head (c : Z) :
  0 <= c <= 0x10FFFF ->
  (exists x, escape_char c = [92; x] /\ x <> 117) \/
  (escape_char c = [c] /\ c <> 92) \/
  (c < 0x10000 /\ escape_char c = u_escape c) \/
  (exists hi lo, 0xd800 <= hi <= 0xdbff /\
                 escape_char c = u_escape hi ++ u_escape lo).
Proof.
  intros Hc. unfold escape_char.
  destruct (Z.eqb_spec c 34) as [-> | N1]; [left; eexists; split; [reflexivity | lia]|].
  destruct (Z.eqb_spec c 92) as [-> | N2]; [left; eexists; split; [reflexivity | lia]|].
  destruct (Z.eqb_spec c 10) as [-> | N3]; [left; eexists; split; [reflexivity | lia]|].
  destruct (Z.eqb_spec c 13) as [-> | N4]; [left; eexists; split; [reflexivity | lia]|].
  destruct (Z.eqb_spec c 9) as [-> | N5]; [left; eexists; split; [reflexivity | lia]|].
  destruct (Z.eqb_spec c 8) as [-> | N6]; [left; eexists; split; [reflexivity | lia]|].
  destruct (Z.eqb_spec c 12) as [-> | N7]; [left; eexists; split; [reflexivity | lia]|].
  destruct ((32 <=? c) && (c <=? 126)) eqn:Ep; [right; left; now split|].
  destruct (Z.ltb_spec c 0x10000) as [Hlt | Hge]; [right; right; left; now split|].
  right; right; right.
  destruct (surrogate_pair c ltac:(lia)) as (Hhi & Hlo & Hj).
  do 2 eexists. split; [exact Hhi | reflexivity].
Qed.

Lemma ahead_of_text (s : text) (rest : text) :
  match s with
  | c :: _ => 0 <= c <= 0x10FFFF /\ is_low c = false
  | [] => True
  end ->
  no_low_escape_ahead (flat_map escape_char s ++ 34 :: rest).
Proof.
  intros Hs g1 g2 g3 g4 r E. destruct s as [|c s]; [discriminate|].
  destruct Hs as [Hc Hlow]. cbn [flat_map] in E. rewrite <- app_assoc in E.
  destruct (escape_char_head c Hc)
    as [(x & Ex & Hx) | [[Ex Hx] | [[Hlt Ex] | (hi & lo & Hhi & Ex)]]];
    rewrite Ex in E.
  - cbn in E. injection E as E1 E2. congruence.
  - cbn in E. injection E as E1 E2. congruence.
  - destruct (u_escape_value c ltac:(lia)) as (h1 & h2 & h3 & h4 & Eu & Hhex).
    rewrite Eu in E. cbn in E. injection E as <- <- <- <- _.
    exists c. now split.
  - destruct (u_escape_value hi ltac:(lia)) as (h1 & h2 & h3 & h4 & Eu & Hhex).
    rewrite <- app_assoc, Eu in E. cbn in E. injection E as <- <- <- <- _.
    exists hi. split; [assumption|].
    unfold is_low. apply andb_false_iff. left. apply Z.leb_gt. lia.
Qed.

(** The scanner reads a quoted string back. *)
Lemma scanstring_escaped (s rest : text) :
  plain_text s = true ->
  scanstring (flat_map escape_char s ++ 34 :: rest) = Ok (s, rest).
Proof.
  induction s as [|c s IH]; intros Hs.
  - reflexivity.
  - cbn [plain_text] in Hs.
    apply andb_true_iff in Hs as [Hs Hs'].
    apply andb_true_iff in Hs as [Hs Hpair].
    apply andb_true_iff in Hs as [Hc1 Hc2].
    apply Z.leb_le in Hc1, Hc2.
    cbn [flat_map]. rewrite <- app_assoc.
    rewrite scan_escape_char; [|lia|].
    + rewrite IH by assumption. reflexivity.
    + intros Hhigh. apply ahead_of_text.
      destruct s as [|c2 s]; [exact I|].
      rewrite Hhigh in Hpair. cbn [andb] in Hpair.
      apply negb_true_iff in Hpair. split; [|exact Hpair].
      cbn [plain_text] in Hs'.
      apply andb_true_iff in Hs' as [Hs' _].
      apply andb_true_iff in Hs' as [Hs' _].
      apply andb_true_iff in Hs' as [H1 H2].
      apply Z.leb_le in H1, H2. lia.
Qed.

End Strings.

Section Numbers.

Lemma uint_chars_digits (u : Decimal.uint) :
  Forall (fun c => is_digit c = true) (uint_chars u).
Proof. induction u; cbn; constructor; auto. Qed.

Lemma uint_of_chars_chars (u : Decimal.uint) : uint_of_chars (uint_chars u) = u.
Proof. induction u; cbn; congruence. Qed.

Lemma span_digits_app (ds rest : text) :
  Forall (fun c => is_digit c = true) ds ->
  delimited rest ->
  span_digits (ds ++ rest) = (ds, rest).
Proof.
  intros Hds Hr. induction Hds as [|c ds Hc _ IH]; cbn [app span_digits].
  - destruct rest as [|c rest]; [reflexivity|]. cbn in Hr.
    cbn [span_digits].
    replace (is_digit c) with false; [reflexivity|].
    symmetry. unfold is_digit. destruct Hr as [-> | [-> | ->]]; reflexivity.
  - now rewrite Hc, IH.
Qed.

Lemma to_uint_head (p : positive) :
  exists c ds,
    uint_chars (Pos.to_uint p) = c :: ds /\ is_digit c = true /\ c <> 48.
Proof.
  assert (H : Pos.to_uint p = Decimal.unorm (Pos.to_uint p)).
  { rewrite <- (DecimalPos.Unsigned.to_of (Pos.to_uint p)).
    now rewrite DecimalPos.Unsigned.of_to. }
  pose proof (DecimalPos.Unsigned.to_uint_nonzero p) as Hnz.
  assert (Hh : Decimal.nzhead (Pos.to_uint p) <> Decimal.Nil).
  { intros E. apply Hnz. rewrite H. now apply unorm_0. }
  rewrite (unorm_nzhead _ Hh) in H.
  pose proof (nzhead_nonzero (Pos.to_uint p)) as Hd. rewrite <- H in Hd.
  destruct (Pos.to_uint p) eqn:E; cbn;
    try (do 2 eexists; split; [reflexivity | split; [reflexivity | lia]]).
  - exfalso. now apply Hh.
  - exfalso. now apply (Hd u).
Qed.

Lemma match_tail_delimited (neg : bool) (int rest : text) :
  delimited rest -> match_tail neg int rest = mkNumber neg int None None rest.
Proof.
  intros Hr. unfold match_tail, match_frac, match_exp.
  destruct rest as [|c rest]; [reflexivity|]. cbn in Hr.
  destruct Hr as [-> | [-> | ->]]; reflexivity.
Qed.

Lemma digits_value_to_uint (p : positive) :
  digits_value (uint_chars (Pos.to_uint p)) = Z.pos p.
Proof.
  unfold digits_value. rewrite uint_of_chars_chars. unfold Z.of_uint.
  now rewrite DecimalPos.Unsigned.of_to.
Qed.

(** The pattern of numbers matches the text of an int and nothing more. *)
Lemma match_number_int (z : Z) (rest : text) :
  Z.of_nat (length (int_digits z)) <= max_str_digits ->
  delimited rest ->
  exists n,
    match_number (int_repr z ++ rest) = Some n /\
    number_value n = Ok (JInt z) /\ nm_rest n = rest.
Proof.
  intros Hlen Hr. apply Z.ltb_ge in Hlen. revert Hlen.
  unfold int_digits, int_repr, Z.to_int. destruct z as [|p|p]; intros Hlen.
  - cbn. rewrite match_tail_delimited by assumption.
    eexists; split; [reflexivity|]. now split.
  - destruct (to_uint_head p) as (c & ds & E & Hc & Hc0).
    pose proof (uint_chars_digits (Pos.to_uint p)) as Hall. rewrite E in Hall.
    inversion Hall as [|c' ds' _ Hds]; subst.
    pose proof (digits_value_to_uint p) as Hv. rewrite E in Hv.
    rewrite E. unfold match_number. cbn [app].
    assert (c <> 45) by (unfold is_digit in Hc; lia).
    replace (c =? 45) with false by (symmetry; now apply Z.eqb_neq).
    replace (c =? 48) with false by (symmetry; now apply Z.eqb_neq).
    rewrite Hc, span_digits_app, match_tail_delimited by assumption.
    eexists; split; [reflexivity|]. split; [|reflexivity].
    rewrite E in Hlen.
    unfold number_value, parse_int, bind.
    cbn [nm_frac nm_exp nm_neg nm_int].
    rewrite Hlen. unfold signed. now rewrite Hv.
  - destruct (to_uint_head p) as (c & ds & E & Hc & Hc0).
    pose proof (uint_chars_digits (Pos.to_uint p)) as Hall. rewrite E in Hall.
    inversion Hall as [|c' ds' _ Hds]; subst.
    pose proof (digits_value_to_uint p) as Hv. rewrite E in Hv.
    rewrite E. unfold match_number. cbn [app]. change (45 =? 45) with true.
    cbv iota.
    replace (c =? 48) with false by (symmetry; now apply Z.eqb_neq).
    rewrite Hc, span_digits_app, match_tail_delimited by assumption.
    eexists; split; [reflexivity|]. split; [|reflexivity].
    rewrite E in Hlen.
    unfold number_value, parse_int, bind.
    cbn [nm_frac nm_exp nm_neg nm_int].
    rewrite Hlen. unfold signed. now rewrite Hv.
Qed.

Lemma int_repr_head (z : Z) :
  exists c t, int_repr z = c :: t /\ (c = 45 \/ is_digit c = true).
Proof.
  unfold int_repr, Z.to_int. destruct z as [|p|p].
  - do 2 eexists. split; [reflexivity|]. now right.
  - destruct (to_uint_head p) as (c & ds & E & Hc & _). rewrite E.
    do 2 eexists. split; [reflexivity|]. now right.
  - do 2 eexists. split; [reflexivity|]. now left.
Qed.

Lemma literal_none (c : Z) (s : text) :
  c <> 110 -> c <> 116 -> c <> 102 -> literal (c :: s) = None.
Proof.
  intros N1 N2 N3. unfold literal.
  change (codes "null") with [110; 117; 108; 108].
  change (codes "true") with [116; 114; 117; 101].
  change (codes "false") with [102; 97; 108; 115; 101].
  cbn [strip_prefix].
  replace (110 =? c) with false by (symmetry; apply Z.eqb_neq; lia).
  replace (116 =? c) with false by (symmetry; apply Z.eqb_neq; lia).
  replace (102 =? c) with false by (symmetry; apply Z.eqb_neq; lia).
  reflexivity.
Qed.

(** The scanner reads the text of an int back. *)
Lemma scan_int (z : Z) (fuel : nat) (rest : text) :
  Z.of_nat (length (int_digits z)) <= max_str_digits ->
  delimited rest ->
  scan_once (S fuel) (int_repr z ++ rest) = Ok (JInt z, rest).
Proof.
  intros Hlen Hr.
  destruct (match_number_int z rest Hlen Hr) as (n & Hm & Hv & Hrest).
  destruct (int_repr_head z) as (c & t & E & Hc). rewrite E in *.
  cbn [app] in *. cbn [scan_once].
  assert (Hne : c <> 34 /\ c <> 123 /\ c <> 91 /\ c <> 110 /\ c <> 116 /\ c <> 102).
  { unfold is_digit in Hc. lia. }
  destruct Hne as (N1 & N2 & N3 & N4 & N5 & N6).
  replace (c =? 34) with false by (symmetry; now apply Z.eqb_neq).
  replace (c =? 123) with false by (symmetry; now apply Z.eqb_neq).
  replace (c =? 91) with false by (symmetry; now apply Z.eqb_neq).
  rewrite literal_none by assumption.
  rewrite Hm, Hv, Hrest. reflexivity.
Qed.

End Numbers.

Section Payloads.

Lemma escape_char_ascii (c : Z) : is_ascii (escape_char c).
Proof.
  assert (U : forall n, is_ascii (u_escape n)).
  { intros n. unfold u_escape, is_ascii.
    assert (D : forall k, 0 <= k -> 0 <= hex_digit (Z.land (Z.shiftr n k) 15) < 128).
    { intros k Hk. rewrite nibble by lia.
      pose proof (hex_digit_ascii ((n / 2 ^ k) mod 16)
                    ltac:(apply Z.mod_pos_bound; lia)). lia. }
    pose proof (D 0 ltac:(lia)) as D0. rewrite Z.shiftr_0_r in D0.
    repeat constructor; try lia; try (apply D; lia). }
  unfold escape_char.
  destruct (c =? 34); [repeat constructor; lia|].
  destruct (c =? 92); [repeat constructor; lia|].
  destruct (c =? 10); [repeat constructor; lia|].
  destruct (c =? 13); [repeat constructor; lia|].
  destruct (c =? 9); [repeat constructor; lia|].
  destruct (c =? 8); [repeat constructor; lia|].
  destruct (c =? 12); [repeat constructor; lia|].
  destruct ((32 <=? c) && (c <=? 126)) eqn:Ep.
  - apply andb_true_iff in Ep as [H1 H2].
    apply Z.leb_le in H1, H2. repeat constructor; lia.
  - destruct (c <? 65536); [apply U|].
    apply Forall_app; split; apply U.
Qed.

Lemma quoted_ascii (s : text) : is_ascii (encode_basestring_ascii s).
Proof.
  unfold encode_basestring_ascii, is_ascii. constructor; [lia|].
  apply Forall_app; split; [|repeat constructor; lia].
  induction s as [|c s IH]; cbn [flat_map]; [constructor|].
  apply Forall_app; split; [apply escape_char_ascii | exact IH].
Qed.

Lemma uint_chars_ascii (u : Decimal.uint) : is_ascii (uint_chars u).
Proof. induction u; cbn; constructor; auto; lia. Qed.

Lemma join_items_ascii (ts : list text) :
  Forall is_ascii ts -> is_ascii (join_items ts).
Proof.
  induction 1 as [|a r Ha _ IH]; cbn [join_items]; [constructor|].
  unfold join_item. destruct (nonempty r); [|exact Ha].
  apply Forall_app; split; [exact Ha|].
  apply Forall_app; split; [repeat constructor; lia | exact IH].
Qed.

(** The text of a payload is ASCII. *)
Lemma text_of_ascii (p : pyval) : is_ascii (text_of p).
Proof.
  induction p using pyval_rect'; cbn [text_of].
  - repeat constructor; cbn; lia.
  - destruct b; repeat constructor; cbn; lia.
  - unfold int_repr. destruct (Z.to_int z);
      [|constructor; [lia|]]; apply uint_chars_ascii.
  - apply quoted_ascii.
  - constructor.
  - constructor; [lia|]. apply Forall_app; split; [|repeat constructor; lia].
    apply join_items_ascii. now apply Forall_map.
  - constructor; [lia|]. apply Forall_app; split; [|repeat constructor; lia].
    apply join_items_ascii. now apply Forall_map.
  - constructor; [lia|]. apply Forall_app; split; [|repeat constructor; lia].
    apply join_items_ascii. apply Forall_map.
    eapply Forall_impl; [|eassumption]. intros [k v] Hv. cbn [fst snd] in *.
    unfold pair_text. apply Forall_app; split; [apply quoted_ascii|].
    apply Forall_app; split; [repeat constructor; lia | exact Hv].
Qed.

Lemma utf8_ascii (t : text) :
  is_ascii t -> Utf8.encode t = Ok t /\ Utf8.decode t = Ok t.
Proof.
  induction 1 as [|c t Hc _ [IHe IHd]]; [now split|].
  cbn [Utf8.encode Utf8.decode]. rewrite IHe, IHd.
  unfold Utf8.encode_char.
  replace ((c <? 0) || (1114111 <? c)) with false
    by (symmetry; apply orb_false_iff; split; apply Z.ltb_ge; lia).
  replace (c <? 128) with true by (symmetry; apply Z.ltb_lt; lia).
  replace (0 <=? c) with true by (symmetry; apply Z.leb_le; lia).
  now split.
Qed.


Lemma text_of_opens (p : pyval) : json_native p = true -> opens_value (text_of p).
Proof.
  unfold opens_value.
  destruct p as [| b | z | s | b | l | l | d]; intros Hn; try discriminate;
    cbn [text_of].
  - do 2 eexists. split; [vm_compute; reflexivity|]. repeat split; lia.
  - destruct b;
      (do 2 eexists; split; [vm_compute; reflexivity|]; repeat split; lia).
  - destruct (int_repr_head z) as (c & t & -> & Hc).
    do 2 eexists. split; [reflexivity|]. unfold is_ws, is_digit in *.
    destruct Hc as [-> | Hc]; [repeat split; lia|].
    apply andb_true_iff in Hc as [H1 H2]. apply Z.leb_le in H1, H2.
    repeat split; lia.
  - do 2 eexists. split; [reflexivity|]. repeat split; lia.
  - do 2 eexists. split; [reflexivity|]. repeat split; lia.
  - do 2 eexists. split; [reflexivity|]. repeat split; lia.
Qed.

Lemma skip_ws_opens (t rest : text) :
  opens_value t -> skip_ws (t ++ rest) = t ++ rest.
Proof.
  intros (c & t' & -> & Hc & _). cbn [app skip_ws]. now rewrite Hc.
Qed.

End Payloads.

Section Dicts.

Lemma text_eqb_eq (a b : text) : text_eqb a b = true <-> a = b.
Proof.
  revert b; induction a as [|x a IH]; intros [|y b]; cbn; try easy.
  rewrite andb_true_iff, Z.eqb_eq, IH. split.
  - now intros [-> ->].
  - now intros [= -> ->].
Qed.

Lemma text_eqb_refl (a : text) : text_eqb a a = true.
Proof. now apply text_eqb_eq. Qed.

Lemma distinct_keys_NoDup {V : Type} (d : list (text * V)) :
  distinct_keys d = true -> NoDup (map fst d).
Proof.
  induction d as [|[k v] d IH]; cbn [distinct_keys map fst]; [constructor|].
  intros H. apply andb_true_iff in H as [Hk Hd]. constructor; [|auto].
  intros Hin. apply in_map_iff in Hin as ([k' v'] & Ek & Hin). cbn in Ek. subst k'.
  apply negb_true_iff in Hk.
  assert (existsb (fun kv => text_eqb (fst kv) k) d = true); [|congruence].
  apply existsb_exists. exists (k, v'). split; [assumption|]. apply text_eqb_refl.
Qed.

Lemma dict_set_fresh {V : Type} (d : list (text * V)) (k : text) (v : V) :
  ~ In k (map fst d) -> dict_set d k v = d ++ [(k, v)].
Proof.
  induction d as [|[k' v'] d IH]; intros Hk; [reflexivity|].
  cbn [dict_set app]. cbn [map fst In] in Hk.
  destruct (text_eqb k' k) eqn:E.
  - apply text_eqb_eq in E. tauto.
  - rewrite IH by tauto. reflexivity.
Qed.

Lemma py_dict_from {V : Type} (pairs acc : list (text * V)) :
  NoDup (map fst (acc ++ pairs)) ->
  fold_left (fun d kv => dict_set d (fst kv) (snd kv)) pairs acc = acc ++ pairs.
Proof.
  revert acc; induction pairs as [|[k v] pairs IH]; intros acc Hnd.
  - now rewrite List.app_nil_r.
  - cbn [fold_left fst snd]. rewrite dict_set_fresh.
    + rewrite IH; rewrite <- app_assoc; [reflexivity | exact Hnd].
    + rewrite map_app in Hnd. cbn [map fst] in Hnd.
      apply NoDup_remove_2 in Hnd. intros Hin. apply Hnd.
      apply in_or_app. now left.
Qed.

(** [dict(pairs)] keeps pairs with distinct keys as they are. *)
Lemma py_dict_distinct {V : Type} (pairs : list (text * V)) :
  NoDup (map fst pairs) -> py_dict pairs = pairs.
Proof. intros H. unfold py_dict. now rewrite py_dict_from. Qed.


End Dicts.

Section Scanning.

Lemma join_cons_cons (a b : text) (r : list text) :
  join_items (a :: b :: r) = a ++ 44 :: 32 :: join_items (b :: r).
Proof. reflexivity. Qed.

Lemma join_opens (a : text) (r : list text) :
  opens_value a -> opens_value (join_items (a :: r)).
Proof.
  intros (c & t & -> & H). destruct r as [|b r].
  - now exists c, t.
  - rewrite join_cons_cons. now exists c, (t ++ 44 :: 32 :: join_items (b :: r)).
Qed.

Lemma skip_ws_keep (c : Z) (s : text) : is_ws c = false -> skip_ws (c :: s) = c :: s.
Proof. intros H. cbn [skip_ws]. now rewrite H. Qed.

Lemma skip_ws_space (s : text) : skip_ws (32 :: s) = skip_ws s.
Proof. reflexivity. Qed.

Lemma scan_items (l : list pyval) :
  Forall reads_back l ->
  forallb json_native l = true ->
  l <> [] ->
  forall (fuel : nat) (rest : text),
    (fold_right (fun x n => S (scan_calls x + n)) O l <= fuel)%nat ->
    array_values fuel (join_items (map text_of l) ++ 93 :: rest)
    = Ok (map to_json l, rest).
Proof.
  intros H; induction H as [|x l Hx Hl IH]; intros Hn Hne fuel rest Hf;
    [congruence|].
  cbn [forallb] in Hn. apply andb_true_iff in Hn as [Hx' Hl'].
  cbn [fold_right] in Hf. destruct fuel as [|f]; [lia|].
  cbn [array_values]. destruct l as [|y l'].
  - cbn [map join_items join_item nonempty].
    rewrite (Hx Hx' f (93 :: rest)); [|cbn [fold_right] in Hf; lia | cbn; auto].
    reflexivity.
  - cbn [map]. rewrite join_cons_cons, <- app_assoc. cbn [app].
    rewrite (Hx Hx' f); [|cbn [fold_right] in Hf; lia | cbn; auto].
    cbn [bind]. rewrite skip_ws_keep by reflexivity.
    change (44 =? 93) with false. change (44 =? 44) with true. cbv iota.
    rewrite skip_ws_space.
    cbn [forallb] in Hl'. pose proof Hl' as Hy.
    apply andb_true_iff in Hy as [Hy _].
    rewrite skip_ws_opens by (apply join_opens; now apply text_of_opens).
    change (text_of y :: map text_of l') with (map text_of (y :: l')).
    rewrite IH; [reflexivity | assumption | congruence |].
    cbn [fold_right] in Hf |- *. lia.
Qed.

Lemma scan_pair_step (k : text) (v : pyval) (f : nat) (tail : text) :
  plain_text k = true -> reads_back v -> json_native v = true ->
  (scan_calls v <= f)%nat -> delimited tail ->
  object_pairs (S f)
    (flat_map escape_char k ++ 34 :: 58 :: 32 :: text_of v ++ tail)
  = match skip_ws tail with
    | d :: s4 =>
        if d =? 125 then Ok ([(k, to_json v)], s4)
        else if d =? 44 then
          match skip_ws s4 with
          | q :: s5 =>
              if q =? 34 then
                '(pairs, r) <- object_pairs f s5 ;;
                Ok ((k, to_json v) :: pairs, r)
              else Raise JSONDecodeError
          | [] => Raise JSONDecodeError
          end
        else Raise JSONDecodeError
    | [] => Raise JSONDecodeError
    end.
Proof.
  intros Hk Hv Hn Hf Ht. cbn [object_pairs].
  rewrite scanstring_escaped by assumption. cbn [bind].
  rewrite skip_ws_keep by reflexivity. change (58 =? 58) with true. cbv iota.
  rewrite skip_ws_space, skip_ws_opens by now apply text_of_opens.
  rewrite (Hv Hn f tail Hf Ht). reflexivity.
Qed.

Lemma pair_text_open (k t rest : text) :
  pair_text k t ++ rest
  = 34 :: flat_map escape_char k ++ 34 :: 58 :: 32 :: t ++ rest.
Proof.
  unfold pair_text, encode_basestring_ascii. cbn [app].
  now rewrite <- !app_assoc.
Qed.

Lemma scan_pairs (d : list (text * pyval)) :
  Forall (fun kv => reads_back (snd kv)) d ->
  forallb (fun kv => plain_text (fst kv) && json_native (snd kv)) d = true ->
  d <> [] ->
  forall (fuel : nat) (rest r : text),
    (fold_right (fun kv n => S (scan_calls (snd kv) + n)) O d <= fuel)%nat ->
    join_items (map (fun kv => pair_text (fst kv) (text_of (snd kv))) d)
      ++ 125 :: rest = 34 :: r ->
    object_pairs fuel r
    = Ok (map (fun kv => (fst kv, to_json (snd kv))) d, rest).
Proof.
  intros H; induction H as [|[k v] d Hv Hd IH]; intros Hn Hne fuel rest r Hf E;
    [congruence|].
  cbn [forallb fst snd] in Hn. apply andb_true_iff in Hn as [Hkv Hd'].
  apply andb_true_iff in Hkv as [Hk Hv'].
  cbn [fold_right snd] in Hf. destruct fuel as [|f]; [lia|].
  cbn [snd] in Hv. destruct d as [|[k2 v2] d'].
  - cbn [map join_items join_item nonempty fst snd] in E.
    rewrite pair_text_open in E. injection E as <-.
    rewrite scan_pair_step; try assumption; [|cbn [fold_right] in Hf; lia | cbn; auto].
    reflexivity.
  - cbn [map fst snd] in E. rewrite join_cons_cons, <- app_assoc in E.
    rewrite pair_text_open in E. cbn [app] in E. injection E as <-.
    rewrite scan_pair_step; try assumption;
      [|cbn [fold_right] in Hf; lia | cbn; auto].
    rewrite skip_ws_keep by reflexivity.
    change (44 =? 125) with false. change (44 =? 44) with true. cbv iota.
    rewrite skip_ws_space.
    change (pair_text k2 (text_of v2)
            :: map (fun kv => pair_text (fst kv) (text_of (snd kv))) d')
      with (map (fun kv => pair_text (fst kv) (text_of (snd kv))) ((k2, v2) :: d')).
    set (J := join_items _) in *.
    assert (EJ : exists r', J ++ 125 :: rest = 34 :: r').
    { subst J. cbn [map fst snd]. destruct d' as [|kv3 d''].
      - cbn [map join_items join_item nonempty]. rewrite pair_text_open. eauto.
      - cbn [map]. rewrite join_cons_cons, <- app_assoc, pair_text_open. eauto. }
    destruct EJ as [r' EJ].
    change (skip_ws (_ ++ 125 :: rest)) with (skip_ws (J ++ 125 :: rest)).
    rewrite EJ.
    rewrite skip_ws_keep by reflexivity. change (34 =? 34) with true. cbv iota.
    rewrite (IH Hd' ltac:(congruence) f rest r'); [reflexivity | | exact EJ].
    cbn [fold_right] in Hf |- *. lia.
Qed.

(** The scanner reads the text of every native payload back. *)
Lemma scan_text_of (p : pyval) : reads_back p.
Proof.
  induction p as [| b | z | s | b | l IH | l IH | d IH] using pyval_rect';
    intros Hn fuel rest Hf Hr; try discriminate;
    (destruct fuel as [|f]; [cbn in Hf; lia|]).
  - reflexivity.
  - now destruct b.
  - cbn [json_native] in Hn. apply Z.leb_le in Hn. now apply scan_int.
  - cbn [text_of to_json]. unfold encode_basestring_ascii.
    cbn [app scan_once]. change (34 =? 34) with true. cbv iota.
    rewrite <- app_assoc. cbn [app].
    now rewrite scanstring_escaped.
  - cbn [json_native] in Hn. cbn [text_of to_json scan_calls] in *.
    cbn [app scan_once]. change (91 =? 34) with false.
    change (91 =? 123) with false. change (91 =? 91) with true. cbv iota.
    rewrite <- app_assoc. cbn [app].
    destruct l as [|x l'].
    + reflexivity.
    + pose proof Hn as Hx. cbn [forallb] in Hx.
      apply andb_true_iff in Hx as [Hx _].
      destruct (join_opens (text_of x) (map text_of l') (text_of_opens x Hx))
        as (c & t & Ej & Hc & Hc93 & _).
      pose proof (scan_items (x :: l') IH Hn ltac:(congruence) f rest
                    (le_S_n _ _ Hf)) as Hitems.
      cbn [map] in Hitems |- *. rewrite Ej in Hitems |- *. cbn [app] in Hitems |- *.
      rewrite skip_ws_keep by assumption.
      replace (c =? 93) with false by (symmetry; now apply Z.eqb_neq).
      now rewrite Hitems.
  - cbn [json_native] in Hn. apply andb_true_iff in Hn as [Hkeys Hn].
    cbn [text_of to_json scan_calls] in *.
    cbn [app scan_once]. change (123 =? 34) with false.
    change (123 =? 123) with true. cbv iota.
    rewrite <- app_assoc. cbn [app].
    destruct d as [|[k v] d'].
    + reflexivity.
    + set (J := join_items _).
      assert (EJ : exists r, J ++ 125 :: rest = 34 :: r).
      { subst J. cbn [map fst snd]. destruct d' as [|kv3 d''].
        - cbn [map join_items join_item nonempty]. rewrite pair_text_open. eauto.
        - cbn [map]. rewrite join_cons_cons, <- app_assoc, pair_text_open. eauto. }
      destruct EJ as [r EJ]. rewrite EJ.
      rewrite skip_ws_keep by reflexivity.
      change (34 =? 125) with false. change (34 =? 34) with true. cbv iota.
      rewrite (scan_pairs ((k, v) :: d') IH Hn ltac:(congruence) f rest r);
        [| apply le_S_n; exact Hf | exact EJ].
      cbn [bind]. rewrite py_dict_distinct; [reflexivity|].
      rewrite map_map. cbn [fst]. now apply distinct_keys_NoDup.
Qed.

End Scanning.

(** ** The scanner's bound on its calls *)

Section Termination.

Lemma bind_ok {A B : Type} (c : result A) (k : A -> result B) (y : B) :
  bind c k = Ok y -> exists x, c = Ok x /\ k x = Ok y.
Proof. destruct c as [x|e]; cbn; [eauto | discriminate]. Qed.

Lemma skip_ws_length (s : text) : (length (skip_ws s) <= length s)%nat.
Proof.
  induction s as [|c s IH]; cbn [skip_ws length]; [lia|].
  destruct (is_ws c); cbn [length]; lia.
Qed.

Lemma strip_prefix_length (p s r : text) :
  strip_prefix p s = Some r -> length s = (length p + length r)%nat.
Proof.
  revert s. induction p as [|x p IH]; intros [|y s]; cbn [strip_prefix length];
    try discriminate.
  - now intros [= <-].
  - now intros [= <-].
  - destruct (x =? y); [|discriminate]. intros H. apply IH in H. lia.
Qed.

Lemma push_ok (c : Z) (x : result (text * text)) (cs r : text) :
  push c x = Ok (cs, r) -> exists cs', x = Ok (cs', r).
Proof.
  unfold push. intros H. apply bind_ok in H as ([cs' r'] & -> & H).
  injection H as _ <-. eauto.
Qed.

Lemma scanstring_shorter (s cs r : text) :
  scanstring s = Ok (cs, r) -> (length r < length s)%nat.
Proof.
  remember (length s) as n eqn:En.
  assert (Hn : (length s <= n)%nat) by lia. clear En.
  revert s cs r Hn. induction n as [|n IH]; intros s cs r Hn H.
  - destruct s; [discriminate | cbn in Hn; lia].
  - destruct s as [|c s']; [discriminate|]. cbn [scanstring] in H.
    cbn [length] in Hn.
    repeat match type of H with
           | context [match ?x with _ => _ end] => destruct x eqn:?
           end;
      try discriminate;
      try (injection H as _ <-; cbn [length]; lia);
      apply push_ok in H as [cs' H]; apply IH in H; cbn [length] in *; lia.
Qed.

Lemma span_digits_length (s : text) :
  (length (snd (span_digits s)) <= length s)%nat.
Proof.
  induction s as [|c s IH]; cbn [span_digits snd length]; [lia|].
  destruct (is_digit c); [|cbn [snd length]; lia].
  destruct (span_digits s) as [d r]. cbn [snd] in *. lia.
Qed.

Lemma match_frac_length (s : text) :
  (length (snd (match_frac s)) <= length s)%nat.
Proof.
  unfold match_frac. destruct s as [|c t]; [cbn; lia|].
  destruct (c =? 46); [|cbn; lia].
  pose proof (span_digits_length t) as H.
  destruct (span_digits t) as [[|d ds] r]; cbn [snd length] in *; lia.
Qed.

Lemma match_exp_length (s : text) :
  (length (snd (match_exp s)) <= length s)%nat.
Proof.
  unfold match_exp. destruct s as [|c t]; [cbn; lia|].
  destruct ((c =? 101) || (c =? 69)); [|cbn; lia].
  match goal with
  | |- context [let (neg, t') := ?e in _] =>
      assert (Ht : (length (snd e) <= length t)%nat);
      [| destruct e as [neg t']]
  end.
  { destruct t as [|c2 t2]; [cbn; lia|].
    destruct (c2 =? 45); [cbn; lia|]. destruct (c2 =? 43); cbn; lia. }
  cbn [snd] in Ht. pose proof (span_digits_length t') as H.
  destruct (span_digits t') as [[|d ds] r]; cbn [snd length] in *; lia.
Qed.

Lemma match_tail_length (neg : bool) (int s : text) :
  (length (nm_rest (match_tail neg int s)) <= length s)%nat.
Proof.
  unfold match_tail. pose proof (match_frac_length s) as H1.
  destruct (match_frac s) as [frac s1]. pose proof (match_exp_length s1) as H2.
  destruct (match_exp s1) as [exp s2]. cbn [nm_rest snd] in *. lia.
Qed.

Lemma match_number_shorter (s : text) (n : number_match) :
  match_number s = Some n -> (length (nm_rest n) < length s)%nat.
Proof.
  unfold match_number.
  assert (H : forall neg s1, (length s1 <= length s)%nat ->
            match s1 with
            | [] => None
            | c :: s2 =>
                if c =? 48 then Some (match_tail neg [48] s2)
                else if is_digit c then
                  let (ds, s3) := span_digits s2 in
                  Some (match_tail neg (c :: ds) s3)
                else None
            end = Some n -> (length (nm_rest n) < length s)%nat).
  { intros neg [|c s2] Hs; [discriminate|]. cbn [length] in Hs.
    destruct (c =? 48).
    - intros [= <-]. pose proof (match_tail_length neg [48] s2). lia.
    - destruct (is_digit c); [|discriminate].
      pose proof (span_digits_length s2) as Hd.
      destruct (span_digits s2) as [ds s3]. cbn [snd] in Hd.
      intros [= <-]. pose proof (match_tail_length neg (c :: ds) s3). lia. }
  destruct s as [|c s']; [discriminate|].
  destruct (c =? 45);
    [exact (H true s' ltac:(cbn [length]; lia))
    | exact (H false (c :: s') ltac:(cbn [length]; lia))].
Qed.

Lemma literal_shorter (s : text) (v : jsonval) (r : text) :
  literal s = Some (v, r) -> (length r < length s)%nat.
Proof.
  unfold literal.
  repeat match goal with
         | |- context [strip_prefix ?p s] =>
             let E := fresh "E" in
             destruct (strip_prefix p s) eqn:E;
             [apply strip_prefix_length in E;
              (let n := eval vm_compute in (length p) in
               change (length p) with n in E);
              intros [= _ <-]; lia |]
         end.
  discriminate.
Qed.

Lemma constant_shorter (s : text) (v : jsonval) (r : text) :
  constant s = Some (v, r) -> (length r < length s)%nat.
Proof.
  unfold constant.
  repeat match goal with
         | |- context [strip_prefix ?p s] =>
             let E := fresh "E" in
             destruct (strip_prefix p s) eqn:E;
             [apply strip_prefix_length in E;
              (let n := eval vm_compute in (length p) in
               change (length p) with n in E);
              intros [= _ <-]; lia |]
         end.
  discriminate.
Qed.

Ltac bind_inv H :=
  let x := fresh "x" in
  let E := fresh "E" in
  apply bind_ok in H as (x & E & H).

(** Every scanner consumes input. *)
Lemma scan_shorter (fuel : nat) :
  (forall s v r, scan_once fuel s = Ok (v, r) -> (length r < length s)%nat) /\
  (forall s v r, object_pairs fuel s = Ok (v, r) -> (length r < length s)%nat) /\
  (forall s v r, array_values fuel s = Ok (v, r) -> (length r < length s)%nat).
Proof.
  induction fuel as [|fuel (IHs & IHo & IHa)];
    [repeat split; intros; discriminate|].
  repeat split; intros s v r H.
  - destruct s as [|c s']; [discriminate|]. cbn [scan_once] in H.
    cbn [length]. pose proof (skip_ws_length s') as Hw.
    destruct (c =? 34).
    { bind_inv H. destruct x as [str r0]. injection H as _ <-.
      apply scanstring_shorter in E. lia. }
    destruct (c =? 123).
    { destruct (skip_ws s') as [|q r0]; [discriminate|]. cbn [length] in Hw.
      destruct (q =? 125); [injection H as _ <-; lia|].
      destruct (q =? 34); [|discriminate].
      bind_inv H. destruct x as [pairs r']. injection H as _ <-.
      apply IHo in E. lia. }
    destruct (c =? 91).
    { destruct (skip_ws s') as [|q r0]; [discriminate|]. cbn [length] in Hw.
      destruct (q =? 93); [injection H as _ <-; lia|].
      bind_inv H. destruct x as [values r']. injection H as _ <-.
      apply IHa in E. cbn [length] in E. lia. }
    destruct (literal (c :: s')) as [[v0 r0]|] eqn:El.
    { injection H as _ <-. apply literal_shorter in El. cbn [length] in El. lia. }
    destruct (match_number (c :: s')) as [n|] eqn:En.
    { bind_inv H. injection H as _ <-.
      apply match_number_shorter in En. cbn [length] in En. lia. }
    destruct (constant (c :: s')) as [[v0 r0]|] eqn:Ec; [|discriminate].
    injection H as _ <-. apply constant_shorter in Ec. cbn [length] in Ec. lia.
  - cbn [object_pairs] in H. bind_inv H. destruct x as [key s1].
    apply scanstring_shorter in E. pose proof (skip_ws_length s1) as Hw1.
    destruct (skip_ws s1) as [|c s2]; [discriminate|]. cbn [length] in Hw1.
    destruct (c =? 58); [|discriminate].
    bind_inv H. destruct x as [value s3]. apply IHs in E0.
    pose proof (skip_ws_length s2) as Hw2. pose proof (skip_ws_length s3) as Hw3.
    destruct (skip_ws s3) as [|d s4]; [discriminate|]. cbn [length] in Hw3.
    destruct (d =? 125); [injection H as _ <-; lia|].
    destruct (d =? 44); [|discriminate].
    pose proof (skip_ws_length s4) as Hw4.
    destruct (skip_ws s4) as [|q s5]; [discriminate|]. cbn [length] in Hw4.
    destruct (q =? 34); [|discriminate].
    bind_inv H. destruct x as [pairs r']. injection H as _ <-.
    apply IHo in E1. lia.
  - cbn [array_values] in H. bind_inv H. destruct x as [value s1].
    apply IHs in E. pose proof (skip_ws_length s1) as Hw1.
    destruct (skip_ws s1) as [|d s2]; [discriminate|]. cbn [length] in Hw1.
    destruct (d =? 93); [injection H as _ <-; lia|].
    destruct (d =? 44); [|discriminate].
    bind_inv H. destruct x as [values r']. injection H as _ <-.
    apply IHa in E0. pose proof (skip_ws_length s2). lia.
Qed.

Lemma bind_raise {A B : Type} (c : result A) (k : A -> result B) (e : exn) :
  bind c k = Raise e ->
  c = Raise e \/ exists x, c = Ok x /\ k x = Raise e.
Proof. destruct c as [x|e']; cbn; [eauto | intros [= ->]; now left]. Qed.

Lemma push_raise (c : Z) (x : result (text * text)) (e : exn) :
  push c x = Raise e -> x = Raise e.
Proof.
  unfold push. intros H. apply bind_raise in H as [H | ([cs r] & _ & H)];
    [assumption | discriminate].
Qed.

(** [scanstring] raises nothing but [JSONDecodeError]. *)
Lemma scanstring_raises (s : text) (e : exn) :
  scanstring s = Raise e -> e = JSONDecodeError.
Proof.
  remember (length s) as n eqn:En.
  assert (Hn : (length s <= n)%nat) by lia. clear En.
  revert s Hn. induction n as [|n IH]; intros s Hn H.
  - destruct s; [now injection H | cbn in Hn; lia].
  - destruct s as [|c s']; [now injection H|]. cbn [scanstring] in H.
    cbn [length] in Hn.
    repeat match type of H with
           | context [match ?x with _ => _ end] => destruct x eqn:?
           end;
      try discriminate; try (now injection H);
      apply push_raise in H;
      (apply IH in H; [assumption | subst; cbn [length] in *; lia]).
Qed.

Lemma number_value_raises (n : number_match) (e : exn) :
  number_value n = Raise e -> e = ValueError.
Proof.
  unfold number_value, parse_int.
  destruct (nm_frac n), (nm_exp n); try discriminate.
  destruct (max_str_digits <? _); cbn [bind]; [now intros [= <-] | discriminate].
Qed.

(** The bound that [loads] starts the scanner with is never exhausted. *)
Lemma scan_within_bound (fuel : nat) :
  (forall s, (2 * length s + 1 <= fuel)%nat ->
             scan_once fuel s <> Raise RecursionError) /\
  (forall s, (2 * length s + 2 <= fuel)%nat ->
             object_pairs fuel s <> Raise RecursionError) /\
  (forall s, (2 * length s + 2 <= fuel)%nat ->
             array_values fuel s <> Raise RecursionError).
Proof.
  induction fuel as [|fuel (IHs & IHo & IHa)]; [repeat split; intros; lia|].
  repeat split; intros s Hf H.
  - destruct s as [|c s']; [discriminate|]. cbn [scan_once] in H.
    cbn [length] in Hf. pose proof (skip_ws_length s') as Hw.
    destruct (c =? 34).
    { apply bind_raise in H as [H | ([str r] & _ & H)]; [|discriminate].
      now apply scanstring_raises in H. }
    destruct (c =? 123).
    { destruct (skip_ws s') as [|q r0]; [discriminate|]. cbn [length] in Hw.
      destruct (q =? 125); [discriminate|].
      destruct (q =? 34); [|discriminate].
      apply bind_raise in H as [H | ([pairs r'] & _ & H)]; [|discriminate].
      revert H. apply IHo. lia. }
    destruct (c =? 91).
    { destruct (skip_ws s') as [|q r0]; [discriminate|]. cbn [length] in Hw.
      destruct (q =? 93); [discriminate|].
      apply bind_raise in H as [H | ([values r'] & _ & H)]; [|discriminate].
      revert H. apply IHa. cbn [length]. lia. }
    destruct (literal (c :: s')) as [[v0 r0]|]; [discriminate|].
    destruct (match_number (c :: s')) as [n|].
    { apply bind_raise in H as [H | (x & _ & H)]; [|discriminate].
      now apply number_value_raises in H. }
    destruct (constant (c :: s')) as [[v0 r0]|]; discriminate.
  - cbn [object_pairs] in H.
    apply bind_raise in H as [H | ([key s1] & E & H)];
      [now apply scanstring_raises in H|].
    apply scanstring_shorter in E. pose proof (skip_ws_length s1) as Hw1.
    destruct (skip_ws s1) as [|c s2]; [discriminate|]. cbn [length] in Hw1.
    destruct (c =? 58); [|discriminate].
    pose proof (skip_ws_length s2) as Hw2.
    apply bind_raise in H as [H | ([value s3] & E0 & H)];
      [revert H; apply IHs; lia|].
    apply (proj1 (scan_shorter fuel)) in E0.
    pose proof (skip_ws_length s3) as Hw3.
    destruct (skip_ws s3) as [|d s4]; [discriminate|]. cbn [length] in Hw3.
    destruct (d =? 125); [discriminate|].
    destruct (d =? 44); [|discriminate].
    pose proof (skip_ws_length s4) as Hw4.
    destruct (skip_ws s4) as [|q s5]; [discriminate|]. cbn [length] in Hw4.
    destruct (q =? 34); [|discriminate].
    apply bind_raise in H as [H | ([pairs r'] & _ & H)]; [|discriminate].
    revert H. apply IHo. lia.
  - cbn [array_values] in H.
    apply bind_raise in H as [H | ([value s1] & E & H)];
      [revert H; apply IHs; lia|].
    apply (proj1 (scan_shorter fuel)) in E.
    pose proof (skip_ws_length s1) as Hw1.
    destruct (skip_ws s1) as [|d s2]; [discriminate|]. cbn [length] in Hw1.
    destruct (d =? 93); [discriminate|].
    destruct (d =? 44); [|discriminate].
    pose proof (skip_ws_length s2) as Hw2.
    apply bind_raise in H as [H | ([values r'] & _ & H)]; [|discriminate].
    revert H. apply IHa. lia.
Qed.

(** [json.loads] of the model raises [RecursionError] on no input: the
    bound on the calls of the scanner is a device of the definition, not a
    limit of the program. *)
Lemma loads_within_bound (s : text) : loads s <> Raise RecursionError.
Proof.
  assert (H : (bind (scan_once (loads_fuel s) (skip_ws s))
                 (fun '(obj, r) =>
                    match skip_ws r with
                    | [] => Ok obj
                    | _ :: _ => Raise JSONDecodeError
                    end)) <> Raise RecursionError).
  { intros H. apply bind_raise in H as [H | ([obj r] & _ & H)].
    - revert H. apply (proj1 (scan_within_bound (loads_fuel s))).
      unfold loads_fuel. pose proof (skip_ws_length s). lia.
    - destruct (skip_ws r); discriminate. }
  unfold loads. destruct s as [|c t]; [exact H|].
  destruct c as [|p|p]; try exact H.
  destruct (Pos.eq_dec p 65279) as [-> | Hp]; [discriminate|].
  intros E. apply H. rewrite <- E.
  repeat (destruct p as [p | p |]; try reflexivity).
Qed.

End Termination.

Section RoundTrip.


Lemma join_length (ts : list text) :
  (fold_right (fun t n => length t + 2 + n) 0 ts <= length (join_items ts) + 2)%nat.
Proof.
  induction ts as [|a r IH]; [cbn; lia|].
  cbn [fold_right join_items]. unfold join_item.
  destruct r as [|b r]; [cbn in *; lia|].
  cbn [nonempty]. rewrite !length_app. cbn [length] in *. lia.
Qed.

(** The bound with which [loads] starts the scanner is enough for the text
    of a payload. *)
Lemma scan_calls_bound (p : pyval) :
  (scan_calls p <= 2 * length (text_of p) + 1)%nat.
Proof.
  induction p as [| b | z | s | b | l IH | l IH | d IH] using pyval_rect';
    cbn [scan_calls text_of]; try (cbn [length]; lia).
  - assert (fold_right (fun x n => S (scan_calls x + n)) 0%nat l
            <= 2 * fold_right (fun t n => length t + 2 + n) 0 (map text_of l))%nat.
    { induction IH as [|x l' Hx _ IHl]; [cbn; lia|].
      cbn [fold_right map]. lia. }
    pose proof (join_length (map text_of l)) as HJ.
    cbn [length]. rewrite length_app. cbn [length]. lia.
  - assert (fold_right (fun x n => S (scan_calls x + n)) 0%nat l
            <= 2 * fold_right (fun t n => length t + 2 + n) 0 (map text_of l))%nat.
    { induction IH as [|x l' Hx _ IHl]; [cbn; lia|].
      cbn [fold_right map]. lia. }
    pose proof (join_length (map text_of l)) as HJ.
    cbn [length]. rewrite length_app. cbn [length]. lia.
  - assert (fold_right (fun kv n => S (scan_calls (snd kv) + n)) 0%nat d
            <= 2 * fold_right (fun t n => length t + 2 + n) 0
                     (map (fun kv => pair_text (fst kv) (text_of (snd kv))) d))%nat.
    { induction IH as [|[k v] d' Hv _ IHd]; [cbn; lia|].
      cbn [fold_right map fst snd] in *.
      unfold pair_text at 1. rewrite !length_app. lia. }
    pose proof (join_length
                  (map (fun kv => pair_text (fst kv) (text_of (snd kv))) d)) as HJ.
    cbn [length]. rewrite length_app. cbn [length]. lia.
Qed.

(** [json.loads] reads the text of a native payload back. *)
Lemma loads_text_of (p : pyval) :
  json_native p = true -> loads (text_of p) = Ok (to_json p).
Proof.
  intros Hn. destruct (text_of_opens p Hn) as (c & t & E & Hc & _).
  unfold loads.
  assert (Hbom : c <> 0xfeff).
  { pose proof (text_of_ascii p) as Ha. rewrite E in Ha.
    inversion Ha; subst. lia. }
  assert (Hscan : scan_once (loads_fuel (text_of p)) (skip_ws (text_of p))
                  = Ok (to_json p, [])).
  { rewrite <- (List.app_nil_r (text_of p)) at 2.
    rewrite skip_ws_opens by (now apply text_of_opens).
    apply scan_text_of; [assumption | | exact I].
    unfold loads_fuel. pose proof (scan_calls_bound p). lia. }
  rewrite E in *.
  destruct c as [|pc|pc]; try (rewrite Hscan; reflexivity).
  destruct (Pos.eq_dec pc 65279) as [-> | Hpc]; [lia|].
  assert (M : forall (A : Type) (x y : A),
            match Z.pos pc :: t with 65279 :: _ => x | _ => y end = y).
  { intros A x y.
    repeat (destruct pc as [pc | pc |]; try reflexivity). congruence. }
  rewrite M, Hscan. reflexivity.
Qed.

End RoundTrip.




(** A string in which a high surrogate is followed by a low surrogate
    comes back as one character. *)
Example surrogates_are_joined :
  Packet.encode (Packet.Packet (PStr [0xd83d; 0xde00]))
  = Ok (codes "{" ++ quoted "data" ++ codes ": " ++ [34]
          ++ codes "\ud83d\ude00" ++ [34] ++ codes "}") /\
  Packet.decode (codes "{" ++ quoted "data" ++ codes ": " ++ [34]
                   ++ codes "\ud83d\ude00" ++ [34] ++ codes "}")
  = Ok (JStr [0x1f600]).
Proof. split; vm_compute; reflexivity. Qed.

(** An int of more than 4300 decimal digits is not encoded: its
    conversion to text raises. *)
Example long_int_is_not_encoded :
  Packet.encode (Packet.Packet (PInt (10 ^ 4300))) = Raise ValueError.
Proof. vm_compute. reflexivity. Qed.

(** * Further properties *)

(** ** What the codec accepts and returns *)

Section Encoding.

Lemma dumps_cases (p : pyval) :
  (serializable p = true /\ dumps p = Ok (text_of p)) \/
  (serializable p = false /\
   (dumps p = Raise TypeError \/ dumps p = Raise ValueError)).
Proof.
  induction p as [| b | z | s | b | l IH | l IH | d IH] using pyval_rect'.
  - now left.
  - left. now destruct b.
  - cbn [serializable dumps text_of]. unfold int_str.
    destruct (Z.leb_spec (Z.of_nat (length (int_digits z))) max_str_digits) as [H | H].
    + left. apply Z.ltb_ge in H. now rewrite H.
    + right. apply Z.ltb_lt in H. rewrite H. auto.
  - now left.
  - right. cbn. auto.
  - cbn [serializable dumps text_of].
    match goal with |- context [bind (?f l) _] => set (items := f) end.
    assert (E : (forallb serializable l = true
                 /\ items l = Ok (join_items (map text_of l))) \/
                (forallb serializable l = false
                 /\ (items l = Raise TypeError \/ items l = Raise ValueError))).
    { induction IH as [|x l' Hx _ IHl]; [now left|].
      change (items (x :: l'))
        with (a <- dumps x ;; b <- items l' ;; Ok (join_item (nonempty l') a b)).
      cbn [forallb map join_items].
      destruct Hx as [[Sx Dx] | [Sx Dx]]; rewrite Sx.
      - rewrite Dx. cbn [bind andb].
        destruct IHl as [[Sl Dl] | [Sl Dl]]; rewrite Sl.
        + left. rewrite Dl. cbn [bind]. split; [reflexivity|]. now destruct l'.
        + right. split; [reflexivity|]. destruct Dl as [-> | ->]; cbn; auto.
      - right. split; [reflexivity|]. destruct Dx as [-> | ->]; cbn; auto. }
    destruct E as [[S D] | [S D]]; rewrite S.
    + left. now rewrite D.
    + right. split; [reflexivity|]. destruct D as [-> | ->]; cbn; auto.
  - cbn [serializable dumps text_of].
    match goal with |- context [bind (?f l) _] => set (items := f) end.
    assert (E : (forallb serializable l = true
                 /\ items l = Ok (join_items (map text_of l))) \/
                (forallb serializable l = false
                 /\ (items l = Raise TypeError \/ items l = Raise ValueError))).
    { induction IH as [|x l' Hx _ IHl]; [now left|].
      change (items (x :: l'))
        with (a <- dumps x ;; b <- items l' ;; Ok (join_item (nonempty l') a b)).
      cbn [forallb map join_items].
      destruct Hx as [[Sx Dx] | [Sx Dx]]; rewrite Sx.
      - rewrite Dx. cbn [bind andb].
        destruct IHl as [[Sl Dl] | [Sl Dl]]; rewrite Sl.
        + left. rewrite Dl. cbn [bind]. split; [reflexivity|]. now destruct l'.
        + right. split; [reflexivity|]. destruct Dl as [-> | ->]; cbn; auto.
      - right. split; [reflexivity|]. destruct Dx as [-> | ->]; cbn; auto. }
    destruct E as [[S D] | [S D]]; rewrite S.
    + left. now rewrite D.
    + right. split; [reflexivity|]. destruct D as [-> | ->]; cbn; auto.
  - cbn [serializable dumps text_of].
    match goal with |- context [bind (?f d) _] => set (items := f) end.
    assert (E : (forallb (fun kv => serializable (snd kv)) d = true
                 /\ items d
                    = Ok (join_items
                            (map (fun kv => pair_text (fst kv) (text_of (snd kv))) d)))
                \/
                (forallb (fun kv => serializable (snd kv)) d = false
                 /\ (items d = Raise TypeError \/ items d = Raise ValueError))).
    { induction IH as [|[k v] d' Hv _ IHd]; [now left|].
      change (items ((k, v) :: d'))
        with (a <- dumps v ;; b <- items d' ;;
              Ok (join_item (nonempty d')
                    (encode_basestring_ascii k ++ [58; 32] ++ a) b)).
      cbn [forallb map join_items fst snd] in *.
      destruct Hv as [[Sx Dx] | [Sx Dx]]; rewrite Sx.
      - rewrite Dx. cbn [bind andb].
        destruct IHd as [[Sl Dl] | [Sl Dl]]; rewrite Sl.
        + left. rewrite Dl. cbn [bind]. split; [reflexivity|]. now destruct d'.
        + right. split; [reflexivity|]. destruct Dl as [-> | ->]; cbn; auto.
      - right. split; [reflexivity|]. destruct Dx as [-> | ->]; cbn; auto. }
    destruct E as [[S D] | [S D]]; rewrite S.
    + left. now rewrite D.
    + right. split; [reflexivity|]. destruct D as [-> | ->]; cbn; auto.
Qed.

Lemma encode_cases (p : pyval) :
  (serializable p = true /\
   Packet.encode (Packet.Packet p) = Ok (text_of (envelope_of p))) \/
  (serializable p = false /\
   (Packet.encode (Packet.Packet p) = Raise TypeError \/
    Packet.encode (Packet.Packet p) = Raise ValueError)).
Proof.
  unfold Packet.encode. cbn [Packet.data]. fold (envelope_of p).
  assert (S : serializable (envelope_of p) = serializable p)
    by (cbn; now rewrite andb_true_r).
  destruct (dumps_cases (envelope_of p)) as [[Se De] | [Se De]]; rewrite S in Se.
  - left. split; [exact Se|]. rewrite De. cbn [bind].
    apply (utf8_ascii _ (text_of_ascii (envelope_of p))).
  - right. split; [exact Se|]. destruct De as [-> | ->]; cbn; auto.
Qed.

End Encoding.


Section Tuples.

Lemma map_ext_Forall' {A B : Type} (f g : A -> B) (l : list A) :
  Forall (fun x => f x = g x) l -> map f l = map g l.
Proof. induction 1 as [|x l Hx _ IH]; cbn; congruence. Qed.

Lemma text_of_listify (p : pyval) : text_of (listify p) = text_of p.
Proof.
  induction p as [| b | z | s | b | l IH | l IH | d IH] using pyval_rect';
    try reflexivity; cbn [listify text_of]; rewrite map_map; do 3 f_equal.
  - now apply map_ext_Forall'.
  - now apply map_ext_Forall'.
  - apply map_ext_Forall'. eapply Forall_impl; [|exact IH].
    intros [k v] H. cbn [fst snd] in *. now rewrite H.
Qed.

Lemma to_json_listify (p : pyval) : to_json (listify p) = to_json p.
Proof.
  induction p as [| b | z | s | b | l IH | l IH | d IH] using pyval_rect';
    try reflexivity; cbn [listify to_json]; rewrite map_map; f_equal.
  - now apply map_ext_Forall'.
  - now apply map_ext_Forall'.
  - apply map_ext_Forall'. eapply Forall_impl; [|exact IH].
    intros [k v] H. cbn [fst snd] in *. now rewrite H.
Qed.

Lemma native_serializable (p : pyval) :
  json_native (listify p) = true -> serializable p = true.
Proof.
  induction p as [| b | z | s | b | l IH | l IH | d IH] using pyval_rect';
    try reflexivity; try discriminate; cbn [listify json_native serializable].
  - auto.
  - induction IH as [|x l' Hx _ IHl]; [reflexivity|]. cbn [map forallb].
    intros H. apply andb_true_iff in H as [H1 H2].
    apply andb_true_iff; auto.
  - induction IH as [|x l' Hx _ IHl]; [reflexivity|]. cbn [map forallb].
    intros H. apply andb_true_iff in H as [H1 H2].
    apply andb_true_iff; auto.
  - intros H. apply andb_true_iff in H as [_ H]. revert H.
    induction IH as [|[k v] d' Hv _ IHd]; [reflexivity|]. cbn [map forallb fst snd] in *.
    intros H. apply andb_true_iff in H as [H1 H2].
    apply andb_true_iff in H1 as [_ H1].
    apply andb_true_iff; auto.
Qed.

(** The encoding of a payload that is native once its tuples are lists,
    and what the decoder makes of it. *)
Lemma codec_listifies (p : pyval) :
  json_native (listify p) = true ->
  Packet.encode (Packet.Packet p) = Ok (text_of (envelope_of p)) /\
  Packet.decode (text_of (envelope_of p)) = Ok (to_json p).
Proof.
  intros Hn.
  destruct (encode_cases p) as [[_ He] | [S _]];
    [|rewrite native_serializable in S by assumption; discriminate].
  split; [exact He|].
  assert (Hne : json_native (envelope_of (listify p)) = true).
  { cbn [envelope_of json_native distinct_keys existsb negb forallb fst snd andb].
    rewrite Hn. reflexivity. }
  assert (Et : text_of (envelope_of p) = text_of (envelope_of (listify p))).
  { change (envelope_of (listify p)) with (listify (envelope_of p)).
    now rewrite text_of_listify. }
  unfold Packet.decode, Packet.decode_try.
  rewrite (proj2 (utf8_ascii _ (text_of_ascii (envelope_of p)))); cbn [bind].
  rewrite Et, (loads_text_of _ Hne); cbn [bind].
  cbn [envelope_of to_json map fst snd Packet.getitem Packet.dict_get].
  rewrite text_eqb_refl. now rewrite to_json_listify.
Qed.

End Tuples.

(** X2.  Whatever [Packet.encode] returns is ASCII and is made of an
    opening brace, the key [data] between quotes, a colon and a space, a
    body and a closing brace.  So it is never empty, and [transmit] never
    takes its branch for empty packet data. *)
Theorem encode_is_ascii_envelope :
  forall (p : pyval) (encoded : bytes),
    Packet.encode (Packet.Packet p) = Ok encoded ->
    is_ascii encoded /\
    exists body,
      encoded = codes "{" ++ quoted "data" ++ codes ": " ++ body ++ codes "}".
Proof.
  intros p encoded H.
  destruct (encode_cases p) as [[_ He] | [_ [He | He]]]; rewrite He in H;
    try discriminate.
  injection H as <-. split; [exact (text_of_ascii (envelope_of p))|].
  exists (text_of p). reflexivity.
Qed.

Lemma encode_is_ascii_envelope_witness :
  is_ascii (codes "{" ++ quoted "data" ++ codes ": [1, 2]}") /\
  exists body,
    codes "{" ++ quoted "data" ++ codes ": [1, 2]}"
    = codes "{" ++ quoted "data" ++ codes ": " ++ body ++ codes "}".
Proof.
  apply (encode_is_ascii_envelope (PTuple [PInt 1; PInt 2])).
  vm_compute. reflexivity.
Defined.



Section HighBit.

Lemma utf8_rejects_high_byte (pre post : bytes) (v : Z) :
  is_ascii pre -> is_ascii post -> 128 <= v <= 255 ->
  Utf8.decode (pre ++ v :: post) = Raise UnicodeDecodeError.
Proof.
  intros Hpre Hpost Hv. induction Hpre as [|c pre Hc _ IH].
  - cbn [app Utf8.decode].
    replace ((0 <=? v) && (v <? 128)) with false
      by (symmetry; apply andb_false_iff; right; apply Z.ltb_ge; lia).
    assert (Hcont : forall b, 0 <= b < 128 -> Utf8.is_cont b = false).
    { intros b Hb. unfold Utf8.is_cont. apply andb_false_iff. left.
      apply Z.leb_gt. lia. }
    destruct ((194 <=? v) && (v <=? 223)).
    { destruct Hpost as [|b1 r1 Hb1 _]; [reflexivity|].
      now rewrite (Hcont b1 Hb1). }
    destruct ((224 <=? v) && (v <=? 239)).
    { destruct Hpost as [|b1 r1 Hb1 [|b2 r2 _ _]]; try reflexivity.
      now rewrite (Hcont b1 Hb1). }
    destruct ((240 <=? v) && (v <=? 244)); [|reflexivity].
    destruct Hpost as [|b1 r1 Hb1 [|b2 r2 _ [|b3 r3 _ _]]]; try reflexivity.
    now rewrite (Hcont b1 Hb1).
  - cbn [app Utf8.decode]. rewrite IH.
    replace ((0 <=? c) && (c <? 128)) with true; [reflexivity|].
    symmetry. apply andb_true_iff. split; [apply Z.leb_le | apply Z.ltb_lt]; lia.
Qed.

Lemma lxor_sets_high_bit (b x : Z) :
  0 <= b < 128 -> 128 <= x <= 255 -> 128 <= Z.lxor b x <= 255.
Proof.
  intros Hb Hx.
  pose proof (lxor_byte b x ltac:(lia) ltac:(lia)) as Hv.
  assert (T : Z.testbit (Z.lxor b x) 7 = true).
  { rewrite Z.lxor_spec.
    replace (Z.testbit b 7) with false.
    - replace (Z.testbit x 7) with true; [reflexivity|].
      symmetry. apply Z.testbit_true; [lia|].
      change (2 ^ 7) with 128. Z.div_mod_to_equations. lia.
    - symmetry. apply Z.testbit_false; [lia|].
      change (2 ^ 7) with 128. Z.div_mod_to_equations. lia. }
  apply Z.testbit_true in T; [|lia]. change (2 ^ 7) with 128 in T.
  revert T. Z.div_mod_to_equations. lia.
Qed.

Lemma ascii_is_bytes (data : bytes) : is_ascii data -> is_bytes data.
Proof. apply Forall_impl. intros; lia. Qed.

(** A mask with its top bit set turns ASCII into bytes that are not UTF-8. *)
Lemma high_mask_undecodable (data : bytes) (pos x : Z) :
  is_ascii data ->
  0 <= pos < Z.of_nat (length data) -> 128 <= x <= 255 ->
  exists out, xor_at data pos x = Ok out /\ Packet.decode out = Ok JNone.
Proof.
  intros Hd Hp Hx. unfold xor_at.
  replace (pos <? 0) with false by (symmetry; apply Z.ltb_ge; lia).
  replace ((pos <? 0) || (Z.of_nat (length data) <=? pos)) with false
    by (symmetry; apply orb_false_iff; split;
        [apply Z.ltb_ge | apply Z.leb_gt]; lia).
  set (i := Z.to_nat pos).
  assert (Hi : (i < length data)%nat) by (subst i; lia).
  assert (Hb : 0 <= nth i data 0 < 128).
  { unfold is_ascii in Hd. rewrite Forall_forall in Hd.
    apply Hd. now apply nth_In. }
  pose proof (lxor_sets_high_bit _ x Hb Hx) as Hv.
  replace ((Z.lxor (nth i data 0) x <? 0) || (255 <? Z.lxor (nth i data 0) x))
    with false
    by (symmetry; apply orb_false_iff; split; apply Z.ltb_ge; lia).
  eexists; split; [reflexivity|].
  unfold Packet.decode, Packet.decode_try.
  rewrite utf8_rejects_high_byte; [reflexivity | | | exact Hv].
  - now apply Forall_firstn_keeps.
  - now apply Forall_skipn_keeps.
Qed.

End HighBit.

(** X4.  A corruption whose mask has its top bit set (128 to 255) is
    always detected: the encoding is ASCII, so the changed byte leaves
    bytes that are not UTF-8, [Packet.decode] returns [None] and the
    attempt is recorded as lost. *)
Theorem high_bit_corruption_is_lost :
  forall self env rnd disk_ok packet encoded,
    Packet.encode packet = Ok encoded ->
    PrimFloat.ltb (random_random rnd) (error_rate self) = true ->
    0 <= randint_pos rnd < Z.of_nat (length encoded) ->
    128 <= randint_mask rnd <= 255 ->
    Packet.decode (corrupt_data self rnd encoded) = Ok JNone /\
    nth_error (packet_loss (transmit self env rnd disk_ok packet))
              (length (packet_loss self))
    = Some true.
Proof.
  intros self env rnd disk_ok [p] encoded He Hf Hp Hx.
  assert (Ha : is_ascii encoded).
  { destruct (encode_cases p) as [[_ E] | [_ [E | E]]]; rewrite E in He;
      try discriminate.
    injection He as <-. exact (text_of_ascii (envelope_of p)). }
  destruct (high_mask_undecodable encoded _ _ Ha Hp Hx) as (out & Ho & Hd).
  assert (Hc : corrupt_data self rnd encoded = out).
  { unfold corrupt_data. destruct encoded as [|b bs]; [cbn in Hp; lia|].
    now rewrite Hf, Ho. }
  rewrite Hc. split; [exact Hd|].
  rewrite <- Hc in Hd.
  rewrite (transmit_after_decode _ _ _ _ _ _ _ He Hd).
  destruct (after_decode_histories self env disk_ok JNone)
    as (_ & [[E _] | [E _]]); rewrite E.
  - rewrite nth_error_app2 by lia. now rewrite Nat.sub_diag.
  - rewrite <- app_assoc. rewrite nth_error_app2 by lia.
    now rewrite Nat.sub_diag.
Qed.

Lemma high_bit_corruption_is_lost_witness :
  Packet.decode
    (corrupt_data (__init__ 0.5) (Build_Draws 0.25 10 128)
       (codes "{" ++ quoted "data" ++ codes ": " ++ quoted "a" ++ codes "}"))
  = Ok JNone /\
  nth_error
    (packet_loss
       (transmit (__init__ 0.5) (Build_Environment 0.25)
          (Build_Draws 0.25 10 128) true (Packet.Packet (PStr (codes "a")))))
    (length (packet_loss (__init__ 0.5)))
  = Some true.
Proof.
  apply (high_bit_corruption_is_lost (__init__ 0.5) (Build_Environment 0.25)
           (Build_Draws 0.25 10 128) true (Packet.Packet (PStr (codes "a")))
           (codes "{" ++ quoted "data" ++ codes ": " ++ quoted "a" ++ codes "}")).
  - vm_compute. reflexivity.
  - reflexivity.
  - vm_compute. split; [discriminate | reflexivity].
  - cbn. lia.
Defined.

(** ** The feedback of the controller *)

Section Direction.

(** A decrease of an in-range rate is a decrease. *)
Lemma decrease_is_lower (r : float) :
  PrimFloat.leb 0.05 r = true -> PrimFloat.leb r 0.5 = true ->
  PrimFloat.leb (r * 0.8) r = true.
Proof.
  intros H1 H2.
  destruct (rate_in_range r H1 H2) as (m & e & Hr & Hm & He & Hlo & Hhi).
  destruct (mul_in_range r 0.8 m m08 e (-53) Hr repr_08 Hm ltac:(unfold m08; lia)
              ltac:(lia) ltac:(lia))
    as (d & m' & e' & D & Hd & R & Hm' & Hcase).
  rewrite FloatAxioms.leb_spec, R, Hr. unfold SFleb; cbn [SFcompare].
  rewrite compare_cont_Eq.
  assert (E : e' < e \/ (e' = e /\ Z.pos m' <= Z.pos m)).
  { cbv zeta in Hcase. unfold m08 in *.
    destruct D as [-> | ->];
      [change (2 ^ (105 - 53)) with 4503599627370496 in Hcase
      |change (2 ^ (106 - 53)) with 9007199254740992 in Hcase];
      (destruct Hcase as [[E Q] | [E [Q1 Q2]]];
       [| revert Q2]; Z.div_mod_to_equations; lia). }
  destruct (Z.compare_spec e' e); try (reflexivity || lia).
  destruct (Z.compare_spec (Z.pos m') (Z.pos m)); (reflexivity || lia).
Qed.

(** An increase of an in-range rate is an increase. *)
Lemma increase_is_higher (r : float) :
  PrimFloat.leb 0.05 r = true -> PrimFloat.leb r 0.5 = true ->
  PrimFloat.leb r (r * 1.2) = true.
Proof.
  intros H1 H2.
  destruct (rate_in_range r H1 H2) as (m & e & Hr & Hm & He & Hlo & Hhi).
  destruct (mul_in_range r 1.2 m m12 e (-52) Hr repr_12 Hm ltac:(unfold m12; lia)
              ltac:(lia) ltac:(lia))
    as (d & m' & e' & D & Hd & R & Hm' & Hcase).
  rewrite FloatAxioms.leb_spec, R, Hr. unfold SFleb; cbn [SFcompare].
  rewrite compare_cont_Eq.
  assert (E : e < e' \/ (e' = e /\ Z.pos m <= Z.pos m')).
  { cbv zeta in Hcase. unfold m12 in *.
    destruct D as [-> | ->];
      [change (2 ^ (105 - 53)) with 4503599627370496 in Hcase
      |change (2 ^ (106 - 53)) with 9007199254740992 in Hcase];
      (destruct Hcase as [[E Q] | [E [Q1 Q2]]];
       [| revert Q2]; Z.div_mod_to_equations; lia). }
  destruct (Z.compare_spec e e'); try (reflexivity || lia).
  destruct (Z.compare_spec (Z.pos m) (Z.pos m')); (reflexivity || lia).
Qed.

End Direction.

Section Feedback.

Lemma leb_refl_in_range (r : float) :
  PrimFloat.leb 0.05 r = true -> PrimFloat.leb r 0.5 = true ->
  PrimFloat.leb r r = true.
Proof.
  intros H1 H2.
  destruct (rate_in_range r H1 H2) as (m & e & Hr & _).
  rewrite FloatAxioms.leb_spec, Hr. unfold SFleb; cbn [SFcompare].
  now rewrite Z.compare_refl, compare_cont_Eq, Z.compare_refl.
Qed.

Lemma slice_from_length (w : Z) (l : list bool) :
  0 < w -> Z.of_nat (length (slice_from (- w) l)) = Z.min w (Z.of_nat (length l)).
Proof.
  intros Hw. unfold slice_from.
  replace (- w <? 0) with true by (symmetry; apply Z.ltb_lt; lia).
  rewrite length_skipn. lia.
Qed.

Lemma window_losses (l : list bool) :
  0 <= sum_bools (slice_from (-10) l) <= 10.
Proof.
  pose proof (sum_bools_bounds (slice_from (-10) l)) as H.
  pose proof (slice_from_length 10 l ltac:(lia)) as E.
  change (- (10)) with (-10) in E. lia.
Qed.

(** The controller returns whenever the window is positive. *)
Lemma adjust_returns (s : NetworkSimulator) :
  0 < adaptive_window s < 2 ^ 500 -> exists s', adjust_error_rate s = Ok s'.
Proof.
  intros Hw. unfold adjust_error_rate.
  destruct (_ >=? _); [|eauto].
  pose proof (sum_bools_bounds (slice_from (- adaptive_window s) (packet_loss s))) as Hs.
  pose proof (slice_from_length _ (packet_loss s) (proj1 Hw)) as El.
  destruct (int_truediv_returns
              (sum_bools (slice_from (- adaptive_window s) (packet_loss s)))
              (adaptive_window s)) as [f ->]; [lia | lia |].
  cbn [bind]. destruct (PrimFloat.ltb 0.3 f); [eauto|].
  destruct (PrimFloat.ltb f 0.1); eauto.
Qed.

End Feedback.

(** X5.  On a rate within its bounds the controller is a negative
    feedback.  With [losses] the number of losses among the last ten
    recorded outcomes: above three the new rate is not above the old one,
    below one it is not below the old one, and from one to three the rate
    is unchanged. *)
Theorem controller_feedback :
  forall s s' : NetworkSimulator,
    bounded_state s -> adaptive_window s = 10 ->
    adjust_error_rate s = Ok s' ->
    let losses := sum_bools (slice_from (-10) (packet_loss s)) in
    (3 < losses -> PrimFloat.leb (error_rate s') (error_rate s) = true) /\
    (losses < 1 -> PrimFloat.leb (error_rate s) (error_rate s') = true) /\
    (1 <= losses <= 3 -> error_rate s' = error_rate s).
Proof.
  intros s s' (Hmin & Hmax & Hlo & Hhi) Hw. rewrite Hmin in Hlo. rewrite Hmax in Hhi.
  pose proof (leb_refl_in_range _ Hlo Hhi) as Hrefl.
  unfold adjust_error_rate. rewrite Hw, Hmin, Hmax.
  change (- (10)) with (-10).
  destruct (_ >=? _); [|intros [= <-]; cbv zeta; auto].
  destruct (tenth_thresholds _ (window_losses (packet_loss s)))
    as (f & Hf & Tu & Tl).
  rewrite Hf. cbn [bind]. rewrite Tu, Tl. cbv zeta.
  set (k := sum_bools (slice_from (-10) (packet_loss s))).
  destruct (Z.ltb_spec 3 k) as [H3 | H3].
  - intros [= <-]. cbn [error_rate set_error_rate].
    split; [intros _ | split; [lia | lia]].
    unfold py_max. destruct (PrimFloat.ltb 0.05 (error_rate s * 0.8));
      [now apply decrease_is_lower | exact Hlo].
  - destruct (Z.ltb_spec k 1) as [H1 | H1].
    + intros [= <-]. cbn [error_rate set_error_rate].
      split; [lia | split; [intros _ | lia]].
      unfold py_min. destruct (PrimFloat.ltb (error_rate s * 1.2) 0.5);
        [now apply increase_is_higher | exact Hhi].
    + intros [= <-]. split; [lia | split; [lia | reflexivity]].
Qed.

Lemma controller_feedback_witness :
  let losses :=
    sum_bools
      (slice_from (-10)
         (packet_loss
            (mkSim 0.4 [] (repeat true 4 ++ repeat false 6) 6 10 10 0.05 0.5))) in
  (3 < losses ->
   PrimFloat.leb
     (error_rate
        (mkSim 0.32000000000000006 [] (repeat true 4 ++ repeat false 6)
           6 10 10 0.05 0.5))
     (error_rate
        (mkSim 0.4 [] (repeat true 4 ++ repeat false 6) 6 10 10 0.05 0.5))
   = true) /\
  (losses < 1 ->
   PrimFloat.leb
     (error_rate
        (mkSim 0.4 [] (repeat true 4 ++ repeat false 6) 6 10 10 0.05 0.5))
     (error_rate
        (mkSim 0.32000000000000006 [] (repeat true 4 ++ repeat false 6)
           6 10 10 0.05 0.5))
   = true) /\
  (1 <= losses <= 3 ->
   error_rate
     (mkSim 0.32000000000000006 [] (repeat true 4 ++ repeat false 6)
        6 10 10 0.05 0.5)
   = error_rate
       (mkSim 0.4 [] (repeat true 4 ++ repeat false 6) 6 10 10 0.05 0.5)).
Proof.
  apply (controller_feedback
           (mkSim 0.4 [] (repeat true 4 ++ repeat false 6) 6 10 10 0.05 0.5)
           (mkSim 0.32000000000000006 [] (repeat true 4 ++ repeat false 6)
              6 10 10 0.05 0.5)).
  - unfold bounded_state, in_bounds. cbn. auto.
  - reflexivity.
  - vm_compute. reflexivity.
Defined.

(** X6.  The controller divides by the window size: it returns for every
    positive window, and with a window of [0] it raises
    [ZeroDivisionError], whatever the history. *)
Theorem controller_needs_a_window :
  forall s : NetworkSimulator,
    (0 < adaptive_window s < 2 ^ 500 -> exists s', adjust_error_rate s = Ok s') /\
    (adaptive_window s = 0 -> adjust_error_rate s = Raise ZeroDivisionError).
Proof.
  intros s. split; [apply adjust_returns|].
  intros Hw. unfold adjust_error_rate. rewrite Hw.
  replace (Z.of_nat (length (packet_loss s)) >=? 0) with true
    by (symmetry; rewrite Z.geb_leb; apply Z.leb_le; lia).
  reflexivity.
Qed.

(** ** The counters of a run *)

Section Accounting.

Lemma sum_bools_app (l r : list bool) :
  sum_bools (l ++ r) = sum_bools l + sum_bools r.
Proof.
  unfold sum_bools. rewrite fold_left_app, !sum_bools_from. lia.
Qed.

(** What an attempt that reaches the decode step leaves behind: the
    outcome, and a second, lost, entry when the controller or the
    persistence step raised. *)
Lemma after_decode_state self env disk_ok decoded :
  let s := after_decode self env disk_ok decoded in
  exists extra : list bool,
    (extra = [] \/ extra = [true]) /\
    packet_loss s = packet_loss self ++ is_none decoded :: extra /\
    total_transmissions s
    = total_transmissions self + 1 + Z.of_nat (length extra) /\
    successful_transmissions s
    = successful_transmissions self + Z.b2z (negb (is_none decoded)) /\
    latency_data s = latency_data self ++ [(now env - now env)%float] /\
    adaptive_window s = adaptive_window self.
Proof.
  unfold after_decode.
  set (recorded := record_outcome self _ decoded).
  assert (Hs : successful_transmissions recorded
               = successful_transmissions self + Z.b2z (negb (is_none decoded)))
    by (cbn; destruct (is_none decoded); cbn; lia).
  destruct (adjust_error_rate recorded) as [adjusted | e] eqn:Ha.
  - apply adjust_keeps in Ha as (Hl & Hp & Hsu & Ht & Hw & _).
    destruct (save_statistics adjusted disk_ok);
      [exists [] | exists [true]]; cbn [record_failure packet_loss
        total_transmissions successful_transmissions latency_data
        adaptive_window length];
      rewrite ?Hl, ?Hp, ?Hsu, ?Ht, ?Hw, ?Hs; cbn; rewrite <- ?app_assoc; cbn;
      repeat split; auto; lia.
  - exists [true]. cbn [record_failure packet_loss
        total_transmissions successful_transmissions latency_data
        adaptive_window length]. rewrite ?Hs. cbn. rewrite <- ?app_assoc; cbn.
    repeat split; auto; lia.
Qed.

Lemma transmit_cases self env rnd disk_ok packet :
  (exists e, Packet.encode packet = Raise e /\
             transmit self env rnd disk_ok packet = record_failure self) \/
  (exists encoded decoded,
     Packet.encode packet = Ok encoded /\
     Packet.decode (corrupt_data self rnd encoded) = Ok decoded /\
     transmit self env rnd disk_ok packet = after_decode self env disk_ok decoded).
Proof.
  destruct (Packet.encode packet) as [encoded | e] eqn:He.
  - right. destruct (decode_returns (corrupt_data self rnd encoded)) as [v Hv].
    exists encoded, v. split; [reflexivity|]. split; [exact Hv|].
    now apply (transmit_after_decode _ _ _ _ _ encoded).
  - left. exists e. split; [reflexivity|].
    now apply (transmit_encode_raises _ _ _ _ _ e).
Qed.

Lemma transmit_balanced self env rnd disk_ok packet :
  balanced self -> balanced (transmit self env rnd disk_ok packet).
Proof.
  intros [H1 H2].
  destruct (transmit_cases self env rnd disk_ok packet)
    as [(e & _ & ->) | (encoded & decoded & _ & _ & ->)].
  - unfold balanced, record_failure.
    cbn [packet_loss successful_transmissions total_transmissions latency_data].
    rewrite sum_bools_app. change (sum_bools [true]) with 1. lia.
  - destruct (after_decode_state self env disk_ok decoded)
      as (extra & Hx & Hp & Ht & Hs & Hl & _).
    unfold balanced. rewrite Hp, Ht, Hs, Hl, sum_bools_app, length_app.
    change (is_none decoded :: extra) with ([is_none decoded] ++ extra).
    rewrite sum_bools_app. cbn [length].
    destruct Hx as [-> | ->]; destruct (is_none decoded); cbn; lia.
Qed.

Lemma run_balanced (l : list Attempt) (s : NetworkSimulator) :
  balanced s -> balanced (run s l).
Proof.
  revert s; induction l as [|a l IH]; intros s Hs; cbn; [assumption|].
  apply IH. now apply transmit_balanced.
Qed.

End Accounting.

(** X7.  After every run the successes and the losses add up to the
    attempts counted: [successful_transmissions + sum(packet_loss)] is
    [total_transmissions], and there are no more successes than
    latencies. *)
Theorem counters_balance :
  forall (rate : float) (attempts : list Attempt),
    let s := run (__init__ rate) attempts in
    successful_transmissions s + sum_bools (packet_loss s)
    = total_transmissions s /\
    0 <= successful_transmissions s <= Z.of_nat (length (latency_data s)).
Proof.
  intros rate attempts. apply run_balanced. unfold balanced. cbn. lia.
Qed.

Section Counting.

(** [get_statistics] returns the five statistics of every state that has
    a latency and is within the bounds of a list. *)
Lemma get_statistics_returns (s : NetworkSimulator) :
  latency_data s <> [] ->
  (length (latency_data s) <= length (packet_loss s))%nat ->
  Z.of_nat (length (packet_loss s)) < 2 ^ 500 ->
  exists average_latency loss_rate,
    get_statistics s
    = Ok (Stats (total_transmissions s) (successful_transmissions s)
            average_latency loss_rate (error_rate s)).
Proof.
  intros Hne Hle Hb. unfold get_statistics.
  destruct (latency_data s) as [|x lat] eqn:El; [congruence|].
  assert (Hl : 0 < Z.of_nat (length (x :: lat)) < 2 ^ 1000).
  { split; [cbn [length]; lia|].
    apply Z.lt_trans with (2 ^ 500); [lia | reflexivity]. }
  destruct (float_of_Z_pos _ Hl) as (f & m & e & Hf & Hm). rewrite Hf; cbn [bind].
  pose proof (sum_bools_bounds (packet_loss s)) as Hs.
  destruct (int_truediv_returns (sum_bools (packet_loss s))
              (Z.of_nat (length (packet_loss s)))) as [lr Hlr];
    [lia | cbn [length] in Hle; lia |].
  rewrite Hlr; cbn [bind]. eauto.
Qed.

Lemma encode_encodable (a : Attempt) :
  (encodable a = true /\ exists bs, Packet.encode (at_packet a) = Ok bs) \/
  (encodable a = false /\ exists e, Packet.encode (at_packet a) = Raise e).
Proof.
  unfold encodable. destruct (at_packet a) as [p]. cbn [Packet.data].
  destruct (encode_cases p) as [[S E] | [S [E | E]]]; rewrite S, E; eauto.
Qed.

(** One attempt: the counter, the loss history and the latency history. *)
Lemma attempt_counts (s : NetworkSimulator) (a : Attempt) :
  counted s ->
  let s' := attempt s a in
  counted s' /\
  adaptive_window s' = adaptive_window s /\
  total_transmissions s + 1 <= total_transmissions s'
    <= total_transmissions s + 2 /\
  length (latency_data s')
  = (length (latency_data s) + if encodable a then 1 else 0)%nat /\
  (adaptive_window s = 10 -> at_disk_ok a = true ->
   total_transmissions s + 1 < 2 ^ 500 ->
   total_transmissions s' = total_transmissions s + 1).
Proof.
  intros Hc. cbv zeta. split; [now apply transmit_counted|].
  unfold attempt.
  destruct (transmit_cases s (at_env a) (at_draws a) (at_disk_ok a) (at_packet a))
    as [(e & He & ->) | (encoded & decoded & He & _ & ->)].
  - destruct (encode_encodable a) as [[_ [bs E]] | [-> _]]; [congruence|].
    cbn. repeat split; lia.
  - destruct (encode_encodable a) as [[-> _] | [_ [e E]]]; [|congruence].
    assert (Hclean : adaptive_window s = 10 -> at_disk_ok a = true ->
                     total_transmissions s + 1 < 2 ^ 500 ->
                     total_transmissions
                       (after_decode s (at_env a) (at_disk_ok a) decoded)
                     = total_transmissions s + 1).
    { intros Hten Hdisk Hb. unfold after_decode.
      set (recorded := record_outcome s _ decoded).
      destruct (adjust_returns recorded) as [adjusted Ha];
        [cbn; rewrite Hten; split; [lia | reflexivity]|].
      rewrite Ha. pose proof (adjust_keeps _ _ Ha) as (Kl & Kp & _ & Kt & _).
      destruct Hc as [C1 C2].
      destruct (get_statistics_returns adjusted) as (avg & lr & Hg).
      - rewrite Kl. cbn. now destruct (latency_data s).
      - rewrite Kl, Kp. cbn. rewrite !length_app. cbn. lia.
      - rewrite Kp. cbn. rewrite length_app. cbn [length]. lia.
      - unfold save_statistics. rewrite Hg, Hdisk. cbn [bind].
        rewrite Kt. reflexivity. }
    destruct (after_decode_state s (at_env a) (at_disk_ok a) decoded)
      as (extra & Hx & Hp & Ht & Hs & Hl & Hw).
    rewrite Hl, Hw, length_app. cbn [length].
    split; [reflexivity|].
    split; [rewrite Ht; destruct Hx as [-> | ->]; cbn; lia|].
    split; [reflexivity | exact Hclean].
Qed.

Lemma run_snoc (s : NetworkSimulator) (l : list Attempt) (a : Attempt) :
  run s (l ++ [a]) = attempt (run s l) a.
Proof. unfold run. now rewrite fold_left_app. Qed.

Lemma run_counts (attempts : list Attempt) (rate : float) :
  let s := run (__init__ rate) attempts in
  let n := Z.of_nat (length attempts) in
  counted s /\
  adaptive_window s = 10 /\
  n <= total_transmissions s <= 2 * n /\
  length (latency_data s) = length (filter encodable attempts) /\
  (n < 2 ^ 500 -> forallb at_disk_ok attempts = true ->
   total_transmissions s = n).
Proof.
  induction attempts as [|a l IH] using rev_ind.
  - cbn. unfold counted. cbn. repeat split; lia.
  - cbv zeta in *. rewrite run_snoc, length_app, filter_app, length_app.
    cbn [length filter].
    destruct IH as (Hc & Hw & Ht & Hl & Hd).
    destruct (attempt_counts (run (__init__ rate) l) a Hc)
      as (Hc' & Hw' & Ht' & Hl' & Hd').
    split; [exact Hc'|]. split; [congruence|]. split; [lia|].
    split; [rewrite Hl', Hl; now destruct (encodable a)|].
    intros Hn Hall. rewrite forallb_app in Hall.
    apply andb_true_iff in Hall as [Hall Ha]. cbn in Ha.
    apply andb_true_iff in Ha as [Ha _].
    rewrite Hd' by (try assumption; rewrite Hd by (try assumption; lia); lia).
    rewrite Hd by (try assumption; lia). lia.
Qed.

End Counting.



(** ** What an attempt delivers *)

Section Delivery.

(** [corrupt_data] returns its input or its input with one byte replaced. *)
Lemma corrupt_data_shape (self : NetworkSimulator) (rnd : Draws) (data : bytes) :
  corrupt_data self rnd data = data \/
  exists (i : nat) (v : Z),
    (i < length data)%nat /\ 0 <= v <= 255 /\
    corrupt_data self rnd data = firstn i data ++ v :: skipn (S i) data.
Proof.
  unfold corrupt_data. destruct data as [|b bs]; [now left|].
  destruct (PrimFloat.ltb _ _); [|now left].
  unfold xor_at. set (data := b :: bs). set (n := Z.of_nat (length data)).
  set (i := if randint_pos rnd <? 0 then randint_pos rnd + n else randint_pos rnd).
  destruct ((i <? 0) || (n <=? i)) eqn:Hi; [now left|].
  apply orb_false_iff in Hi as [Hi1 Hi2].
  apply Z.ltb_ge in Hi1. apply Z.leb_gt in Hi2.
  set (v := Z.lxor (nth (Z.to_nat i) data 0) (randint_mask rnd)).
  destruct ((v <? 0) || (255 <? v)) eqn:Hv; [now left|].
  apply orb_false_iff in Hv as [Hv1 Hv2].
  apply Z.ltb_ge in Hv1, Hv2.
  right. exists (Z.to_nat i), v. split; [subst n; lia|]. split; [lia | reflexivity].
Qed.

Lemma lost_flag_of_attempt self env disk_ok decoded :
  nth_error (packet_loss (after_decode self env disk_ok decoded))
            (length (packet_loss self))
  = Some (is_none decoded).
Proof.
  destruct (after_decode_state self env disk_ok decoded) as (extra & _ & -> & _).
  rewrite nth_error_app2 by lia. now rewrite Nat.sub_diag.
Qed.

End Delivery.

(** X10.  A packet whose payload is [None] is recorded as lost by every
    attempt, corrupted or not, and never counted as a success: the
    decoder's failure sentinel is the payload itself. *)
Theorem none_payload_is_always_lost :
  forall self env rnd disk_ok,
    let s := transmit self env rnd disk_ok (Packet.Packet PNone) in
    nth_error (packet_loss s) (length (packet_loss self)) = Some true /\
    successful_transmissions s = successful_transmissions self.
Proof.
  intros self env rnd disk_ok. cbv zeta.
  set (encoded := codes "{" ++ quoted "data" ++ codes ": null}").
  assert (He : Packet.encode (Packet.Packet PNone) = Ok encoded)
    by (vm_compute; reflexivity).
  assert (Hall :
    forallb
      (fun i =>
         forallb
           (fun v =>
              match Packet.decode
                      (firstn i encoded ++ Z.of_nat v :: skipn (S i) encoded) with
              | Ok JNone => true
              | _ => false
              end) (seq 0 256)) (seq 0 (length encoded)) = true)
    by (vm_compute; reflexivity).
  assert (Hd : Packet.decode (corrupt_data self rnd encoded) = Ok JNone).
  { destruct (corrupt_data_shape self rnd encoded) as [-> | (i & v & Hi & Hv & ->)].
    - vm_compute. reflexivity.
    - rewrite forallb_forall in Hall. specialize (Hall i).
      rewrite in_seq in Hall. specialize (Hall ltac:(lia)).
      rewrite forallb_forall in Hall. specialize (Hall (Z.to_nat v)).
      rewrite in_seq in Hall. specialize (Hall ltac:(lia)).
      rewrite Z2Nat.id in Hall by lia.
      destruct (Packet.decode _) as [[]|]; congruence. }
  rewrite (transmit_after_decode _ _ _ _ _ _ _ He Hd).
  split; [apply lost_flag_of_attempt|].
  destruct (after_decode_state self env disk_ok JNone) as (_ & _ & _ & _ & -> & _).
  cbn. lia.
Qed.

Section Uncorrupted.


Lemma not_below_zero (r rate : float) :
  PrimFloat.leb 0 r = true -> PrimFloat.ltb 0 rate = false ->
  PrimFloat.ltb r rate = false.
Proof.
  rewrite FloatAxioms.leb_spec, !FloatAxioms.ltb_spec.
  change (Prim2SF 0) with (S754_zero false). unfold SFleb, SFltb.
  destruct (Prim2SF r) as [[] | [] | | [] m e];
    destruct (Prim2SF rate) as [[] | [] | | [] m' e']; cbn;
    try congruence.
Qed.

End Uncorrupted.



(** X12.  When the error rate is not above [0.0] (zero, negative or not
    a number), no draw of [random.random()] is below it, and
    [corrupt_data] returns its input. *)
Theorem no_corruption_without_a_positive_rate :
  forall (self : NetworkSimulator) (rnd : Draws) (data : bytes),
    PrimFloat.leb 0 (random_random rnd) = true ->
    PrimFloat.ltb 0 (error_rate self) = false ->
    corrupt_data self rnd data = data.
Proof.
  intros self rnd data Hr Hz. unfold corrupt_data.
  destruct data; [reflexivity|]. now rewrite (not_below_zero _ _ Hr Hz).
Qed.

Lemma no_corruption_without_a_positive_rate_witness :
  corrupt_data (__init__ 0) (Build_Draws 0 0 255) [123; 125] = [123; 125].
Proof.
  apply (no_corruption_without_a_positive_rate
           (__init__ 0) (Build_Draws 0 0 255) [123; 125]); reflexivity.
Defined.

Section Window.

Lemma attempt_below_window (s : NetworkSimulator) (a : Attempt) :
  adaptive_window s = 10 ->
  (length (packet_loss (attempt s a)) < 10)%nat ->
  error_rate (attempt s a) = error_rate s /\
  (length (packet_loss s) < 10)%nat.
Proof.
  intros Hw. unfold attempt.
  destruct (transmit_cases s (at_env a) (at_draws a) (at_disk_ok a) (at_packet a))
    as [(e & _ & ->) | (encoded & decoded & _ & _ & ->)].
  - cbn. rewrite length_app. cbn. intros H. split; [reflexivity | lia].
  - destruct (after_decode_state s (at_env a) (at_disk_ok a) decoded)
      as (extra & _ & Hp & _).
    rewrite Hp, length_app. cbn [length]. intros H. split; [|lia].
    unfold after_decode.
    set (recorded := record_outcome s _ decoded).
    assert (Ha : adjust_error_rate recorded = Ok recorded).
    { unfold adjust_error_rate.
      replace (_ >=? _) with false; [reflexivity|].
      symmetry. rewrite Z.geb_leb. apply Z.leb_gt.
      subst recorded. cbn. rewrite Hw, length_app. cbn [length]. lia. }
    rewrite Ha. destruct (save_statistics recorded (at_disk_ok a)); reflexivity.
Qed.

End Window.

(** X13.  As long as fewer than ten outcomes are recorded, the rate is
    the one the constructor was given. *)
Theorem rate_waits_for_the_window :
  forall (rate : float) (attempts : list Attempt),
    (length (packet_loss (run (__init__ rate) attempts)) < 10)%nat ->
    error_rate (run (__init__ rate) attempts) = rate.
Proof.
  intros rate attempts. induction attempts as [|a l IH] using rev_ind.
  - reflexivity.
  - rewrite run_snoc. intros H.
    destruct (run_counts l rate) as (_ & Hw & _).
    destruct (attempt_below_window _ a Hw H) as [E Hl].
    rewrite E. now apply IH.
Qed.

Lemma rate_waits_for_the_window_witness :
  error_rate
    (run (__init__ 0.2)
       [Build_Attempt (Build_Environment 0.25) (Build_Draws 0.75 0 1) true
          (Packet.Packet (PStr (codes "a")))])
  = 0.2%float.
Proof.
  apply (rate_waits_for_the_window 0.2
           [Build_Attempt (Build_Environment 0.25) (Build_Draws 0.75 0 1) true
              (Packet.Packet (PStr (codes "a")))]).
  vm_compute. lia.
Defined.

(** ** The corruption, applied twice *)

Section Involution.

Lemma splice_twice (l : bytes) (i : nat) (v w : Z) :
  (i < length l)%nat ->
  firstn i (firstn i l ++ v :: skipn (S i) l)
    ++ w :: skipn (S i) (firstn i l ++ v :: skipn (S i) l)
  = firstn i l ++ w :: skipn (S i) l.
Proof.
  revert i; induction l as [|a l IH]; intros i Hi; cbn in Hi; [lia|].
  destruct i as [|i]; [reflexivity|].
  cbn [firstn skipn app]. f_equal. apply IH. lia.
Qed.

Lemma splice_same (l : bytes) (i : nat) :
  (i < length l)%nat -> firstn i l ++ nth i l 0 :: skipn (S i) l = l.
Proof.
  revert i; induction l as [|a l IH]; intros i Hi; cbn in Hi; [lia|].
  destruct i as [|i]; [reflexivity|].
  cbn [firstn skipn app nth]. f_equal. apply IH. lia.
Qed.

Lemma xor_at_twice (data : bytes) (pos x : Z) :
  is_bytes data ->
  0 <= pos < Z.of_nat (length data) -> 0 <= x <= 255 ->
  exists out,
    xor_at data pos x = Ok out /\ xor_at out pos x = Ok data /\
    length out = length data.
Proof.
  intros Hd Hp Hx.
  set (i := Z.to_nat pos).
  assert (Hi : (i < length data)%nat) by (subst i; lia).
  assert (Hb : 0 <= nth i data 0 < 256).
  { unfold is_bytes in Hd. rewrite Forall_forall in Hd.
    apply Hd. now apply nth_In. }
  pose proof (lxor_byte _ x Hb ltac:(lia)) as Hv.
  set (v := Z.lxor (nth i data 0) x) in *.
  set (out := firstn i data ++ v :: skipn (S i) data).
  assert (Hlen : length out = length data) by now apply length_splice.
  assert (Hback : Z.lxor v x = nth i data 0).
  { subst v. now rewrite Z.lxor_assoc, Z.lxor_nilpotent, Z.lxor_0_r. }
  assert (Hin : forall l w,
            length l = length data -> 0 <= w < 256 ->
            xor_at l pos x
            = (let u := Z.lxor (nth i l 0) x in
               if (u <? 0) || (255 <? u) then Raise ValueError
               else Ok (firstn i l ++ u :: skipn (S i) l))).
  { intros l w Hl _. unfold xor_at. rewrite Hl.
    replace (pos <? 0) with false by (symmetry; apply Z.ltb_ge; lia).
    replace ((pos <? 0) || (Z.of_nat (length data) <=? pos)) with false
      by (symmetry; apply orb_false_iff; split;
          [apply Z.ltb_ge | apply Z.leb_gt]; lia).
    reflexivity. }
  exists out. split; [|split; [|exact Hlen]].
  - rewrite (Hin data 0 eq_refl ltac:(lia)). cbv zeta. fold v.
    replace ((v <? 0) || (255 <? v)) with false
      by (symmetry; apply orb_false_iff; split; apply Z.ltb_ge; lia).
    reflexivity.
  - rewrite (Hin out 0 Hlen ltac:(lia)). cbv zeta.
    assert (Hn : nth i out 0 = v).
    { subst out. rewrite nth_splice by assumption. now rewrite Nat.eqb_refl. }
    rewrite Hn, Hback.
    replace ((nth i data 0 <? 0) || (255 <? nth i data 0)) with false
      by (symmetry; apply orb_false_iff; split; apply Z.ltb_ge; lia).
    subst out. rewrite splice_twice by assumption.
    now rewrite splice_same.
Qed.

End Involution.

(** X14.  The corruption is an involution: corrupting the corrupted
    bytes again at the same position with the same mask gives the
    original bytes back. *)
Theorem corruption_undoes_itself :
  forall (self : NetworkSimulator) (rnd : Draws) (data : bytes),
    is_bytes data ->
    PrimFloat.ltb (random_random rnd) (error_rate self) = true ->
    0 <= randint_pos rnd < Z.of_nat (length data) ->
    0 <= randint_mask rnd <= 255 ->
    corrupt_data self rnd (corrupt_data self rnd data) = data.
Proof.
  intros self rnd data Hd Hf Hp Hx.
  destruct (xor_at_twice data _ _ Hd Hp Hx) as (out & H1 & H2 & Hlen).
  assert (E1 : corrupt_data self rnd data = out).
  { unfold corrupt_data. destruct data as [|b bs]; [cbn in Hp; lia|].
    now rewrite Hf, H1. }
  rewrite E1. unfold corrupt_data.
  destruct out as [|b bs]; [rewrite <- Hlen in Hp; cbn in Hp; lia|].
  now rewrite Hf, H2.
Qed.

Lemma corruption_undoes_itself_witness :
  corrupt_data (__init__ 0.5) (Build_Draws 0.25 1 3)
    (corrupt_data (__init__ 0.5) (Build_Draws 0.25 1 3) [123; 97; 125])
  = [123; 97; 125].
Proof.
  apply (corruption_undoes_itself (__init__ 0.5) (Build_Draws 0.25 1 3)
           [123; 97; 125]).
  - repeat constructor; cbn; lia.
  - reflexivity.
  - cbn. lia.
  - cbn. lia.
Defined.

(** ** A channel without errors *)

Section Lossless.







End Lossless.



(** ** Distinct payloads, distinct encodings *)

Section Injective.

Lemma to_json_inj (p : pyval) :
  json_native p = true ->
  forall q, json_native q = true -> to_json p = to_json q -> p = q.
Proof.
  induction p as [| b | z | s | b | l IH | l IH | d IH] using pyval_rect';
    intros Hp q Hq E; destruct q; cbn in E; try discriminate;
    cbn [json_native] in Hp, Hq; try discriminate; try congruence.
  - injection E as E. f_equal. revert l0 Hp Hq E.
    induction IH as [|x l Hx _ IHl]; intros [|y l'] Hp Hq E;
      try discriminate; [reflexivity|].
    cbn [forallb map] in *. injection E as E1 E2.
    apply andb_true_iff in Hp as [Hp1 Hp2].
    apply andb_true_iff in Hq as [Hq1 Hq2].
    f_equal; [now apply Hx | now apply IHl].
  - injection E as E. f_equal.
    apply andb_true_iff in Hp as [_ Hp]. apply andb_true_iff in Hq as [_ Hq].
    revert d0 Hp Hq E.
    induction IH as [|[k v] d Hv _ IHd]; intros [|[k' v'] d'] Hp Hq E;
      try discriminate; [reflexivity|].
    cbn [forallb map fst snd] in *. injection E as E1 E2 E3.
    apply andb_true_iff in Hp as [Hp1 Hp2].
    apply andb_true_iff in Hq as [Hq1 Hq2].
    apply andb_true_iff in Hp1 as [_ Hp1].
    apply andb_true_iff in Hq1 as [_ Hq1].
    f_equal; [f_equal; [exact E1 | now apply Hv] | now apply IHd].
Qed.

End Injective.

(** X16.  Payloads with the same encoding are the same payload once
    tuples are read as lists. *)
Theorem encode_is_injective :
  forall p q : pyval,
    json_native (listify p) = true ->
    json_native (listify q) = true ->
    Packet.encode (Packet.Packet p) = Packet.encode (Packet.Packet q) ->
    listify p = listify q.
Proof.
  intros p q Hp Hq E.
  destruct (codec_listifies p Hp) as [Ep Dp].
  destruct (codec_listifies q Hq) as [Eq Dq].
  assert (Et : text_of (envelope_of p) = text_of (envelope_of q)) by congruence.
  rewrite Et, Dq in Dp. injection Dp as Dq'.
  apply to_json_inj; [assumption | assumption |].
  rewrite !to_json_listify. now symmetry.
Qed.

Lemma encode_is_injective_witness :
  listify (PTuple [PInt 1; PInt 2]) = listify (PList [PInt 1; PInt 2]).
Proof.
  apply (encode_is_injective (PTuple [PInt 1; PInt 2]) (PList [PInt 1; PInt 2]));
    vm_compute; reflexivity.
Defined.

(** ** The test driver *)

(** X17.  [test_basic_transmission] finds the statistics it prints,
    whatever the draws: one transmission (two when the statistics files
    cannot be written, the failed write being counted as a lost
    transmission), a success rate of 1, 0.5 or 0, and an average latency
    of [0.0]. *)
Theorem test_basic_transmission_prints :
  forall (env : Environment) (rnd : Draws) (disk_ok : bool),
    is_finite (now env) = true ->
    exists success_rate : float,
      test_basic_transmission env rnd disk_ok
      = Ok (if disk_ok then 1 else 2, success_rate, 0%float) /\
      (success_rate = 1%float \/ success_rate = 0.5%float
       \/ success_rate = 0%float).
Proof.
  intros env rnd disk_ok Hfin. unfold test_basic_transmission. cbv zeta.
  set (packet := Packet.Packet _).
  destruct (Packet.encode packet) as [encoded | e] eqn:He;
    [|vm_compute in He; discriminate].
  destruct (decode_returns (corrupt_data (__init__ 0.2) rnd encoded)) as [v Hv].
  rewrite (transmit_after_decode _ _ _ _ _ _ _ He Hv).
  unfold after_decode, record_outcome. rewrite (sub_self _ Hfin).
  destruct (is_none v), disk_ok.
  - exists 0%float. split; [vm_compute; reflexivity | auto].
  - exists 0%float. split; [vm_compute; reflexivity | auto].
  - exists 1%float. split; [vm_compute; reflexivity | auto].
  - exists 0.5%float. split; [vm_compute; reflexivity | auto].
Qed.

Lemma test_basic_transmission_prints_witness :
  exists success_rate : float,
    test_basic_transmission (Build_Environment 0.25) (Build_Draws 0.75 0 1) true
    = Ok (1, success_rate, 0%float) /\
    (success_rate = 1%float \/ success_rate = 0.5%float
     \/ success_rate = 0%float).
Proof.
  apply (test_basic_transmission_prints
           (Build_Environment 0.25) (Build_Draws 0.75 0 1) true).
  reflexivity.
Defined.


(** ** When the persistence step fails *)

(** X18.  Whenever the persistence step fails, the attempt is counted
    twice: after the outcome, a second entry, lost, is appended to the
    loss history and [total_transmissions] goes up by two, for one
    latency and at most one success. *)
Theorem failed_persistence_is_counted_as_a_loss :
  forall self env rnd packet encoded,
    Packet.encode packet = Ok encoded ->
    let s := transmit self env rnd false packet in
    exists lost : bool,
      packet_loss s = packet_loss self ++ [lost; true] /\
      total_transmissions s = total_transmissions self + 2 /\
      length (latency_data s) = S (length (latency_data self)) /\
      successful_transmissions s
      = successful_transmissions self + Z.b2z (negb lost).
Proof.
  intros self env rnd packet encoded He. cbv zeta.
  destruct (decode_returns (corrupt_data self rnd encoded)) as [v Hv].
  rewrite (transmit_after_decode _ _ _ _ _ _ _ He Hv).
  exists (is_none v). unfold after_decode.
  set (recorded := record_outcome self _ v).
  assert (Hs : successful_transmissions recorded
               = successful_transmissions self + Z.b2z (negb (is_none v)))
    by (cbn; destruct (is_none v); cbn; lia).
  assert (Hr : forall s',
            latency_data s' = latency_data recorded ->
            packet_loss s' = packet_loss recorded ->
            successful_transmissions s' = successful_transmissions recorded ->
            total_transmissions s' = total_transmissions recorded ->
            packet_loss (record_failure s') = packet_loss self ++ [is_none v; true] /\
            total_transmissions (record_failure s') = total_transmissions self + 2 /\
            length (latency_data (record_failure s')) = S (length (latency_data self)) /\
            successful_transmissions (record_failure s')
            = successful_transmissions self + Z.b2z (negb (is_none v))).
  { intros s' Kl Kp Ks Kt. cbn [record_failure packet_loss total_transmissions
      latency_data successful_transmissions].
    rewrite Kl, Kp, Ks, Kt, Hs. subst recorded. cbn.
    rewrite <- app_assoc, length_app. cbn. repeat split; lia. }
  destruct (adjust_error_rate recorded) as [adjusted | e] eqn:Ha.
  - pose proof (adjust_keeps _ _ Ha) as (Kl & Kp & Ks & Kt & _).
    assert (Hsave : exists e, save_statistics adjusted false = Raise e).
    { unfold save_statistics. destruct (get_statistics adjusted); cbn; eauto. }
    destruct Hsave as [e ->]. now apply Hr.
  - now apply Hr.
Qed.

Lemma failed_persistence_is_counted_as_a_loss_witness :
  let s := transmit (__init__ 0.1) (Build_Environment 0.25)
             (Build_Draws 0.75 0 1) false (Packet.Packet (PStr (codes "a"))) in
  exists lost : bool,
    packet_loss s = packet_loss (__init__ 0.1) ++ [lost; true] /\
    total_transmissions s = total_transmissions (__init__ 0.1) + 2 /\
    length (latency_data s) = S (length (latency_data (__init__ 0.1))) /\
    successful_transmissions s
    = successful_transmissions (__init__ 0.1) + Z.b2z (negb lost).
Proof.
  apply (failed_persistence_is_counted_as_a_loss (__init__ 0.1)
           (Build_Environment 0.25) (Build_Draws 0.75 0 1)
           (Packet.Packet (PStr (codes "a")))
           (codes "{" ++ quoted "data" ++ codes ": " ++ quoted "a" ++ codes "}")).
  vm_compute. reflexivity.
Defined.

(** X19.  Every snapshot taken after a run is consistent: its loss rate
    is the quotient, as Python computes it, of the transmissions that
    were not successful by the total, the successes are between zero and
    the total, and the total is the length of the loss history. *)
Theorem snapshot_is_consistent :
  forall (rate : float) (attempts : list Attempt)
         (total successful : Z) (average_latency loss_rate current : float),
    get_statistics (run (__init__ rate) attempts)
    = Ok (Stats total successful average_latency loss_rate current) ->
    int_truediv (total - successful) total = Ok loss_rate /\
    0 <= successful <= total /\
    total = Z.of_nat (length (packet_loss (run (__init__ rate) attempts))).
Proof.
  intros rate attempts total successful average_latency loss_rate current.
  destruct (run_counts attempts rate) as ([Hc1 Hc2] & _).
  destruct (run_balanced attempts (__init__ rate)) as [Hb1 Hb2];
    [unfold balanced; cbn; lia|].
  set (s := run (__init__ rate) attempts) in *.
  unfold get_statistics. destruct (latency_data s) as [|x lat]; [discriminate|].
  destruct (float_of_Z _) as [n|]; [cbn [bind] | discriminate].
  destruct (int_truediv _ _) as [lr|] eqn:Hlr; [cbn [bind] | discriminate].
  intros [= <- <- _ <- _].
  pose proof (sum_bools_bounds (packet_loss s)) as Hs.
  split; [|lia].
  replace (total_transmissions s - successful_transmissions s)
    with (sum_bools (packet_loss s)) by lia.
  now rewrite <- Hc1.
Qed.

Lemma snapshot_is_consistent_witness :
  int_truediv (1 - 1) 1 = Ok 0%float /\ 0 <= 1 <= 1 /\
  1 = Z.of_nat
        (length
           (packet_loss
              (run (__init__ 0.2)
                 [Build_Attempt (Build_Environment 0.25) (Build_Draws 0.75 0 1)
                    true (Packet.Packet (PStr (codes "a")))]))).
Proof.
  apply (snapshot_is_consistent 0.2
           [Build_Attempt (Build_Environment 0.25) (Build_Draws 0.75 0 1) true
              (Packet.Packet (PStr (codes "a")))]
           1 1 0%float 0%float 0.2%float).
  vm_compute. reflexivity.
Defined.

(** ** The plot and the statistics *)

(** X20.  After a run [plot_metrics] does not raise: its guard tests the
    latency history and its quotient divides by the length of the loss
    history, which is never the shorter.  It plots exactly when
    [get_statistics] has data, and then the average latency, the loss
    rate and the total are those of the snapshot, and the success rate is
    one minus the loss rate. *)
Theorem plot_agrees_with_statistics :
  forall (rate : float) (attempts : list Attempt),
    Z.of_nat (length attempts) < 2 ^ 62 ->
    let s := run (__init__ rate) attempts in
    match plot_metrics s, get_statistics s with
    | Ok None, Ok NoData => latency_data s = []
    | Ok (Some fig), Ok (Stats total _ average_latency loss_rate _) =>
        fig_latencies fig = latency_data s /\
        fig_avg_latency fig = average_latency /\
        fig_loss_rate fig = loss_rate /\
        fig_success_rate fig = (1 - loss_rate)%float /\
        fig_total fig = total
    | _, _ => False
    end.
Proof.
  intros rate attempts Hn. cbv zeta.
  destruct (run_counts attempts rate) as ([Hc1 Hc2] & _ & Ht & _).
  set (s := run (__init__ rate) attempts) in *.
  destruct (latency_data s) as [|x lat] eqn:El.
  - unfold plot_metrics, get_statistics. rewrite El. reflexivity.
  - destruct (get_statistics_returns s) as (avg & lr & Hg).
    + rewrite El. discriminate.
    + rewrite El. exact Hc2.
    + apply Z.lt_trans with (2 ^ 63); [lia | reflexivity].
    + rewrite Hg. revert Hg. unfold plot_metrics, get_statistics. rewrite El.
      destruct (float_of_Z _) as [n|]; [cbn [bind] | discriminate].
      destruct (int_truediv _ _) as [l|]; [cbn [bind] | discriminate].
      intros [= <- <-]. cbn. auto.
Qed.

Lemma plot_agrees_with_statistics_witness :
  let s := run (__init__ 0.2)
             [Build_Attempt (Build_Environment 0.25) (Build_Draws 0.75 0 1) true
                (Packet.Packet (PStr (codes "a")))] in
  match plot_metrics s, get_statistics s with
  | Ok None, Ok NoData => latency_data s = []
  | Ok (Some fig), Ok (Stats total _ average_latency loss_rate _) =>
      fig_latencies fig = latency_data s /\
      fig_avg_latency fig = average_latency /\
      fig_loss_rate fig = loss_rate /\
      fig_success_rate fig = (1 - loss_rate)%float /\
      fig_total fig = total
  | _, _ => False
  end.
Proof.
  apply (plot_agrees_with_statistics 0.2
           [Build_Attempt (Build_Environment 0.25) (Build_Draws 0.75 0 1) true
              (Packet.Packet (PStr (codes "a")))]).
  reflexivity.
Defined.

(** ** The loss rate as a fraction *)

Section Quotients.

Lemma repr_1 : Prim2SF 1 = S754_finite false 4503599627370496 (-52).
Proof. vm_compute. reflexivity. Qed.

(** A number divided by itself is [1.0]. *)
Lemma div_self (p : positive) :
  SFdiv prec emax (S754_finite false p 0) (S754_finite false p 0)
  = S754_finite false 4503599627370496 (-52).
Proof.
  cbn [SFdiv xorb]. unfold SFdiv_core_binary. cbn [Zdigits2].
  set (d := Z.pos (digits2_pos p)).
  rewrite !Z.add_0_r, Z.sub_0_r, Z.sub_diag.
  rewrite div_eucl_div. rewrite ?Z.shiftl_mul_pow2 by lia.
  change (IntDef.Z.min (fexp prec emax 0) 0) with (-53).
  change (0 - -53) with 53. cbv iota.
  replace (Z.pos p * 2 ^ 53) with (2 ^ 53 * Z.pos p) by lia.
  rewrite Z.div_mul, Z.mod_mul by lia.
  assert (L : new_location (Z.pos p) 0 = loc_Exact).
  { unfold new_location, new_location_even, new_location_odd.
    now destruct (Z.even (Z.pos p)). }
  rewrite L. vm_compute. reflexivity.
Qed.

(** The quotient of a positive integer by a greater one is at most [1.0]. *)
Lemma div_below_one (a b : positive) :
  Z.pos a < Z.pos b -> Z.pos b < 2 ^ 500 ->
  exists m e,
    SFdiv prec emax (S754_finite false a 0) (S754_finite false b 0)
    = S754_finite false m e /\
    valid_binary (S754_finite false m e) = true /\
    SFleb (S754_finite false m e) (S754_finite false 4503599627370496 (-52))
    = true.
Proof.
  intros Hab Hb. cbn [SFdiv xorb]. unfold SFdiv_core_binary.
  cbn [Zdigits2].
  pose proof (digits2_bounds a) as Da. pose proof (digits2_bounds b) as Db.
  set (d1 := Z.pos (digits2_pos a)) in *. set (d2 := Z.pos (digits2_pos b)) in *.
  assert (0 < d1 <= 500).
  { split; [subst d1; lia|].
    assert (d1 - 1 < 500) by (apply (Z.pow_lt_mono_r_iff 2); lia). lia. }
  assert (0 < d2 <= 500).
  { split; [subst d2; lia|].
    assert (d2 - 1 < 500) by (apply (Z.pow_lt_mono_r_iff 2); lia). lia. }
  assert (d1 <= d2).
  { assert (d1 - 1 < d2) by (apply (Z.pow_lt_mono_r_iff 2); lia). lia. }
  rewrite !Z.add_0_r, Z.sub_0_r.
  unfold fexp, SpecFloat.emin, prec, emax.
  set (e' := Z.min (Z.max (d1 - d2 - 53) (3 - 1024 - 53)) 0).
  assert (He' : e' = d1 - d2 - 53) by (subst e'; lia).
  set (sh := 0 - e').
  assert (Hsh : sh = 53 + d2 - d1) by (subst sh; lia).
  assert (Em : match sh with
               | 0 => Z.pos a
               | Z.pos _ => Z.shiftl (Z.pos a) sh
               | Z.neg _ => 0
               end = Z.pos a * 2 ^ sh).
  { destruct sh as [|k|k] eqn:Ek; [lia | | lia].
    now rewrite Z.shiftl_mul_pow2 by lia. }
  rewrite Em, div_eucl_div.
  set (q := Z.pos a * 2 ^ sh / Z.pos b).
  assert (P1 : 2 ^ (52 + d2) <= Z.pos a * 2 ^ sh).
  { apply Z.le_trans with (2 ^ (d1 - 1) * 2 ^ sh).
    - rewrite <- Z.pow_add_r by lia. apply Z.pow_le_mono_r; lia.
    - apply Z.mul_le_mono_nonneg_r; lia. }
  assert (Q1 : 2 ^ 52 <= q).
  { unfold q. apply Z.div_le_lower_bound; [lia|].
    eapply Z.le_trans; [|exact P1].
    rewrite Z.pow_add_r by lia. rewrite Z.mul_comm.
    apply Z.mul_le_mono_nonneg_l; lia. }
  assert (Q2 : q < 2 ^ sh).
  { unfold q. apply Z.div_lt_upper_bound; [lia|].
    assert (0 < 2 ^ sh) by (apply Z.pow_pos_nonneg; lia). nia. }
  destruct q as [|pq|pq] eqn:Eq; try lia.
  pose proof (digits2_bounds pq) as Dq.
  set (dq := Z.pos (digits2_pos pq)) in *.
  assert (53 <= dq <= sh).
  { assert (dq - 1 < sh) by (apply (Z.pow_lt_mono_r_iff 2); lia).
    assert (52 < dq) by (apply (Z.pow_lt_mono_r_iff 2); lia). lia. }
  destruct (binary_round_aux_normal false pq e'
              (new_location (Z.pos b) (Z.pos a * 2 ^ sh mod Z.pos b)))
    as (m' & e'' & R & Hm' & Hc); fold dq; try lia.
  exists m', e''. split; [exact R|].
  fold dq in Hc. split; [apply valid_normal; lia|].
  unfold SFleb; cbn [SFcompare]. rewrite compare_cont_Eq.
  destruct (Z.compare_spec e'' (-52)) as [E | E | E]; [|reflexivity|lia].
  destruct Hc as [[E1 _] | [_ [-> _]]]; [lia|].
  change (2 ^ 52) with (Z.pos 4503599627370496).
  now rewrite Z.compare_refl.
Qed.

(** The quotient of two ints [0 <= a <= b], [0 < b], lies between [0.0]
    and [1.0]. *)
Lemma int_truediv_fraction (a b : Z) :
  0 <= a <= b -> 0 < b < 2 ^ 500 ->
  exists f,
    int_truediv a b = Ok f /\
    PrimFloat.leb 0 f = true /\ PrimFloat.leb f 1 = true.
Proof.
  intros Ha Hb. unfold int_truediv.
  replace (b =? 0) with false by (symmetry; apply Z.eqb_neq; lia).
  destruct b as [|pb|pb]; try lia. destruct a as [|pa|pa]; try lia.
  - cbn. eexists. split; [reflexivity|]. split; reflexivity.
  - cbn [raw_of_Z]. destruct (Z.eq_dec (Z.pos pa) (Z.pos pb)) as [E | E].
    + injection E as ->. rewrite div_self.
      eexists. split; [reflexivity|]. split; reflexivity.
    + destruct (div_below_one pa pb) as (m & e & R & V & L); [lia | lia |].
      rewrite R. eexists. split; [reflexivity|].
      rewrite !FloatAxioms.leb_spec, repr_1.
      rewrite (FloatAxioms.Prim2SF_SF2Prim _ V). split; [reflexivity | exact L].
Qed.

End Quotients.

(** X21.  The loss rate of every snapshot taken after a run lies between
    [0.0] and [1.0]; it is [0.0] when every transmission was successful
    and [1.0] when none was. *)
Theorem loss_rate_is_a_fraction :
  forall (rate : float) (attempts : list Attempt)
         (total successful : Z) (average_latency loss_rate current : float),
    Z.of_nat (length attempts) < 2 ^ 62 ->
    get_statistics (run (__init__ rate) attempts)
    = Ok (Stats total successful average_latency loss_rate current) ->
    PrimFloat.leb 0 loss_rate = true /\
    PrimFloat.leb loss_rate 1 = true /\
    (successful = total -> loss_rate = 0%float) /\
    (successful = 0 -> loss_rate = 1%float).
Proof.
  intros rate attempts total successful average_latency loss_rate current Hn.
  destruct (run_counts attempts rate) as ([Hc1 Hc2] & _ & Ht & _).
  destruct (run_balanced attempts (__init__ rate)) as [Hb1 Hb2];
    [unfold balanced; cbn; lia|].
  set (s := run (__init__ rate) attempts) in *.
  unfold get_statistics. destruct (latency_data s) as [|x lat] eqn:El;
    [discriminate|].
  destruct (float_of_Z _) as [n|]; [cbn [bind] | discriminate].
  pose proof (sum_bools_bounds (packet_loss s)) as Hs.
  assert (Hlen : 0 < Z.of_nat (length (packet_loss s)) < 2 ^ 500).
  { cbn [length] in Hc2. split; [lia|].
    apply Z.lt_trans with (2 ^ 63); [lia | reflexivity]. }
  destruct (int_truediv_fraction _ _ Hs Hlen) as (f & Hf & H0 & H1).
  rewrite Hf. cbn [bind]. intros [= <- <- _ <- _].
  split; [exact H0|]. split; [exact H1|]. split.
  - intros E. assert (Z : sum_bools (packet_loss s) = 0) by lia.
    rewrite Z in Hf. unfold int_truediv in Hf.
    destruct (Z.of_nat (length (packet_loss s))) as [|pb|pb]; try lia.
    cbn in Hf. now injection Hf as <-.
  - intros E.
    assert (Z : sum_bools (packet_loss s) = Z.of_nat (length (packet_loss s)))
      by lia.
    rewrite Z in Hf. unfold int_truediv in Hf.
    destruct (Z.of_nat (length (packet_loss s))) as [|pb|pb]; try lia.
    cbn [Z.eqb raw_of_Z] in Hf. rewrite div_self in Hf.
    now injection Hf as <-.
Qed.

Lemma loss_rate_is_a_fraction_witness :
  PrimFloat.leb 0 0 = true /\
  PrimFloat.leb 0 1 = true /\
  (1 = 1 -> 0%float = 0%float) /\
  (1 = 0 -> 0%float = 1%float).
Proof.
  apply (loss_rate_is_a_fraction 0.2
           [Build_Attempt (Build_Environment 0.25) (Build_Draws 0.75 0 1) true
              (Packet.Packet (PStr (codes "a")))]
           1 1 0%float 0%float 0.2%float).
  - reflexivity.
  - vm_compute. reflexivity.
Defined.

(** ** The clamps of the controller *)

Section Clamps.

Lemma py_max_above (a b : float) :
  PrimFloat.leb a a = true -> PrimFloat.leb a (py_max a b) = true.
Proof.
  intros Ha. unfold py_max. destruct (PrimFloat.ltb a b) eqn:E;
    [now apply leb_of_ltb | exact Ha].
Qed.

Lemma py_min_below (a b : float) :
  PrimFloat.leb a a = true -> PrimFloat.leb (py_min a b) a = true.
Proof.
  intros Ha. unfold py_min. destruct (PrimFloat.ltb b a) eqn:E;
    [now apply leb_of_ltb | exact Ha].
Qed.

End Clamps.

(** X22.  Each clamp holds from one side, whatever the rate was (out of
    bounds, infinite or not a number): once ten outcomes are recorded,
    the rate is at least [0.05] after the controller has decreased it and
    at most [0.5] after the controller has increased it. *)
Theorem clamps_are_one_sided :
  forall s s' : NetworkSimulator,
    adaptive_window s = 10 ->
    min_error_rate s = 0.05%float -> max_error_rate s = 0.5%float ->
    (10 <= length (packet_loss s))%nat ->
    adjust_error_rate s = Ok s' ->
    let losses := sum_bools (slice_from (-10) (packet_loss s)) in
    (3 < losses -> PrimFloat.leb 0.05 (error_rate s') = true) /\
    (losses < 1 -> PrimFloat.leb (error_rate s') 0.5 = true).
Proof.
  intros s s' Hw Hmin Hmax Hlen. unfold adjust_error_rate.
  rewrite Hw, Hmin, Hmax. change (- (10)) with (-10).
  replace (Z.of_nat (length (packet_loss s)) >=? 10) with true
    by (symmetry; rewrite Z.geb_leb; apply Z.leb_le; lia).
  destruct (tenth_thresholds _ (window_losses (packet_loss s)))
    as (f & Hf & Tu & Tl).
  rewrite Hf. cbn [bind]. rewrite Tu, Tl. cbv zeta.
  set (k := sum_bools (slice_from (-10) (packet_loss s))).
  destruct (Z.ltb_spec 3 k) as [H3 | H3].
  - intros [= <-]. cbn [error_rate set_error_rate].
    split; [intros _; now apply py_max_above | lia].
  - destruct (Z.ltb_spec k 1) as [H1 | H1].
    + intros [= <-]. cbn [error_rate set_error_rate].
      split; [lia | intros _; now apply py_min_below].
    + intros _. split; lia.
Qed.

Lemma clamps_are_one_sided_witness :
  let losses :=
    sum_bools
      (slice_from (-10)
         (packet_loss (mkSim 0.9 [] (repeat false 10) 10 10 10 0.05 0.5))) in
  (3 < losses ->
   PrimFloat.leb 0.05
     (error_rate (mkSim 0.5 [] (repeat false 10) 10 10 10 0.05 0.5)) = true) /\
  (losses < 1 ->
   PrimFloat.leb
     (error_rate (mkSim 0.5 [] (repeat false 10) 10 10 10 0.05 0.5)) 0.5 = true).
Proof.
  apply (clamps_are_one_sided
           (mkSim 0.9 [] (repeat false 10) 10 10 10 0.05 0.5)
           (mkSim 0.5 [] (repeat false 10) 10 10 10 0.05 0.5)).
  - reflexivity.
  - reflexivity.
  - reflexivity.
  - cbn. lia.
  - vm_compute. reflexivity.
Defined.

(** A rate above the upper bound stays above it through a decrease. *)
Example decrease_does_not_clamp_from_above :
  adjust_error_rate (mkSim 0.9 [] (repeat true 10) 0 10 10 0.05 0.5)
  = Ok (mkSim 0.72000000000000008 [] (repeat true 10) 0 10 10 0.05 0.5).
Proof. vm_compute. reflexivity. Qed.

(** ** A corruption that goes unnoticed *)

Section Silent.

Lemma printable_range (c : Z) :
  printable c = true -> 32 <= c <= 126 /\ c <> 34 /\ c <> 92.
Proof.
  unfold printable. intros H.
  apply andb_true_iff in H as [H H4]. apply andb_true_iff in H as [H H3].
  apply andb_true_iff in H as [H1 H2].
  apply Z.leb_le in H1, H2. apply negb_true_iff in H3, H4.
  apply Z.eqb_neq in H3, H4. lia.
Qed.

Lemma escape_printable (c : Z) : printable c = true -> escape_char c = [c].
Proof.
  intros H. apply printable_range in H as (H1 & H2 & H3). unfold escape_char.
  replace (c =? 34) with false by (symmetry; apply Z.eqb_neq; lia).
  replace (c =? 92) with false by (symmetry; apply Z.eqb_neq; lia).
  replace (c =? 10) with false by (symmetry; apply Z.eqb_neq; lia).
  replace (c =? 13) with false by (symmetry; apply Z.eqb_neq; lia).
  replace (c =? 9) with false by (symmetry; apply Z.eqb_neq; lia).
  replace (c =? 8) with false by (symmetry; apply Z.eqb_neq; lia).
  replace (c =? 12) with false by (symmetry; apply Z.eqb_neq; lia).
  replace ((32 <=? c) && (c <=? 126)) with true; [reflexivity|].
  symmetry. apply andb_true_iff. split; apply Z.leb_le; lia.
Qed.

Lemma escape_printable_text (s : text) :
  forallb printable s = true -> flat_map escape_char s = s.
Proof.
  induction s as [|c s IH]; [reflexivity|]. cbn [forallb flat_map].
  intros H. apply andb_true_iff in H as [Hc Hs].
  now rewrite (escape_printable c Hc), IH.
Qed.

Lemma printable_plain (s : text) :
  forallb printable s = true -> plain_text s = true.
Proof.
  induction s as [|c s IH]; [reflexivity|]. cbn [forallb plain_text].
  intros H. apply andb_true_iff in H as [Hc Hs].
  apply printable_range in Hc as (H1 & H2 & H3).
  rewrite (IH Hs), andb_true_r.
  replace (is_high c) with false
    by (symmetry; unfold is_high; apply andb_false_iff; left; apply Z.leb_gt; lia).
  cbn [andb negb]. rewrite andb_true_r.
  apply andb_true_iff. split; apply Z.leb_le; lia.
Qed.

(** The encoding of a string of printable characters. *)
Lemma encode_printable (s : text) :
  forallb printable s = true ->
  text_of (envelope_of (PStr s))
  = (codes "{" ++ quoted "data" ++ codes ": " ++ [34]) ++ s ++ [34; 125].
Proof.
  intros H. cbn [envelope_of text_of map join_items fst snd].
  unfold pair_text, join_item, encode_basestring_ascii. cbn [nonempty].
  rewrite (escape_printable_text s H). cbn. rewrite <- app_assoc. reflexivity.
Qed.

Lemma splice_in_string (pre s post : text) (i : nat) (v : Z) :
  (i < length s)%nat ->
  firstn (length pre + i) (pre ++ s ++ post)
    ++ v :: skipn (S (length pre + i)) (pre ++ s ++ post)
  = pre ++ (firstn i s ++ v :: skipn (S i) s) ++ post.
Proof.
  intros Hi. induction pre as [|a pre IH]; cbn [length Nat.add app].
  - rewrite firstn_app, skipn_app.
    replace (i - length s)%nat with 0%nat by lia.
    replace (S i - length s)%nat with 0%nat by lia.
    cbn [firstn skipn]. rewrite List.app_nil_r, <- app_assoc. reflexivity.
  - simpl. f_equal. exact IH.
Qed.

Lemma nth_in_string (pre s post : text) (i : nat) :
  (i < length s)%nat ->
  nth (length pre + i) (pre ++ s ++ post) 0 = nth i s 0.
Proof.
  intros Hi. induction pre as [|a pre IH]; cbn [length Nat.add app nth].
  - now apply app_nth1.
  - exact IH.
Qed.

Lemma printable_splice (s : text) (i : nat) (v : Z) :
  forallb printable s = true -> printable v = true ->
  forallb printable (firstn i s ++ v :: skipn (S i) s) = true.
Proof.
  intros Hs Hv. revert i. induction s as [|c s IH]; intros i.
  - destruct i; cbn; now rewrite Hv.
  - cbn [forallb] in Hs. apply andb_true_iff in Hs as [Hc Hs].
    destruct i as [|i]; cbn [firstn skipn app forallb].
    + now rewrite Hv, Hs.
    + now rewrite Hc, IH.
Qed.

End Silent.

(** X23.  A corruption can go unnoticed.  When the payload is a string
    of characters that are written without an escape, and the corruption
    turns one of them into another such character, the decoder returns
    the altered string, which differs from the payload, and the attempt
    is recorded as not lost. *)
Theorem printable_corruption_goes_unnoticed :
  forall self env rnd disk_ok (s : text) (i : nat) (encoded : bytes),
    forallb printable s = true ->
    (i < length s)%nat ->
    Packet.encode (Packet.Packet (PStr s)) = Ok encoded ->
    PrimFloat.ltb (random_random rnd) (error_rate self) = true ->
    randint_pos rnd = 10 + Z.of_nat i ->
    1 <= randint_mask rnd <= 255 ->
    printable (Z.lxor (nth i s 0) (randint_mask rnd)) = true ->
    let s' := firstn i s
                ++ Z.lxor (nth i s 0) (randint_mask rnd) :: skipn (S i) s in
    s' <> s /\
    Packet.decode (corrupt_data self rnd encoded) = Ok (JStr s') /\
    nth_error
      (packet_loss (transmit self env rnd disk_ok (Packet.Packet (PStr s))))
      (length (packet_loss self))
    = Some false.
Proof.
  intros self env rnd disk_ok s i encoded Hs Hi He Hf Hpos Hmask Hv. cbv zeta.
  set (v := Z.lxor (nth i s 0) (randint_mask rnd)) in *.
  set (s' := firstn i s ++ v :: skipn (S i) s).
  pose proof (printable_splice s i v Hs Hv) as Hs'. fold s' in Hs'.
  set (pre := codes "{" ++ quoted "data" ++ codes ": " ++ [34]).
  assert (Lp : length pre = 10%nat) by reflexivity.
  assert (Ee : encoded = pre ++ s ++ [34; 125]).
  { destruct (encode_cases (PStr s)) as [[_ E] | [_ [E | E]]]; rewrite E in He;
      try discriminate.
    injection He as <-. now apply encode_printable. }
  assert (Hx : xor_at encoded (randint_pos rnd) (randint_mask rnd)
               = Ok (pre ++ s' ++ [34; 125])).
  { unfold xor_at. rewrite Hpos, Ee.
    assert (Hl : Z.of_nat (length (pre ++ s ++ [34; 125]))
                 = 10 + Z.of_nat (length s) + 2).
    { rewrite !length_app, Lp. cbn [length]. lia. }
    rewrite Hl.
    replace (10 + Z.of_nat i <? 0) with false by (symmetry; apply Z.ltb_ge; lia).
    replace ((10 + Z.of_nat i <? 0)
             || (10 + Z.of_nat (length s) + 2 <=? 10 + Z.of_nat i)) with false
      by (symmetry; apply orb_false_iff; split;
          [apply Z.ltb_ge | apply Z.leb_gt]; lia).
    replace (Z.to_nat (10 + Z.of_nat i)) with (length pre + i)%nat
      by (rewrite Lp; lia).
    rewrite nth_in_string by assumption. fold v.
    apply printable_range in Hv as (V1 & V2 & V3).
    replace ((v <? 0) || (255 <? v)) with false
      by (symmetry; apply orb_false_iff; split; apply Z.ltb_ge; lia).
    now rewrite splice_in_string. }
  assert (Hc : corrupt_data self rnd encoded = pre ++ s' ++ [34; 125]).
  { unfold corrupt_data. destruct encoded as [|b bs];
      [destruct s; discriminate|]. now rewrite Hf, Hx. }
  assert (Hd : Packet.decode (corrupt_data self rnd encoded) = Ok (JStr s')).
  { rewrite Hc. unfold pre. rewrite <- (encode_printable s' Hs').
    apply (codec_listifies (PStr s')). cbn [listify json_native].
    now apply printable_plain. }
  split; [|split; [exact Hd|]].
  - intros E. assert (N : nth i s' 0 = nth i s 0) by now rewrite E.
    subst s'. rewrite nth_splice in N by assumption.
    rewrite Nat.eqb_refl in N. revert N. apply lxor_changes. lia.
  - rewrite (transmit_after_decode _ _ _ _ _ _ _ He Hd).
    now rewrite lost_flag_of_attempt.
Qed.

Lemma printable_corruption_goes_unnoticed_witness :
  let s' := firstn 0 (codes "a") ++ Z.lxor (nth 0 (codes "a") 0) 3
              :: skipn 1 (codes "a") in
  s' <> codes "a" /\
  Packet.decode
    (corrupt_data (__init__ 0.5) (Build_Draws 0.25 10 3)
       (codes "{" ++ quoted "data" ++ codes ": " ++ quoted "a" ++ codes "}"))
  = Ok (JStr s') /\
  nth_error
    (packet_loss
       (transmit (__init__ 0.5) (Build_Environment 0.25)
          (Build_Draws 0.25 10 3) true (Packet.Packet (PStr (codes "a")))))
    (length (packet_loss (__init__ 0.5)))
  = Some false.
Proof.
  apply (printable_corruption_goes_unnoticed (__init__ 0.5)
           (Build_Environment 0.25) (Build_Draws 0.25 10 3) true (codes "a") 0
           (codes "{" ++ quoted "data" ++ codes ": " ++ quoted "a" ++ codes "}")).
  - reflexivity.
  - cbn. lia.
  - vm_compute. reflexivity.
  - reflexivity.
  - reflexivity.
  - cbn. lia.
  - reflexivity.
Defined.

(** ** A corruption that does no harm *)

Section Harmless.

Lemma scan_pair_after_space (k : text) (v : pyval) (f : nat) (w : Z) (tail : text) :
  is_ws w = true ->
  plain_text k = true -> json_native v = true ->
  (scan_calls v <= f)%nat ->
  object_pairs (S f)
    (flat_map escape_char k ++ 34 :: 58 :: w :: text_of v ++ 125 :: tail)
  = Ok ([(k, to_json v)], tail).
Proof.
  intros Hw Hk Hn Hf. cbn [object_pairs].
  rewrite scanstring_escaped by assumption. cbn [bind].
  rewrite skip_ws_keep by reflexivity. change (58 =? 58) with true. cbv iota.
  cbn [skip_ws]. rewrite Hw.
  rewrite skip_ws_opens by now apply text_of_opens.
  rewrite (scan_text_of v Hn f (125 :: tail) Hf) by (cbn; auto).
  cbn [bind]. rewrite skip_ws_keep by reflexivity.
  change (125 =? 125) with true. reflexivity.
Qed.

(** [json.loads] reads the envelope_of whatever white space follows the
    colon. *)
Lemma loads_envelope_after_space (p : pyval) (w : Z) :
  is_ws w = true -> json_native p = true ->
  loads (123 :: 34 :: codes "data" ++ 34 :: 58 :: w :: text_of p ++ [125])
  = Ok (JDict [(codes "data", to_json p)]).
Proof.
  intros Hw Hn.
  set (t := 123 :: 34 :: codes "data" ++ 34 :: 58 :: w :: text_of p ++ [125]).
  assert (Hfuel : exists f, loads_fuel t = S (S f) /\ (scan_calls p <= f)%nat).
  { exists (2 * length t)%nat. unfold loads_fuel. split; [lia|].
    pose proof (scan_calls_bound p). subst t. cbn [length app codes].
    cbn. rewrite length_app. cbn [length]. lia. }
  destruct Hfuel as (f & Ef & Hf).
  unfold loads. change (match t with 65279 :: _ => _ | _ => ?x end) with x.
  rewrite Ef. subst t.
  rewrite skip_ws_keep by reflexivity. cbn [scan_once].
  change (123 =? 34) with false. change (123 =? 123) with true. cbv iota.
  rewrite skip_ws_keep by reflexivity.
  change (34 =? 125) with false. change (34 =? 34) with true. cbv iota.
  change (codes "data") with (flat_map escape_char (codes "data")) at 1.
  rewrite (scan_pair_after_space (codes "data") p f w []) by (assumption || reflexivity).
  reflexivity.
Qed.

End Harmless.

(** X24.  A corruption can do no harm.  When it turns the space after
    the colon of the envelope_of into a tab, a line feed or a carriage
    return, the bytes differ from the encoding and the decoder still
    returns the payload (with its tuples as lists). *)
Theorem whitespace_corruption_is_harmless :
  forall self rnd (p : pyval) (encoded : bytes),
    json_native (listify p) = true ->
    Packet.encode (Packet.Packet p) = Ok encoded ->
    PrimFloat.ltb (random_random rnd) (error_rate self) = true ->
    randint_pos rnd = 8 ->
    randint_mask rnd = 41 \/ randint_mask rnd = 42 \/ randint_mask rnd = 45 ->
    corrupt_data self rnd encoded <> encoded /\
    Packet.decode (corrupt_data self rnd encoded) = Ok (to_json p).
Proof.
  intros self rnd p encoded Hn He Hf Hpos Hmask.
  assert (Ee : encoded = 123 :: 34 :: codes "data" ++ 34 :: 58 :: 32
                           :: text_of p ++ [125]).
  { destruct (encode_cases p) as [[_ E] | [_ [E | E]]]; rewrite E in He;
      try discriminate.
    injection He as <-. reflexivity. }
  set (w := Z.lxor 32 (randint_mask rnd)).
  assert (Hw : is_ws w = true /\ w <> 32 /\ 0 <= w < 128)
    by (subst w; destruct Hmask as [-> | [-> | ->]]; cbn; repeat split; lia).
  destruct Hw as (Hw & Hw32 & Hwa).
  assert (Hc : corrupt_data self rnd encoded
               = 123 :: 34 :: codes "data" ++ 34 :: 58 :: w
                   :: text_of p ++ [125]).
  { unfold corrupt_data. rewrite Ee at 1. cbn [codes app]. rewrite Hf.
    unfold xor_at. rewrite Hpos, Ee.
    assert (Hl : 10 <= Z.of_nat (length (123 :: 34 :: codes "data" ++ 34 :: 58
                                          :: 32 :: text_of p ++ [125])))
      by (cbn; rewrite length_app; cbn [length]; lia).
    change (8 <? 0) with false. cbv iota.
    replace (false || (_ <=? 8)) with false
      by (symmetry; apply Z.leb_gt; lia).
    change (Z.to_nat 8) with 8%nat.
    change (nth 8 (123 :: 34 :: codes "data" ++ 34 :: 58 :: 32
                     :: text_of p ++ [125]) 0) with 32.
    fold w.
    replace ((w <? 0) || (255 <? w)) with false
      by (symmetry; apply orb_false_iff; split; apply Z.ltb_ge; lia).
    reflexivity. }
  split.
  - rewrite Hc, Ee. intros E. injection E as E. congruence.
  - rewrite Hc. unfold Packet.decode, Packet.decode_try.
    assert (Ha : is_ascii (123 :: 34 :: codes "data" ++ 34 :: 58 :: w
                             :: text_of p ++ [125])).
    { cbn [codes app]. repeat (constructor; [first [exact Hwa | cbn; lia]|]).
      apply Forall_app. split; [apply text_of_ascii | repeat constructor; lia]. }
    rewrite (proj2 (utf8_ascii _ Ha)). cbn [bind].
    rewrite <- (text_of_listify p), <- (to_json_listify p).
    rewrite (loads_envelope_after_space (listify p) w Hw Hn). cbn [bind].
    cbn [Packet.getitem Packet.dict_get]. now rewrite text_eqb_refl.
Qed.

Lemma whitespace_corruption_is_harmless_witness :
  corrupt_data (__init__ 0.5) (Build_Draws 0.25 8 41)
    (codes "{" ++ quoted "data" ++ codes ": [1, 2]}")
  <> codes "{" ++ quoted "data" ++ codes ": [1, 2]}" /\
  Packet.decode
    (corrupt_data (__init__ 0.5) (Build_Draws 0.25 8 41)
       (codes "{" ++ quoted "data" ++ codes ": [1, 2]}"))
  = Ok (to_json (PTuple [PInt 1; PInt 2])).
Proof.
  apply (whitespace_corruption_is_harmless (__init__ 0.5)
           (Build_Draws 0.25 8 41) (PTuple [PInt 1; PInt 2])
           (codes "{" ++ quoted "data" ++ codes ": [1, 2]}")).
  - vm_compute. reflexivity.
  - vm_compute. reflexivity.
  - reflexivity.
  - reflexivity.
  - left. reflexivity.
Defined.
